(** * Business Canvas (go-canvas): a shallow embedding of main.go

    The development follows main.go: the canvas record and the editing
    session ([CanvasData], [Canvas]), the validator ([NewBusinessValidator],
    [Validate]), the two history stacks ([undo], [redo]), the version list
    and the autosave loop ([saveCurrentVersion], [autoSaveRoutine]), the
    save and load callbacks ([saveCanvas], [loadCanvas]), the page
    geometry of [exportToPDF], and what the window shows and takes: the
    progress bar and the text styles ([updateProgress],
    [setupDynamicValidation]), the version dialog ([showVersionHistory]),
    the clipboard shortcuts, the theme and the tooltips.

    Go strings are byte sequences: they are modelled by [string], whose
    characters are the 8-bit [ascii] values, and [len] is [String.length].
    What the program takes from its libraries (unicode/utf8, encoding/json,
    time, uuid) is modelled next to the code that calls it. *)

From Stdlib Require Import Bool Arith ZArith Lia List String Ascii.
From Stdlib Require Import HexString Sorted FinFun.
From Stdlib Require Import QArith Qabs Lqa PrimFloat FloatOps SpecFloat.
Import ListNotations.

Set Warnings "-register-all,-abstract-large-number".

Local Open Scope string_scope.
Local Open Scope list_scope.
Local Open Scope Z_scope.

(** ** Bytes and strings *)

(** The numeric value of a byte. *)
Definition byteZ (c : ascii) : Z := Z.of_N (N_of_ascii c).

(** The byte with a given value (taken modulo 256, as Go's [byte(x)]). *)
Definition byteOf (n : Z) : ascii := ascii_of_N (Z.to_N (n mod 256)).

(** [s[n:]], for [n <= len(s)]. *)
Fixpoint skip (n : nat) (s : string) : string :=
  match n, s with
  | O, _ => s
  | S n', String _ s' => skip n' s'
  | S _, EmptyString => EmptyString
  end.

(** [s[:n]], for [n <= len(s)]. *)
Fixpoint take (n : nat) (s : string) : string :=
  match n, s with
  | O, _ => EmptyString
  | S n', String c s' => String c (take n' s')
  | S _, EmptyString => EmptyString
  end.

(** [strings.Repeat]. *)
Fixpoint repeatString (s : string) (n : nat) : string :=
  match n with
  | O => EmptyString
  | S n' => (s ++ repeatString s n')%string
  end.

(** ** unicode/utf8: decoding and encoding a rune

    The functions of Go's standard library that encoding/json calls, and
    the rune count of a string. *)

Module utf8.

Definition RuneError : Z := 0xFFFD.
Definition RuneSelf : Z := 0x80.
Definition MaxRune : Z := 0x10FFFF.
Definition surrogateMin : Z := 0xD800.
Definition surrogateMax : Z := 0xDFFF.

Definition maskx : Z := 0x3F.
Definition mask2 : Z := 0x1F.
Definition mask3 : Z := 0x0F.
Definition mask4 : Z := 0x07.
Definition tx : Z := 0x80.
Definition t2 : Z := 0xC0.
Definition t3 : Z := 0xE0.
Definition t4 : Z := 0xF0.
Definition locb : Z := 0x80.
Definition hicb : Z := 0xBF.

(** What the table [first] says of a leading byte: it stands alone
    (ASCII), it cannot start a sequence, or it starts a sequence of [sz]
    bytes whose second byte lies in [lo..hi] ([acceptRanges]). *)
Inductive lead :=
| LeadASCII
| LeadInvalid
| LeadSeq (sz : nat) (lo hi : Z).

Definition first (b : Z) : lead :=
  if b <? 0x80 then LeadASCII
  else if b <? 0xC2 then LeadInvalid
  else if b <=? 0xDF then LeadSeq 2 locb hicb
  else if b =? 0xE0 then LeadSeq 3 0xA0 hicb
  else if b <=? 0xEC then LeadSeq 3 locb hicb
  else if b =? 0xED then LeadSeq 3 locb 0x9F
  else if b <=? 0xEF then LeadSeq 3 locb hicb
  else if b =? 0xF0 then LeadSeq 4 0x90 hicb
  else if b <=? 0xF3 then LeadSeq 4 locb hicb
  else if b =? 0xF4 then LeadSeq 4 locb 0x8F
  else LeadInvalid.

Definition outside (lo hi b : Z) : bool := (b <? lo) || (hi <? b).

(** [utf8.DecodeRuneInString]: the first rune of [s] and its width in
    bytes; [(RuneError, 0)] on the empty string and [(RuneError, 1)] on an
    ill-formed or truncated sequence. *)
Definition DecodeRuneInString (s : string) : Z * nat :=
  match s with
  | EmptyString => (RuneError, 0%nat)
  | String c0 r0 =>
    let s0 := byteZ c0 in
    match first s0 with
    | LeadASCII => (s0, 1%nat)
    | LeadInvalid => (RuneError, 1%nat)
    | LeadSeq sz lo hi =>
      match r0 with
      | EmptyString => (RuneError, 1%nat)
      | String c1 r1 =>
        let s1 := byteZ c1 in
        if outside lo hi s1 then (RuneError, 1%nat)
        else if (sz <=? 2)%nat then
          (Z.lor (Z.shiftl (Z.land s0 mask2) 6) (Z.land s1 maskx), 2%nat)
        else
          match r1 with
          | EmptyString => (RuneError, 1%nat)
          | String c2 r2 =>
            let s2 := byteZ c2 in
            if outside locb hicb s2 then (RuneError, 1%nat)
            else if (sz <=? 3)%nat then
              (Z.lor (Z.lor (Z.shiftl (Z.land s0 mask3) 12)
                            (Z.shiftl (Z.land s1 maskx) 6))
                     (Z.land s2 maskx), 3%nat)
            else
              match r2 with
              | EmptyString => (RuneError, 1%nat)
              | String c3 _ =>
                let s3 := byteZ c3 in
                if outside locb hicb s3 then (RuneError, 1%nat)
                else
                  (Z.lor (Z.lor (Z.lor (Z.shiftl (Z.land s0 mask4) 18)
                                       (Z.shiftl (Z.land s1 maskx) 12))
                                (Z.shiftl (Z.land s2 maskx) 6))
                         (Z.land s3 maskx), 4%nat)
              end
          end
      end
    end
  end.

Definition str1 (a : Z) : string := String (byteOf a) EmptyString.
Definition str2 (a b : Z) : string := String (byteOf a) (str1 b).
Definition str3 (a b c : Z) : string := String (byteOf a) (str2 b c).
Definition str4 (a b c d : Z) : string := String (byteOf a) (str3 b c d).

(** The three bytes of a rune below 0x10000. *)
Definition encode3 (r : Z) : string :=
  str3 (Z.lor t3 (Z.shiftr r 12))
       (Z.lor tx (Z.land (Z.shiftr r 6) maskx))
       (Z.lor tx (Z.land r maskx)).

(** [utf8.AppendRune(nil, r)] for a rune [0 <= r]: the UTF-8 encoding of
    [r], that of [RuneError] for a surrogate or a value above [MaxRune]. *)
Definition EncodeRune (r : Z) : string :=
  if r <=? 0x7F then str1 r
  else if r <=? 0x7FF then
    str2 (Z.lor t2 (Z.shiftr r 6)) (Z.lor tx (Z.land r maskx))
  else if (MaxRune <? r) || ((surrogateMin <=? r) && (r <=? surrogateMax))
  then encode3 RuneError
  else if r <=? 0xFFFF then encode3 r
  else
    str4 (Z.lor t4 (Z.shiftr r 18))
         (Z.lor tx (Z.land (Z.shiftr r 12) maskx))
         (Z.lor tx (Z.land (Z.shiftr r 6) maskx))
         (Z.lor tx (Z.land r maskx)).

(** One step of [utf8.ValidString] and [utf8.RuneCountInString]: the
    width of the first rune and whether it is well formed. *)
Definition wellFormedHead (s : string) : bool :=
  let (r, size) := DecodeRuneInString s in
  negb ((r =? RuneError) && (size =? 1)%nat).

(** [utf8.ValidString]. *)
Fixpoint validLoop (fuel : nat) (s : string) : bool :=
  match fuel, s with
  | _, EmptyString => true
  | O, String _ _ => false
  | S fuel', String _ _ =>
    wellFormedHead s && validLoop fuel' (skip (snd (DecodeRuneInString s)) s)
  end.

Definition ValidString (s : string) : bool := validLoop (String.length s) s.

(** [utf8.RuneCountInString]: the number of runes, an ill-formed byte
    counting as one rune of width one. *)
Fixpoint countLoop (fuel : nat) (s : string) : nat :=
  match fuel, s with
  | _, EmptyString => O
  | O, String _ _ => O
  | S fuel', String _ _ =>
    S (countLoop fuel' (skip (snd (DecodeRuneInString s)) s))
  end.

Definition RuneCountInString (s : string) : nat :=
  countLoop (String.length s) s.

End utf8.

(** ** The canvas record (main.go, lines 23-34) *)

(** [CanvasData], with the Go field names. *)
Record CanvasData := mkCanvasData {
  KeyPartners : string;
  KeyActivities : string;
  KeyResources : string;
  ValueProposition : string;
  CustomerRel : string;
  Channels : string;
  CustomerSegments : string;
  CostStructure : string;
  RevenueStreams : string
}.

(** The zero value of the struct ([var canvasData CanvasData]). *)
Definition zeroCanvasData : CanvasData :=
  mkCanvasData "" "" "" "" "" "" "" "" "".

(** The nine fields, in declaration order. *)
Inductive field :=
| FKeyPartners | FKeyActivities | FKeyResources | FValueProposition
| FCustomerRel | FChannels | FCustomerSegments | FCostStructure
| FRevenueStreams.

Definition allFields : list field :=
  [FKeyPartners; FKeyActivities; FKeyResources; FValueProposition;
   FCustomerRel; FChannels; FCustomerSegments; FCostStructure;
   FRevenueStreams].

(** The struct tags: the key of each field in the persisted document. *)
Definition tag (f : field) : string :=
  match f with
  | FKeyPartners => "keyPartners"
  | FKeyActivities => "keyActivities"
  | FKeyResources => "keyResources"
  | FValueProposition => "valueProposition"
  | FCustomerRel => "customerRelationships"
  | FChannels => "channels"
  | FCustomerSegments => "customerSegments"
  | FCostStructure => "costStructure"
  | FRevenueStreams => "revenueStreams"
  end.

Definition getField (f : field) (d : CanvasData) : string :=
  match f with
  | FKeyPartners => KeyPartners d
  | FKeyActivities => KeyActivities d
  | FKeyResources => KeyResources d
  | FValueProposition => ValueProposition d
  | FCustomerRel => CustomerRel d
  | FChannels => Channels d
  | FCustomerSegments => CustomerSegments d
  | FCostStructure => CostStructure d
  | FRevenueStreams => RevenueStreams d
  end.

Definition setField (f : field) (s : string) (d : CanvasData) : CanvasData :=
  let '(mkCanvasData kp ka kr vp cr ch cs co rs) := d in
  match f with
  | FKeyPartners => mkCanvasData s ka kr vp cr ch cs co rs
  | FKeyActivities => mkCanvasData kp s kr vp cr ch cs co rs
  | FKeyResources => mkCanvasData kp ka s vp cr ch cs co rs
  | FValueProposition => mkCanvasData kp ka kr s cr ch cs co rs
  | FCustomerRel => mkCanvasData kp ka kr vp s ch cs co rs
  | FChannels => mkCanvasData kp ka kr vp cr s cs co rs
  | FCustomerSegments => mkCanvasData kp ka kr vp cr ch s co rs
  | FCostStructure => mkCanvasData kp ka kr vp cr ch cs s rs
  | FRevenueStreams => mkCanvasData kp ka kr vp cr ch cs co s
  end.

(** Go's [error] values, as far as the program tells them apart: it only
    hands them to [dialog.ShowError]. *)
Inductive error :=
| IOError (msg : string)
| SyntaxError
| UnmarshalTypeError (value : string) (fieldName : string).

(** ** encoding/json, as [saveCanvas] and [loadCanvas] use it

    [json.MarshalIndent] on a [CanvasData] and [json.Unmarshal] into one.
    The package belongs to Go's standard library, not to the repository:
    it is modelled here after its documented behaviour. Strings are
    written as JSON strings coerced to valid UTF-8, each invalid byte
    replaced by U+FFFD, with the characters [<], [>], [&], U+2028 and
    U+2029 escaped. On reading, a key of the document goes to the field
    whose tag it is, exactly or else up to case; a key that names no field
    is skipped; a field that no key names is left as it is; [null] for a
    string field changes nothing, and any other value that is no string is
    an [UnmarshalTypeError]. The package works by reflection on the struct
    type; here it is written out for the nine string fields and their
    tags. *)

Module json.

Definition dquote : ascii := ascii_of_nat 34.
Definition backslash : ascii := ascii_of_nat 92.
Definition newline : string := String (ascii_of_nat 10) EmptyString.

(** *** Encoding *)

Definition hex : string := "0123456789abcdef".

Definition hexDigit (n : Z) : ascii :=
  match String.get (Z.to_nat n) hex with
  | Some c => c
  | None => "0"%char
  end.

(** [htmlSafeSet]: the ASCII bytes written as they are, which are the
    printable ones but the double quote, the backslash and the three
    characters [<], [>] and [&]. *)
Definition htmlSafeSet (b : Z) : bool :=
  (0x20 <=? b) && (b <? 0x80)
  && negb ((b =? 0x22) || (b =? 0x26) || (b =? 0x3C) || (b =? 0x3E)
           || (b =? 0x5C)).

(** The escape of an ASCII byte outside [htmlSafeSet]. *)
Definition escapeASCII (c : ascii) : string :=
  let b := byteZ c in
  if (b =? 0x5C) || (b =? 0x22) then String backslash (String c "")
  else if b =? 0x08 then String backslash "b"
  else if b =? 0x0C then String backslash "f"
  else if b =? 0x0A then String backslash "n"
  else if b =? 0x0D then String backslash "r"
  else if b =? 0x09 then String backslash "t"
  else (String backslash "u00" ++ String (hexDigit (Z.shiftr b 4))
                         (String (hexDigit (Z.land b 0xF)) ""))%string.

(** The loop of [appendString] (with [escapeHTML] set, as [Marshal] sets
    it): [fuel] bounds the number of iterations, each of which consumes
    at least one byte of [src]. *)
Fixpoint appendStringLoop (fuel : nat) (src : string) : string :=
  match fuel, src with
  | _, EmptyString => EmptyString
  | O, String _ _ => EmptyString
  | S fuel', String c rest =>
    let b := byteZ c in
    if b <? utf8.RuneSelf then
      if htmlSafeSet b then String c (appendStringLoop fuel' rest)
      else (escapeASCII c ++ appendStringLoop fuel' rest)%string
    else
      let (r, size) := utf8.DecodeRuneInString src in
      if (r =? utf8.RuneError) && (size =? 1)%nat then
        (String backslash "ufffd" ++ appendStringLoop fuel' (skip size src))%string
      else if (r =? 0x2028) || (r =? 0x2029) then
        (String backslash "u202" ++ String (hexDigit (Z.land r 0xF))
                           (appendStringLoop fuel' (skip size src)))%string
      else (take size src ++ appendStringLoop fuel' (skip size src))%string
  end.

(** [appendString]: a Go string as a JSON string literal. *)
Definition appendString (src : string) : string :=
  String dquote
    (appendStringLoop (String.length src) src ++ String dquote "")%string.

(** The members of an object as [Indent] lays them out: each on a line
    of its own after [prefix] and one [indent], a colon and a space
    between key and value, a comma after each member but the last. *)
Fixpoint indentMembers (prefix indent : string)
         (ms : list (string * string)) : string :=
  match ms with
  | [] => EmptyString
  | (k, v) :: ms' =>
    (newline ++ prefix ++ indent ++ appendString k ++ ": "
     ++ appendString v
     ++ match ms' with
        | [] => EmptyString
        | _ :: _ => "," ++ indentMembers prefix indent ms'
        end)%string
  end.

Definition indentObject (prefix indent : string)
           (ms : list (string * string)) : string :=
  match ms with
  | [] => "{}"
  | _ :: _ =>
    ("{" ++ indentMembers prefix indent ms ++ newline ++ prefix ++ "}")%string
  end.

(** The exported fields of a [CanvasData] with their keys, in
    declaration order. *)
Definition structFields (d : CanvasData) : list (string * string) :=
  map (fun f => (tag f, getField f d)) allFields.

(** [json.MarshalIndent(data, prefix, indent)] for a [CanvasData]: a
    struct of strings is always encodable, so the error is [nil]. *)
Definition MarshalIndent (d : CanvasData) (prefix indent : string)
  : string * option error :=
  (indentObject prefix indent (structFields d), None).

(** *** Decoding *)

(** A parsed document. A number keeps its literal: the program has no
    numeric field to store one in. *)
Inductive Value :=
| Null
| Bool (b : bool)
| Number (lit : string)
| Str (s : string)
| Array (elems : list Value)
| Object (members : list (string * Value)).

(** [maxNestingDepth] of the scanner. *)
Definition maxNestingDepth : Z := 10000.

(** [isSpace]: space, tab, carriage return, line feed. *)
Definition isSpace (c : ascii) : bool :=
  let b := byteZ c in
  (b =? 0x20) || (b =? 0x09) || (b =? 0x0D) || (b =? 0x0A).

Fixpoint skipSpace (s : string) : string :=
  match s with
  | String c s' => if isSpace c then skipSpace s' else s
  | EmptyString => EmptyString
  end.

(** The value of a hexadecimal digit, [-1] for another byte. *)
Definition hexValue (c : ascii) : Z :=
  let b := byteZ c in
  if (0x30 <=? b) && (b <=? 0x39) then b - 0x30
  else if (0x61 <=? b) && (b <=? 0x66) then b - 0x61 + 10
  else if (0x41 <=? b) && (b <=? 0x46) then b - 0x41 + 10
  else -1.

(** [getu4]: the rune of a leading [\uXXXX], [-1] when [s] does not
    start with one. *)
Definition getu4 (s : string) : Z :=
  match s with
  | String c0 (String c1 (String h0 (String h1 (String h2 (String h3 _))))) =>
    if (byteZ c0 =? 0x5C) && (byteZ c1 =? 0x75) then
      let d0 := hexValue h0 in
      let d1 := hexValue h1 in
      let d2 := hexValue h2 in
      let d3 := hexValue h3 in
      if (d0 <? 0) || (d1 <? 0) || (d2 <? 0) || (d3 <? 0) then -1
      else ((d0 * 16 + d1) * 16 + d2) * 16 + d3
    else -1
  | _ => -1
  end.

(** [utf16.IsSurrogate] and [utf16.DecodeRune]. *)
Definition IsSurrogate (r : Z) : bool := (0xD800 <=? r) && (r <? 0xE000).

Definition utf16DecodeRune (r1 r2 : Z) : Z :=
  if (0xD800 <=? r1) && (r1 <? 0xDC00) && (0xDC00 <=? r2) && (r2 <? 0xE000)
  then Z.lor (Z.shiftl (r1 - 0xD800) 10) (r2 - 0xDC00) + 0x10000
  else utf8.RuneError.

(** The byte a one-letter escape stands for. *)
Definition simpleEscape (c : ascii) : option ascii :=
  let b := byteZ c in
  if (b =? 0x22) || (b =? 0x5C) || (b =? 0x2F) then Some c
  else if b =? 0x62 then Some (byteOf 0x08)
  else if b =? 0x66 then Some (byteOf 0x0C)
  else if b =? 0x6E then Some (byteOf 0x0A)
  else if b =? 0x72 then Some (byteOf 0x0D)
  else if b =? 0x74 then Some (byteOf 0x09)
  else None.

Definition prepend (p : string) (r : option (string * string))
  : option (string * string) :=
  match r with
  | Some (t, rest) => Some ((p ++ t)%string, rest)
  | None => None
  end.

(** A string literal after its opening quote: the text it denotes and
    what follows its closing quote. This is the scanner's walk over the
    literal together with [unquote]: escapes are decoded, a control byte
    or a bad escape is an error, and bytes that are not well-formed UTF-8
    are replaced by the encoding of [RuneError]. *)
Fixpoint unquoteLoop (fuel : nat) (s : string) : option (string * string) :=
  match fuel, s with
  | O, _ => None
  | _, EmptyString => None
  | S fuel', String c rest =>
    let b := byteZ c in
    if b =? 0x22 then Some (EmptyString, rest)
    else if b =? 0x5C then
      match rest with
      | EmptyString => None
      | String e rest' =>
        match simpleEscape e with
        | Some ch => prepend (String ch EmptyString) (unquoteLoop fuel' rest')
        | None =>
          if byteZ e =? 0x75 then
            let rr := getu4 s in
            if rr <? 0 then None
            else
              let after := skip 6 s in
              if IsSurrogate rr then
                let dec := utf16DecodeRune rr (getu4 after) in
                if negb (dec =? utf8.RuneError) then
                  prepend (utf8.EncodeRune dec)
                          (unquoteLoop fuel' (skip 6 after))
                else
                  prepend (utf8.EncodeRune utf8.RuneError)
                          (unquoteLoop fuel' after)
              else prepend (utf8.EncodeRune rr) (unquoteLoop fuel' after)
          else None
        end
      end
    else if b <? 0x20 then None
    else if b <? utf8.RuneSelf then
      prepend (String c EmptyString) (unquoteLoop fuel' rest)
    else
      let (rr, size) := utf8.DecodeRuneInString s in
      prepend (utf8.EncodeRune rr) (unquoteLoop fuel' (skip size s))
  end.

Definition scanString (s : string) : option (string * string) :=
  unquoteLoop (String.length s) s.

Definition isDigit (c : ascii) : bool :=
  (0x30 <=? byteZ c) && (byteZ c <=? 0x39).

(** The longest prefix of digits, and the rest. *)
Fixpoint digits (s : string) : string * string :=
  match s with
  | String c s' =>
    if isDigit c then let (ds, rest) := digits s' in (String c ds, rest)
    else (EmptyString, s)
  | EmptyString => (EmptyString, EmptyString)
  end.

(** At least one digit. *)
Definition digits1 (s : string) : option (string * string) :=
  match digits s with
  | (EmptyString, _) => None
  | (ds, rest) => Some (ds, rest)
  end.

(** The parts of a number literal: an optional minus sign, [0] or a
    digit string without leading zero, an optional fraction, an optional
    exponent. Each returns the text it read and what follows it. *)
Definition scanSign (s : string) : string * string :=
  match s with
  | String c r => if byteZ c =? 0x2D then ("-", r) else (EmptyString, s)
  | EmptyString => (EmptyString, s)
  end.

Definition scanInt (s : string) : option (string * string) :=
  match s with
  | String c r =>
    if byteZ c =? 0x30 then Some ("0", r)
    else if isDigit c then digits1 s
    else None
  | EmptyString => None
  end.

Definition scanFrac (s : string) : option (string * string) :=
  match s with
  | String c r =>
    if byteZ c =? 0x2E then
      match digits1 r with
      | Some (fp, rest) => Some (("." ++ fp)%string, rest)
      | None => None
      end
    else Some (EmptyString, s)
  | EmptyString => Some (EmptyString, s)
  end.

Definition scanExp (s : string) : option (string * string) :=
  match s with
  | String e r =>
    if (byteZ e =? 0x65) || (byteZ e =? 0x45) then
      let (sg, r') :=
        match r with
        | String c r' =>
          if (byteZ c =? 0x2B) || (byteZ c =? 0x2D)
          then (String c EmptyString, r')
          else (EmptyString, r)
        | EmptyString => (EmptyString, r)
        end in
      match digits1 r' with
      | Some (ep, rest) => Some ((String e EmptyString ++ sg ++ ep)%string, rest)
      | None => None
      end
    else Some (EmptyString, s)
  | EmptyString => Some (EmptyString, s)
  end.

(** A number literal. *)
Definition scanNumber (s : string) : option (string * string) :=
  let (sign, s1) := scanSign s in
  match scanInt s1 with
  | None => None
  | Some (ip, s2) =>
    match scanFrac s2 with
    | None => None
    | Some (fp, s3) =>
      match scanExp s3 with
      | None => None
      | Some (ep, s4) => Some ((sign ++ ip ++ fp ++ ep)%string, s4)
      end
    end
  end.

(** [s] without the leading [p], when it starts with it. *)
Fixpoint stripPrefix (p s : string) : option string :=
  match p, s with
  | EmptyString, _ => Some s
  | String a p', String b s' =>
    if Ascii.eqb a b then stripPrefix p' s' else None
  | String _ _, EmptyString => None
  end.

(** One value at the head of [s] (no leading space), and the rest.
    [depth] is the number of arrays and objects open around it, and
    [fuel] bounds the number of calls. *)
Fixpoint parseValue (fuel : nat) (depth : Z) (s : string)
  : option (Value * string) :=
  match fuel with
  | O => None
  | S fuel' =>
    match s with
    | EmptyString => None
    | String c rest =>
      let b := byteZ c in
      if b =? 0x7B then
        if maxNestingDepth <? depth + 1 then None
        else
          match skipSpace rest with
          | String c' rest' =>
            if byteZ c' =? 0x7D then Some (Object [], rest')
            else
              match parseMembers fuel' (depth + 1) (skipSpace rest) with
              | Some (ms, r) => Some (Object ms, r)
              | None => None
              end
          | EmptyString => None
          end
      else if b =? 0x5B then
        if maxNestingDepth <? depth + 1 then None
        else
          match skipSpace rest with
          | String c' rest' =>
            if byteZ c' =? 0x5D then Some (Array [], rest')
            else
              match parseElements fuel' (depth + 1) (skipSpace rest) with
              | Some (vs, r) => Some (Array vs, r)
              | None => None
              end
          | EmptyString => None
          end
      else if b =? 0x22 then
        match scanString rest with
        | Some (t, r) => Some (Str t, r)
        | None => None
        end
      else if (b =? 0x2D) || isDigit c then
        match scanNumber s with
        | Some (lit, r) => Some (Number lit, r)
        | None => None
        end
      else
        match stripPrefix "true" s, stripPrefix "false" s,
              stripPrefix "null" s with
        | Some r, _, _ => Some (Bool true, r)
        | _, Some r, _ => Some (Bool false, r)
        | _, _, Some r => Some (Null, r)
        | _, _, _ => None
        end
    end
  end

(** The members of an object from its first key to its closing brace. *)
with parseMembers (fuel : nat) (depth : Z) (s : string)
  : option (list (string * Value) * string) :=
  match fuel with
  | O => None
  | S fuel' =>
    match s with
    | String c rest =>
      if byteZ c =? 0x22 then
        match scanString rest with
        | Some (key, r1) =>
          match skipSpace r1 with
          | String c1 r2 =>
            if byteZ c1 =? 0x3A then
              match parseValue fuel' depth (skipSpace r2) with
              | Some (v, r3) =>
                match skipSpace r3 with
                | String c2 r4 =>
                  if byteZ c2 =? 0x2C then
                    match parseMembers fuel' depth (skipSpace r4) with
                    | Some (ms, r5) => Some ((key, v) :: ms, r5)
                    | None => None
                    end
                  else if byteZ c2 =? 0x7D then Some ([(key, v)], r4)
                  else None
                | EmptyString => None
                end
              | None => None
              end
            else None
          | EmptyString => None
          end
        | None => None
        end
      else None
    | EmptyString => None
    end
  end

(** The elements of an array from its first one to its closing bracket. *)
with parseElements (fuel : nat) (depth : Z) (s : string)
  : option (list Value * string) :=
  match fuel with
  | O => None
  | S fuel' =>
    match parseValue fuel' depth s with
    | Some (v, r1) =>
      match skipSpace r1 with
      | String c r2 =>
        if byteZ c =? 0x2C then
          match parseElements fuel' depth (skipSpace r2) with
          | Some (vs, r3) => Some (v :: vs, r3)
          | None => None
          end
        else if byteZ c =? 0x5D then Some ([v], r2)
        else None
      | EmptyString => None
      end
    | None => None
    end
  end.

(** [checkValid] and the walk of the decoder, as one parse of the whole
    input: one value, with space allowed around it and nothing else. The
    fuel exceeds the number of calls any input of this length needs. *)
Definition parse (data : string) : option Value :=
  match parseValue (2 * String.length data + 2) 0 (skipSpace data) with
  | Some (v, rest) =>
    match skipSpace rest with
    | EmptyString => Some v
    | String _ _ => None
    end
  | None => None
  end.

(** [foldName]: a key with its ASCII letters in upper case and the two
    runes that fold to ASCII letters replaced by them, the Kelvin sign
    (U+212A) by [K] and the long s (U+017F) by [S]. Every other rune is
    kept: Go folds it to a rune outside ASCII, which no folded field name
    of [CanvasData] contains, so the comparison below is Go's. *)
Fixpoint foldLoop (fuel : nat) (s : string) : string :=
  match fuel, s with
  | _, EmptyString => EmptyString
  | O, String _ _ => EmptyString
  | S fuel', String c rest =>
    let b := byteZ c in
    if b <? utf8.RuneSelf then
      String (if (0x61 <=? b) && (b <=? 0x7A) then byteOf (b - 0x20) else c)
             (foldLoop fuel' rest)
    else
      let (r, n) := utf8.DecodeRuneInString s in
      let folded :=
        if r =? 0x212A then "K"
        else if r =? 0x17F then "S"
        else utf8.EncodeRune r in
      (folded ++ foldLoop fuel' (skip n s))%string
  end.

Definition foldName (s : string) : string := foldLoop (String.length s) s.

(** The field a key names: the one with that very tag or, when there is
    none, the first one whose tag is the key up to case. *)
Definition findField (key : string) : option field :=
  match find (fun f => String.eqb (tag f) key) allFields with
  | Some f => Some f
  | None =>
    find (fun f => String.eqb (foldName (tag f)) (foldName key)) allFields
  end.

(** [saveError]: the first error is the one [Unmarshal] returns. *)
Definition saveError (e : error) (saved : option error) : option error :=
  match saved with
  | Some _ => saved
  | None => Some e
  end.

(** The name Go gives the kind of a value in an [UnmarshalTypeError]. *)
Definition kindName (v : Value) : string :=
  match v with
  | Null => "null"
  | Bool _ => "bool"
  | Number _ => "number"
  | Str _ => "string"
  | Array _ => "array"
  | Object _ => "object"
  end.

(** A member's value into the string field [f]: a string is stored,
    [null] leaves the field as it is, anything else is a type error and
    the walk goes on. *)
Definition storeField (f : field) (v : Value)
           (st : CanvasData * option error) : CanvasData * option error :=
  let (d, saved) := st in
  match v with
  | Str s => (setField f s d, saved)
  | Null => (d, saved)
  | _ => (d, saveError (UnmarshalTypeError (kindName v) (tag f)) saved)
  end.

(** The members of an object into the struct, in document order; a key
    that names no field is skipped with its value. *)
Fixpoint decodeMembers (ms : list (string * Value))
         (st : CanvasData * option error) : CanvasData * option error :=
  match ms with
  | [] => st
  | (key, v) :: ms' =>
    decodeMembers ms'
      (match findField key with
       | Some f => storeField f v st
       | None => st
       end)
  end.

(** A document into a [CanvasData]: an object is decoded member by
    member, [null] changes nothing, any other value is a type error. *)
Definition decodeValue (v : Value) (d : CanvasData)
  : CanvasData * option error :=
  match v with
  | Object ms => decodeMembers ms (d, None)
  | Null => (d, None)
  | _ => (d, Some (UnmarshalTypeError (kindName v) "CanvasData"))
  end.

(** [json.Unmarshal(data, &v)] for a [CanvasData]: a syntax error leaves
    [v] as it is. *)
Definition Unmarshal (data : string) (v : CanvasData)
  : CanvasData * option error :=
  match parse data with
  | None => (v, Some SyntaxError)
  | Some doc => decodeValue doc v
  end.

End json.

(** ** time: instants and durations

    An instant is its distance in nanoseconds from the zero [time.Time]; a
    [Duration] is an int64 count of nanoseconds, and [Time.Sub] saturates
    at the ends of that range. *)

Definition Time := Z.
Definition Duration := Z.

Definition zeroTime : Time := 0.
Definition minDuration : Duration := - 2 ^ 63.
Definition maxDuration : Duration := 2 ^ 63 - 1.
Definition Second : Duration := 1000000000.
Definition Minute : Duration := 60 * Second.

(** [t.Sub(u)]. *)
Definition Sub (t u : Time) : Duration :=
  if t - u <? minDuration then minDuration
  else if maxDuration <? t - u then maxDuration
  else t - u.

(** [time.Since(t)], where [now] is what [time.Now()] returns. *)
Definition Since (now t : Time) : Duration := Sub now t.

(** ** github.com/google/uuid, as [saveCurrentVersion] uses it

    [uuid.New().String()]: a version-4 UUID made of 16 bytes read from the
    random source, in its text form. The package is a library, not part of
    the repository: it is modelled here after its documented behaviour.
    [New] panics when the random source fails; the model takes the 16
    bytes as read. *)

Module uuid.

(** [io.ReadFull(r, buf)] for a buffer of [size] bytes, [r i] being the
    byte number [i] that the reader delivers. *)
Definition readFull (r : nat -> ascii) (size : nat) : string :=
  string_of_list_ascii (map r (seq 0 size)).

(** [uuid[i] = f(uuid[i])]. *)
Fixpoint setByte (i : nat) (f : Z -> Z) (u : string) : string :=
  match u, i with
  | EmptyString, _ => EmptyString
  | String c u', O => String (byteOf (f (byteZ c))) u'
  | String c u', S i' => String c (setByte i' f u')
  end.

(** [NewRandomFromReader] on the bytes read: the version (4) and the
    variant (binary 10) are written over six of their bits. *)
Definition NewRandomFromReader (bytes : string) : string :=
  let u := setByte 6 (fun b => Z.lor (Z.land b 0x0f) 0x40) bytes in
  setByte 8 (fun b => Z.lor (Z.land b 0x3f) 0x80) u.

(** [hex.Encode]: two lower-case digits per byte. *)
Fixpoint hexEncode (src : string) : string :=
  match src with
  | EmptyString => EmptyString
  | String c src' =>
    String (json.hexDigit (Z.shiftr (byteZ c) 4))
           (String (json.hexDigit (Z.land (byteZ c) 0x0f)) (hexEncode src'))
  end.

(** [UUID.String]: the form xxxxxxxx-xxxx-xxxx-xxxx-xxxxxxxxxxxx. *)
Definition UUIDString (u : string) : string :=
  (hexEncode (take 4 u) ++ "-" ++ hexEncode (take 2 (skip 4 u)) ++ "-"
   ++ hexEncode (take 2 (skip 6 u)) ++ "-" ++ hexEncode (take 2 (skip 8 u))
   ++ "-" ++ hexEncode (skip 10 u))%string.

(** [uuid.New().String()] at call number [call], in a run of the program
    in which the random source delivers the bytes [rander call] to that
    call. *)
Definition New (rander : nat -> nat -> ascii) (call : nat) : string :=
  UUIDString (NewRandomFromReader (readFull (rander call) 16)).

End uuid.

(** ** The editing session (main.go, lines 36-75) *)

Record Comment := mkComment {
  commentID : string;
  commentSection : string;
  commentText : string;
  commentAuthor : string;
  commentTimestamp : Time
}.

Record Version := mkVersion {
  ID : string;
  Timestamp : Time;
  Data : CanvasData;
  Comments : list Comment
}.

(** A [widget.Entry], of which the program reads and writes the text. *)
Record Entry := mkEntry { Text : string }.

(** [Canvas]: the nine entries, the autosave flag and the time of the
    last snapshot, the two history stacks (the top is the last element)
    and the version list. The theme, the text style of the entries and the
    progress bar are display state that no operation reads back, so
    [updateProgress] and [updateSectionColor] have nothing to change here. *)
Record Canvas := mkCanvas {
  keyPartners : Entry;
  keyActivities : Entry;
  keyResources : Entry;
  valueProposition : Entry;
  customerRel : Entry;
  channels : Entry;
  customerSegments : Entry;
  costStructure : Entry;
  revenueStreams : Entry;
  autoSave : bool;
  lastSaved : Time;
  undoStack : list CanvasData;
  redoStack : list CanvasData;
  versions : list Version
}.

(** The session [main] builds: empty entries, autosave on, everything
    else at its zero value. *)
Definition newCanvas : Canvas :=
  let e := mkEntry "" in
  mkCanvas e e e e e e e e e true zeroTime [] [] [].

Definition entry (f : field) (c : Canvas) : Entry :=
  match f with
  | FKeyPartners => keyPartners c
  | FKeyActivities => keyActivities c
  | FKeyResources => keyResources c
  | FValueProposition => valueProposition c
  | FCustomerRel => customerRel c
  | FChannels => channels c
  | FCustomerSegments => customerSegments c
  | FCostStructure => costStructure c
  | FRevenueStreams => revenueStreams c
  end.

(** [entry.SetText(s)] on the entry of field [f]. *)
Definition SetText (f : field) (s : string) (c : Canvas) : Canvas :=
  let '(mkCanvas kp ka kr vp cr ch cs co rs a l u r v) := c in
  let e := mkEntry s in
  match f with
  | FKeyPartners => mkCanvas e ka kr vp cr ch cs co rs a l u r v
  | FKeyActivities => mkCanvas kp e kr vp cr ch cs co rs a l u r v
  | FKeyResources => mkCanvas kp ka e vp cr ch cs co rs a l u r v
  | FValueProposition => mkCanvas kp ka kr e cr ch cs co rs a l u r v
  | FCustomerRel => mkCanvas kp ka kr vp e ch cs co rs a l u r v
  | FChannels => mkCanvas kp ka kr vp cr e cs co rs a l u r v
  | FCustomerSegments => mkCanvas kp ka kr vp cr ch e co rs a l u r v
  | FCostStructure => mkCanvas kp ka kr vp cr ch cs e rs a l u r v
  | FRevenueStreams => mkCanvas kp ka kr vp cr ch cs co e a l u r v
  end.

Definition setAutoSave (b : bool) (c : Canvas) : Canvas :=
  let '(mkCanvas kp ka kr vp cr ch cs co rs _ l u r v) := c in
  mkCanvas kp ka kr vp cr ch cs co rs b l u r v.

Definition setLastSaved (t : Time) (c : Canvas) : Canvas :=
  let '(mkCanvas kp ka kr vp cr ch cs co rs a _ u r v) := c in
  mkCanvas kp ka kr vp cr ch cs co rs a t u r v.

Definition setUndoStack (u : list CanvasData) (c : Canvas) : Canvas :=
  let '(mkCanvas kp ka kr vp cr ch cs co rs a l _ r v) := c in
  mkCanvas kp ka kr vp cr ch cs co rs a l u r v.

Definition setRedoStack (r : list CanvasData) (c : Canvas) : Canvas :=
  let '(mkCanvas kp ka kr vp cr ch cs co rs a l u _ v) := c in
  mkCanvas kp ka kr vp cr ch cs co rs a l u r v.

Definition setVersions (v : list Version) (c : Canvas) : Canvas :=
  let '(mkCanvas kp ka kr vp cr ch cs co rs a l u r _) := c in
  mkCanvas kp ka kr vp cr ch cs co rs a l u r v.

(** [getCurrentData] (lines 382-394): the live record. *)
Definition getCurrentData (c : Canvas) : CanvasData :=
  {| KeyPartners := Text (keyPartners c);
     KeyActivities := Text (keyActivities c);
     KeyResources := Text (keyResources c);
     ValueProposition := Text (valueProposition c);
     CustomerRel := Text (customerRel c);
     Channels := Text (channels c);
     CustomerSegments := Text (customerSegments c);
     CostStructure := Text (costStructure c);
     RevenueStreams := Text (revenueStreams c) |}.

(** The nine [SetText] calls by which [restoreVersion], [undo], [redo]
    and [loadCanvas] install a record, in the order of the source. *)
Definition installData (d : CanvasData) (c : Canvas) : Canvas :=
  let c := SetText FKeyPartners (KeyPartners d) c in
  let c := SetText FKeyActivities (KeyActivities d) c in
  let c := SetText FKeyResources (KeyResources d) c in
  let c := SetText FValueProposition (ValueProposition d) c in
  let c := SetText FCustomerRel (CustomerRel d) c in
  let c := SetText FChannels (Channels d) c in
  let c := SetText FCustomerSegments (CustomerSegments d) c in
  let c := SetText FCostStructure (CostStructure d) c in
  SetText FRevenueStreams (RevenueStreams d) c.

(** What the session shows or writes: the dialogs, and the bytes handed
    to the file writer. *)
Inductive Effect :=
| ShowError (err : error)
| ShowInformation (title message : string)
| FileWrite (data : string).

(** ** The validator (lines 525-596) *)

Record ValidationRule := mkRule {
  ruleSection : string;
  Check : Canvas -> bool;
  ruleMessage : string
}.

Record ValidationResult := mkResult {
  Section : string;
  Message : string
}.

Record BusinessValidator := mkValidator { rules : list ValidationRule }.

(** [len(s)]: the number of bytes of [s]. *)
Definition len (s : string) : Z := Z.of_nat (String.length s).

Definition NewBusinessValidator : BusinessValidator :=
  {| rules :=
       [ {| ruleSection := "Value Proposition";
            Check := fun c => 100 <=? len (Text (valueProposition c));
            ruleMessage :=
              "Consider adding more detail about your value proposition" |};
         {| ruleSection := "Customer Segments";
            Check := fun c => 50 <=? len (Text (customerSegments c));
            ruleMessage := "Customer segments need more specific details" |};
         {| ruleSection := "Key Activities";
            Check := fun c => 50 <=? len (Text (keyActivities c));
            ruleMessage := "Add more details about your key activities" |};
         {| ruleSection := "Cost Structure";
            Check := fun c => 50 <=? len (Text (costStructure c));
            ruleMessage := "Elaborate on your cost structure" |};
         {| ruleSection := "Revenue Streams";
            Check := fun c => 50 <=? len (Text (revenueStreams c));
            ruleMessage :=
              "Provide more information about revenue streams" |} ] |}.

(** The loop of [Validate], from the rules still to run and the results
    so far. *)
Fixpoint validateLoop (rs : list ValidationRule) (canvas : Canvas)
         (results : list ValidationResult) : list ValidationResult :=
  match rs with
  | [] => results
  | rule :: rs' =>
    validateLoop rs' canvas
      (if negb (Check rule canvas)
       then results ++ [ {| Section := ruleSection rule;
                            Message := ruleMessage rule |} ]
       else results)
  end.

Definition Validate (v : BusinessValidator) (canvas : Canvas)
  : list ValidationResult :=
  validateLoop (rules v) canvas [].

(** ** Undo and redo (lines 688-736) *)

Definition undo (c : Canvas) : Canvas :=
  if (0 <? List.length (undoStack c))%nat then
    let c := setRedoStack (redoStack c ++ [getCurrentData c]) c in
    match nth_error (undoStack c) (List.length (undoStack c) - 1) with
    | Some lastState =>
      let c :=
        setUndoStack (firstn (List.length (undoStack c) - 1) (undoStack c)) c in
      installData lastState c
    | None => c (* the index is in range under the guard *)
    end
  else c.

Definition redo (c : Canvas) : Canvas :=
  if (0 <? List.length (redoStack c))%nat then
    let c := setUndoStack (undoStack c ++ [getCurrentData c]) c in
    match nth_error (redoStack c) (List.length (redoStack c) - 1) with
    | Some lastState =>
      let c :=
        setRedoStack (firstn (List.length (redoStack c) - 1) (redoStack c)) c in
      installData lastState c
    | None => c (* the index is in range under the guard *)
    end
  else c.

(** ** Versions and autosave (lines 359-380, 504-523) *)

(** [saveCurrentVersion]: [id] is what [uuid.New().String()] returns, and
    [stamp] and [saved] are the two readings of [time.Now()]. *)
Definition saveCurrentVersion (id : string) (stamp saved : Time) (c : Canvas)
  : Canvas :=
  let version :=
    {| ID := id; Timestamp := stamp; Data := getCurrentData c;
       Comments := [] |} in
  let c := setVersions (versions c ++ [version]) c in
  setLastSaved saved c.

(** One firing of the ticker in [autoSaveRoutine]: [now] is the reading
    of the clock in [time.Since]. *)
Definition autoSaveTick (now : Time) (id : string) (stamp saved : Time)
           (c : Canvas) : Canvas :=
  if autoSave c && (5 * Minute <=? Since now (lastSaved c))
  then saveCurrentVersion id stamp saved c
  else c.

(** A firing of the ticker with what the environment answers: the
    reading of the clock in [time.Since] and, should the snapshot be taken,
    the identifier and the two further readings of the clock. *)
Record Firing := mkFiring {
  firedAt : Time;
  drawnID : string;
  stampedAt : Time;
  savedAt : Time
}.

(** [autoSaveRoutine] over the firings of its ticker. *)
Definition autoSaveRoutine (firings : list Firing) (c : Canvas) : Canvas :=
  fold_left
    (fun c f => autoSaveTick (firedAt f) (drawnID f) (stampedAt f) (savedAt f) c)
    firings c.

Definition restoreVersion (version : Version) (c : Canvas)
  : Canvas * list Effect :=
  let c := setUndoStack (undoStack c ++ [getCurrentData c]) c in
  let c := installData (Data version) c in
  (c, [ShowInformation "Success" "Version restored successfully"]).

(** ** Save and load (lines 738-816) *)

(** What the file-save dialog calls back with: an error, no writer (the
    user cancelled), or a writer, of which [writeResult] is the error of
    [writer.Write], if any. *)
Inductive SaveChoice :=
| SaveDialogError (err : error)
| SaveCancelled
| SaveTo (writeResult : option error).

(** What [io.ReadAll(reader)] returns. *)
Inductive ReadResult :=
| ReadOK (data : string)
| ReadFailed (err : error).

(** What the file-open dialog calls back with. *)
Inductive OpenChoice :=
| OpenDialogError (err : error)
| OpenCancelled
| OpenFrom (readResult : ReadResult).

(** The callback of [saveCanvas]. *)
Definition saveCanvas (choice : SaveChoice) (c : Canvas)
  : Canvas * list Effect :=
  match choice with
  | SaveDialogError err => (c, [ShowError err])
  | SaveCancelled => (c, [])
  | SaveTo writeResult =>
    let c := setUndoStack (undoStack c ++ [getCurrentData c]) c in
    let data := getCurrentData c in
    let (jsonData, err) := json.MarshalIndent data "" "    " in
    match err with
    | Some e => (c, [ShowError e])
    | None =>
      match writeResult with
      | Some e => (c, [FileWrite jsonData; ShowError e])
      | None =>
        (c, [FileWrite jsonData;
             ShowInformation "Success" "Canvas saved successfully"])
      end
    end
  end.

(** The callback of [loadCanvas]. *)
Definition loadCanvas (choice : OpenChoice) (c : Canvas)
  : Canvas * list Effect :=
  match choice with
  | OpenDialogError err => (c, [ShowError err])
  | OpenCancelled => (c, [])
  | OpenFrom readResult =>
    let c := setUndoStack (undoStack c ++ [getCurrentData c]) c in
    match readResult with
    | ReadFailed e => (c, [ShowError e])
    | ReadOK data =>
      let (canvasData, err) := json.Unmarshal data zeroCanvasData in
      match err with
      | Some e => (c, [ShowError e])
      | None =>
        (installData canvasData c,
         [ShowInformation "Success" "Canvas loaded successfully"])
      end
    end
  end.

(** ** The page layout of the export (lines 818-899)

    The coordinates are float64 values, modelled by the binary64 floats of
    [PrimFloat], each operation rounded on its own. *)

Set Warnings "-inexact-float".

(** The calls on the PDF document. *)
Inductive PdfOp :=
| AddPage
| SetFont (family style : string) (size : float)
| SetLineWidth (width : float)
| Rect (x y w h : float) (style : string)
| PdfText (x y : float) (txt : string)
| SetXY (x y : float)
| MultiCell (w h : float) (txt : string).

(** [drawSection] (lines 888-899). *)
Definition drawSection (x y w h : float) (title content : string)
  : list PdfOp :=
  [ Rect x y w h "D";
    SetFont "Arial" "B" 12;
    PdfText (x + 5) (y + 10) title;
    SetFont "Arial" "" 10;
    SetXY (x + 5) (y + 15);
    MultiCell (w - 10) 5 content ]%float.

(** The drawing part of [exportToPDF] for a page of the given size and
    margin. *)
Definition pageLayout (pageWidth pageHeight margin : float) (c : Canvas)
  : list PdfOp :=
  (let topHeight := (pageHeight - 2 * margin) * 0.6 in
   let bottomHeight := (pageHeight - 2 * margin) * 0.4 in
   let colWidth := (pageWidth - 2 * margin) / 5 in
   let y := margin in
   let s1 := drawSection margin y colWidth topHeight
               "Key Partners" (Text (keyPartners c)) in
   let x := margin + colWidth in
   let s2 := drawSection x y colWidth (topHeight / 2)
               "Key Activities" (Text (keyActivities c)) in
   let s3 := drawSection x (y + topHeight / 2) colWidth (topHeight / 2)
               "Key Resources" (Text (keyResources c)) in
   let x := x + colWidth in
   let s4 := drawSection x y colWidth topHeight
               "Value Proposition" (Text (valueProposition c)) in
   let x := x + colWidth in
   let s5 := drawSection x y colWidth (topHeight / 2)
               "Customer Relationships" (Text (customerRel c)) in
   let s6 := drawSection x (y + topHeight / 2) colWidth (topHeight / 2)
               "Channels" (Text (channels c)) in
   let x := x + colWidth in
   let s7 := drawSection x y colWidth topHeight
               "Customer Segments" (Text (customerSegments c)) in
   let y := margin + topHeight in
   let s8 := drawSection margin y ((pageWidth - 2 * margin) / 2) bottomHeight
               "Cost Structure" (Text (costStructure c)) in
   let s9 := drawSection (margin + (pageWidth - 2 * margin) / 2) y
               ((pageWidth - 2 * margin) / 2) bottomHeight
               "Revenue Streams" (Text (revenueStreams c)) in
   [AddPage; SetFont "Arial" "B" 16; SetLineWidth 0.3]
     ++ s1 ++ s2 ++ s3 ++ s4 ++ s5 ++ s6 ++ s7 ++ s8 ++ s9)%float.

(** The document [exportToPDF] builds: an A3 landscape page. *)
Definition exportDocument (c : Canvas) : list PdfOp :=
  pageLayout 420 297 10 c.

(** The callback of the file-save dialog of [exportToPDF]; the bytes of
    the document are the PDF library's business. *)
Definition exportToPDF (choice : SaveChoice) (c : Canvas) : list Effect :=
  match choice with
  | SaveDialogError err => [ShowError err]
  | SaveCancelled => []
  | SaveTo (Some e) => [ShowError e]
  | SaveTo None =>
    [ShowInformation "Success" "PDF has been exported successfully"]
  end.

(** A rectangle with exact coordinates: left, top, width, height. *)
Record QRect := mkQRect { qx : Q; qy : Q; qw : Q; qh : Q }.

(** The number a finite float stands for. *)
Definition exactValue (f : float) : option Q :=
  match Prim2SF f with
  | S754_zero _ => Some 0%Q
  | S754_finite s m e =>
    Some (Qred ((if s then -1 else 1) * (Zpos m # 1) * (2 # 1) ^ e))%Q
  | S754_infinity _ => None
  | S754_nan => None
  end.

Definition exactRect (x y w h : float) : option QRect :=
  match exactValue x, exactValue y, exactValue w, exactValue h with
  | Some a, Some b, Some c, Some d => Some (mkQRect a b c d)
  | _, _, _, _ => None
  end.

(** The rectangles a document draws, in drawing order; a rectangle with
    a coordinate that is no number is dropped. *)
Fixpoint rectangles (ops : list PdfOp) : list QRect :=
  match ops with
  | [] => []
  | Rect x y w h _ :: ops' =>
    match exactRect x y w h with
    | Some r => r :: rectangles ops'
    | None => rectangles ops'
    end
  | _ :: ops' => rectangles ops'
  end.

(** The number of [Rect] calls of a document. *)
Definition rectCalls (ops : list PdfOp) : nat :=
  List.length (filter (fun o => match o with Rect _ _ _ _ _ => true
                                        | _ => false end) ops).

(** The point [(px, py)] lies in [r], the left and top edges included. *)
Definition covers (r : QRect) (px py : Q) : Prop :=
  (qx r <= px /\ px < qx r + qw r /\ qy r <= py /\ py < qy r + qh r)%Q.

Definition area (r : QRect) : Q := (qw r * qh r)%Q.

Definition totalArea (rs : list QRect) : Q :=
  fold_right (fun r acc => (area r + acc)%Q) 0%Q rs.

(** ** Validation and history dialogs (lines 459-502) *)

(** The bullet of the validation report (U+2022), then the line of one
    result. *)
Definition bullet : string := utf8.EncodeRune 0x2022.

Definition resultLine (r : ValidationResult) : string :=
  (bullet ++ " " ++ Section r ++ ": " ++ Message r ++ json.newline)%string.

Definition validateCanvas (c : Canvas) : list Effect :=
  let results := Validate NewBusinessValidator c in
  if (0 <? List.length results)%nat then
    [ShowInformation "Validation Results"
       (fold_left (fun message r => (message ++ resultLine r)%string)
                  results "")]
  else [ShowInformation "Validation Results" "All sections look good!"].

(** ** The session as a transition system

    What the user and the ticker can do, with what the environment
    answers: the outcome of a file dialog, the readings of the clock. *)

Inductive Op :=
| OpEdit (f : field) (s : string)
| OpUndo
| OpRedo
| OpSave (choice : SaveChoice)
| OpLoad (choice : OpenChoice)
| OpRestore (id : nat)
| OpSetAutoSave (checked : bool)
| OpValidate
| OpExport (choice : SaveChoice)
| OpTick (now stamp saved : Time).

(** The session with its surroundings: how many identifiers have been
    drawn from the UUID generator, and what has been shown or written. *)
Record World := mkWorld {
  canvas : Canvas;
  uuidCalls : nat;
  effects : list Effect
}.

Definition newWorld : World := mkWorld newCanvas 0 [].

Section Session.

(** [uuidNew n] is what the call number [n] of [uuid.New().String()]
    returns in this run of the program. *)
Variable uuidNew : nat -> string.

Definition step (op : Op) (w : World) : World :=
  let c := canvas w in
  match op with
  | OpEdit f s => mkWorld (SetText f s c) (uuidCalls w) (effects w)
  | OpUndo => mkWorld (undo c) (uuidCalls w) (effects w)
  | OpRedo => mkWorld (redo c) (uuidCalls w) (effects w)
  | OpSave choice =>
    let (c', es) := saveCanvas choice c in
    mkWorld c' (uuidCalls w) (effects w ++ es)
  | OpLoad choice =>
    let (c', es) := loadCanvas choice c in
    mkWorld c' (uuidCalls w) (effects w ++ es)
  | OpRestore id =>
    match nth_error (versions c) id with
    | Some version =>
      let (c', es) := restoreVersion version c in
      mkWorld c' (uuidCalls w) (effects w ++ es)
    | None => w (* the dialog lists the stored versions only *)
    end
  | OpSetAutoSave checked =>
    mkWorld (setAutoSave checked c) (uuidCalls w) (effects w)
  | OpValidate => mkWorld c (uuidCalls w) (effects w ++ validateCanvas c)
  | OpExport choice =>
    mkWorld c (uuidCalls w) (effects w ++ exportToPDF choice c)
  | OpTick now stamp saved =>
    if autoSave c && (5 * Minute <=? Since now (lastSaved c))
    then mkWorld (autoSaveTick now (uuidNew (uuidCalls w)) stamp saved c)
                 (S (uuidCalls w)) (effects w)
    else w
  end.

Fixpoint run (ops : list Op) (w : World) : World :=
  match ops with
  | [] => w
  | op :: ops' => run ops' (step op w)
  end.

End Session.


(** ** What the window shows (lines 396-457 and 665-686)

    The text style of the nine entries and the value of the progress bar:
    display state, which the program writes and never reads back. *)

(** [fyne.TextStyle], of which the program sets [Italic] and leaves every
    other field at its zero value. *)
Record TextStyle := mkTextStyle { Italic : bool }.

Record Screen := mkScreen {
  textStyle : field -> TextStyle;
  progressBar : float
}.

Definition field_eq_dec (f g : field) : {f = g} + {f <> g}.
Proof. decide equality. Defined.

(** [updateSectionColor] (lines 679-686) on the entry of field [f]. *)
Definition updateSectionColor (f : field) (isValid : bool) (s : Screen)
  : Screen :=
  let style := if isValid then mkTextStyle false else mkTextStyle true in
  mkScreen (fun g => if field_eq_dec g f then style else textStyle s g)
           (progressBar s).

(** One of the nine blocks of [updateProgress]: the count of filled
    sections so far and the screen. *)
Definition countSection (f : field) (c : Canvas) (st : float * Screen)
  : float * Screen :=
  let (filledSections, s) := st in
  if 0 <? len (Text (entry f c))
  then ((filledSections + 1)%float, updateSectionColor f true s)
  else (filledSections, updateSectionColor f false s).

(** [updateProgress] (lines 396-457). *)
Definition updateProgress (c : Canvas) (s : Screen) : Screen :=
  let totalSections := 9%float in
  let st := (0%float, s) in
  let st := countSection FKeyPartners c st in
  let st := countSection FKeyActivities c st in
  let st := countSection FKeyResources c st in
  let st := countSection FValueProposition c st in
  let st := countSection FCustomerRel c st in
  let st := countSection FChannels c st in
  let st := countSection FCustomerSegments c st in
  let st := countSection FCostStructure c st in
  let st := countSection FRevenueStreams c st in
  let (filledSections, s) := st in
  mkScreen (textStyle s) (filledSections / totalSections)%float.

(** The section names [initialize] hands to [setupDynamicValidation]
    (lines 145-153). *)
Definition sectionName (f : field) : string :=
  match f with
  | FKeyPartners => "Key Partners"
  | FKeyActivities => "Key Activities"
  | FKeyResources => "Key Resources"
  | FValueProposition => "Value Proposition"
  | FCustomerRel => "Customer Relationships"
  | FChannels => "Channels"
  | FCustomerSegments => "Customer Segments"
  | FCostStructure => "Cost Structure"
  | FRevenueStreams => "Revenue Streams"
  end.

(** The loop of the handler: no result names the section. *)
Fixpoint isValidLoop (section : string) (results : list ValidationResult)
  : bool :=
  match results with
  | [] => true
  | result :: results' =>
    if String.eqb (Section result) section then false
    else isValidLoop section results'
  end.

(** The [OnChanged] handler that [setupDynamicValidation] (lines 665-677)
    gives the entry of field [f]; [c] is the session when the handler runs,
    the changed text in place. *)
Definition onChanged (f : field) (section : string) (c : Canvas) (s : Screen)
  : Screen :=
  let results := Validate NewBusinessValidator c in
  updateSectionColor f (isValidLoop section results) s.

(** ** The version history dialog (lines 472-502) *)

Section History.

(** [Format t] is [t.Format("2006-01-02 15:04:05")], the business of the
    time package. *)
Variable Format : Time -> string.

(** [showVersionHistory]: the dialog it shows when there is no version,
    or else the lines of the list, one per version. *)
Definition showVersionHistory (c : Canvas) : list Effect + list string :=
  if (List.length (versions c) =? 0)%nat then
    inl [ShowInformation "Version History" "No previous versions found"]
  else
    inr (fold_left
           (fun items version => items ++ [Format (Timestamp version)])
           (versions c) []).

End History.

(** The callback of the confirmation that follows the selection of line
    [id]: [c.versions[id]] is read when the user answers, and an index out
    of range is a run-time panic ([None]). *)
Definition onSelected (id : nat) (restore : bool) (c : Canvas)
  : option (Canvas * list Effect) :=
  if restore then
    match nth_error (versions c) id with
    | Some version => Some (restoreVersion version c)
    | None => None
    end
  else Some (c, []).

(** ** The clipboard shortcuts (lines 629-662) *)

(** What [c.window.Canvas().Focused()] returns: one of the nine entries,
    an entry that belongs to another widget (a dialog's), or something
    that is no [*widget.Entry], [nil] included. *)
Inductive Focus :=
| FocusSection (f : field)
| FocusForeign (e : Entry)
| FocusNone.

(** The session with the focus, the content of the clipboard and what
    [fyne.LogError] was called with. *)
Record Desk := mkDesk {
  session : Canvas;
  focused : Focus;
  clipboard : string;
  errorLog : list (string * string)
}.

Definition noFocusedEntry : string := "no focused entry or invalid type".

(** The handler of Ctrl+C (lines 630-639). *)
Definition copyShortcut (d : Desk) : Desk :=
  match focused d with
  | FocusSection f =>
    mkDesk (session d) (focused d) (Text (entry f (session d))) (errorLog d)
  | FocusForeign e => mkDesk (session d) (focused d) (Text e) (errorLog d)
  | FocusNone =>
    mkDesk (session d) (focused d) (clipboard d)
           (errorLog d ++ [("Clipboard copy failed", noFocusedEntry)])
  end.

(** The handler of Ctrl+V (lines 641-650). *)
Definition pasteShortcut (d : Desk) : Desk :=
  match focused d with
  | FocusSection f =>
    mkDesk (SetText f (clipboard d) (session d)) (focused d) (clipboard d)
           (errorLog d)
  | FocusForeign e =>
    mkDesk (session d) (FocusForeign (mkEntry (clipboard d))) (clipboard d)
           (errorLog d)
  | FocusNone =>
    mkDesk (session d) (focused d) (clipboard d)
           (errorLog d ++ [("Clipboard paste failed", noFocusedEntry)])
  end.

(** The handler of Ctrl+X (lines 652-662). *)
Definition cutShortcut (d : Desk) : Desk :=
  match focused d with
  | FocusSection f =>
    mkDesk (SetText f "" (session d)) (focused d)
           (Text (entry f (session d))) (errorLog d)
  | FocusForeign e =>
    mkDesk (session d) (FocusForeign (mkEntry "")) (Text e) (errorLog d)
  | FocusNone =>
    mkDesk (session d) (focused d) (clipboard d)
           (errorLog d ++ [("Clipboard cut failed", noFocusedEntry)])
  end.

(** ** The theme (lines 156-167 and 313-336) *)

Inductive Theme := LightTheme | DarkTheme.

(** [currentTheme] with the theme last handed to [Settings().SetTheme]:
    [None] as long as the application runs on the theme it started with. *)
Record Look := mkLook {
  currentTheme : string;
  appTheme : option Theme
}.

(** The look [main] starts with. *)
Definition newLook : Look := mkLook "professional" None.

(** The toolbar action [themeToggle]. *)
Definition themeToggle (l : Look) : Look :=
  if String.eqb (currentTheme l) "professional"
  then mkLook "light" (Some LightTheme)
  else mkLook "professional" (Some DarkTheme).

(** [themeOptions] of [showSettings]: name and value. *)
Definition themeOptions : list (string * string) :=
  [("Professional (Dark)", "professional"); ("Light", "light")].

(** The loop of the callback of the theme selector. *)
Fixpoint selectLoop (options : list (string * string)) (selected : string)
         (l : Look) : Look :=
  match options with
  | [] => l
  | (name, value) :: options' =>
    if String.eqb name selected then
      if String.eqb value "professional"
      then mkLook value (Some DarkTheme)
      else mkLook value (Some LightTheme)
    else selectLoop options' selected l
  end.

Definition themeSelect (selected : string) (l : Look) : Look :=
  selectLoop themeOptions selected l.

(** ** The tooltip of a section (lines 247-278) *)

Section Hover.

(** [fyne.Position], which the handlers only pass on. *)
Variable Position : Type.

(** A [widget.PopUp] over a label: the text of the label, where the
    pop-up was last shown, and whether it is on screen. *)
Record PopUp := mkPopUp {
  popupText : string;
  shownAt : option Position;
  visible : bool
}.

Record HoverableRect := mkHoverableRect {
  popup : option PopUp;
  tooltip : string
}.

Definition NewHoverableRect (tooltip : string) : HoverableRect :=
  mkHoverableRect None tooltip.

Definition MouseIn (e : Position) (h : HoverableRect) : HoverableRect :=
  let p :=
    match popup h with
    | None => mkPopUp (tooltip h) None false
    | Some p => p
    end in
  mkHoverableRect (Some (mkPopUp (popupText p) (Some e) true)) (tooltip h).

Definition MouseOut (h : HoverableRect) : HoverableRect :=
  match popup h with
  | Some p =>
    mkHoverableRect (Some (mkPopUp (popupText p) (shownAt p) false)) (tooltip h)
  | None => h
  end.

Definition MouseMoved (e : Position) (h : HoverableRect) : HoverableRect := h.

(** What the pointer does over the rectangle. *)
Inductive MouseEvent :=
| Enters (e : Position)
| Leaves
| Moves (e : Position).

Definition handle (h : HoverableRect) (ev : MouseEvent) : HoverableRect :=
  match ev with
  | Enters e => MouseIn e h
  | Leaves => MouseOut h
  | Moves e => MouseMoved e h
  end.

End Hover.

Arguments mkPopUp {Position}.
Arguments popupText {Position}.
Arguments shownAt {Position}.
Arguments visible {Position}.
Arguments mkHoverableRect {Position}.
Arguments popup {Position}.
Arguments tooltip {Position}.
Arguments NewHoverableRect {Position}.
Arguments MouseIn {Position}.
Arguments MouseOut {Position}.
Arguments MouseMoved {Position}.
Arguments Enters {Position}.
Arguments Leaves {Position}.
Arguments Moves {Position}.
Arguments handle {Position}.

(** * The vocabulary of the statements

    Sample sessions and documents, and the notions the properties below
    are stated with. *)

(** The result a failing rule contributes. *)
Definition resultOf (rule : ValidationRule) : ValidationResult :=
  {| Section := ruleSection rule; Message := ruleMessage rule |}.

(** The sections that have a rule, in declaration order. *)
Definition ruledSections : list string :=
  ["Value Proposition"; "Customer Segments"; "Key Activities";
   "Cost Structure"; "Revenue Streams"].

(** The specification's reading of the first rule: it fails exactly when the text
    has fewer than 100 characters (runes). *)
Definition failsByCharacterCount (c : Canvas) : Prop :=
  In "Value Proposition" (map Section (Validate NewBusinessValidator c))
  <-> (utf8.RuneCountInString (Text (valueProposition c)) < 100)%nat.

(** Fifty times the letter e with an acute accent (U+00E9, two bytes in
    UTF-8) as value proposition, every other entry empty. *)
Definition accentedCanvas : Canvas :=
  SetText FValueProposition (repeatString (utf8.EncodeRune 0xE9) 50) newCanvas.

(** A session with one snapshot on each stack. *)
Definition sampleData (s : string) : CanvasData :=
  mkCanvasData s "" "" "" "" "" "" "" "".

Definition sampleCanvas : Canvas :=
  setRedoStack [sampleData "newer"]
    (setUndoStack [sampleData "older"] (SetText FKeyPartners "live" newCanvas)).

(** The error a load with a chosen file fails with, if it fails: that of
    [io.ReadAll] or else that of [json.Unmarshal]. *)
Definition loadError (r : ReadResult) : option error :=
  match r with
  | ReadFailed e => Some e
  | ReadOK data => snd (json.Unmarshal data zeroCanvasData)
  end.

(** A document that is cut short, and one whose value for a field is a
    number. *)
Definition truncatedDocument : string :=
  ("{" ++ json.appendString "keyPartners" ++ ": ")%string.

Definition mistypedDocument : string :=
  ("{" ++ json.appendString "channels" ++ ": 3}")%string.

(** The specification's reading of save and load: they clear the redo stack. *)
Definition clearsRedoStack (op : Op) : Prop :=
  forall uuidNew w, redoStack (canvas (step uuidNew op w)) = [].

(** A session in which an edit was saved and then undone. *)
Definition undoneWorld : World :=
  run (fun _ => "") [OpEdit FKeyPartners "draft"; OpSave (SaveTo None); OpUndo]
      newWorld.

(** Whether the tick at [now] takes a snapshot. *)
Definition autoSaveDue (now : Time) (c : Canvas) : bool :=
  autoSave c && (5 * Minute <=? Since now (lastSaved c)).

(** The versions an operation appends. *)
Definition appended (uuidNew : nat -> string) (op : Op) (w : World)
  : list Version :=
  match op with
  | OpTick now stamp saved =>
    if autoSaveDue now (canvas w)
    then [ {| ID := uuidNew (uuidCalls w); Timestamp := stamp;
              Data := getCurrentData (canvas w); Comments := [] |} ]
    else []
  | _ => []
  end.

(** The identifiers in the store are those drawn so far, in order. *)
Definition storeMatchesDraws (uuidNew : nat -> string) (w : World) : Prop :=
  map ID (versions (canvas w)) = map uuidNew (seq 0 (uuidCalls w)).

(** An instant in the year 2026, and [n] firings of the ticker from then
    on, one every five minutes, the clock standing still during each. *)
Definition startOfRun : Time := 63900000000 * Second.

Definition regularTicks (period : Duration) (n : nat) : list Op :=
  map (fun k => let t := startOfRun + Z.of_nat k * period in OpTick t t t)
      (seq 0 n).

(** The readings of the clock an operation makes, in order. *)
Definition readings (op : Op) : list Time :=
  match op with
  | OpTick now stamp saved => [now; stamp; saved]
  | _ => []
  end.

(** The clock never runs backwards: no reading is below [t] or below a
    reading made before it. *)
Fixpoint monotoneFrom (t : Time) (l : list Time) : bool :=
  match l with
  | [] => true
  | t' :: l' => (t <=? t') && monotoneFrom t' l'
  end.

(** Each version is stamped at least five minutes after each version
    before it. *)
Definition spaced (vs : list Version) : Prop :=
  StronglySorted (fun v1 v2 => Timestamp v1 + 5 * Minute <= Timestamp v2) vs.

(** What holds of the session when the clock has reached [t]. *)
Definition clockInvariant (t : Time) (w : World) : Prop :=
  lastSaved (canvas w) <= t
  /\ Forall (fun v => Timestamp v <= lastSaved (canvas w)) (versions (canvas w))
  /\ spaced (versions (canvas w)).

Local Open Scope Q_scope.

(** Two rectangles with the same position and size. *)
Definition sameRect (r1 r2 : QRect) : Prop :=
  qx r1 == qx r2 /\ qy r1 == qy r2 /\ qw r1 == qw r2 /\ qh r1 == qh r2.

(** The nine cells for a content area of width [w] and height [h] at
    margin [m], with a top band of height [t] above a bottom band of height
    [b]: five columns in the top band, the second and the fourth split in
    two halves, and two columns in the bottom band. *)
Definition nineCells (m w t b : Q) : list QRect :=
  [ mkQRect m m (w / 5) t;
    mkQRect (m + w / 5) m (w / 5) (t / 2);
    mkQRect (m + w / 5) (m + t / 2) (w / 5) (t / 2);
    mkQRect (m + 2 * (w / 5)) m (w / 5) t;
    mkQRect (m + 3 * (w / 5)) m (w / 5) (t / 2);
    mkQRect (m + 3 * (w / 5)) (m + t / 2) (w / 5) (t / 2);
    mkQRect (m + 4 * (w / 5)) m (w / 5) t;
    mkQRect m (m + t) (w / 2) b;
    mkQRect (m + w / 2) (m + t) (w / 2) b ].

(** The heights of the two bands as the export computes them. *)
Definition topBand : Q :=
  Eval vm_compute in
    match exactValue ((297 - 2 * 10) * 0.6)%float with Some q => q | None => 0 end.

Definition bottomBand : Q :=
  Eval vm_compute in
    match exactValue ((297 - 2 * 10) * 0.4)%float with Some q => q | None => 0 end.

Definition zeroRect : QRect := mkQRect 0 0 0 0.

(** The rectangles of the export, which do not depend on the texts. *)
Definition exportCells : list QRect :=
  Eval vm_compute in rectangles (exportDocument newCanvas).

(** Decides which of the nine rectangles holds a point, and that no
    other does. *)
Ltac cell i :=
  exists i; split; [lia|]; split;
  [ unfold covers; cbn [nth exportCells qx qy qw qh];
    unfold topBand in *; repeat split; lra
  | let j := fresh "j" in
    let Hj := fresh "Hj" in
    let Hc := fresh "Hc" in
    intros j Hj Hc;
    do 9 (destruct j as [|j];
          [ try reflexivity; exfalso; unfold covers in Hc;
            cbn [nth exportCells qx qy qw qh] in Hc;
            destruct Hc as (? & ? & ? & ?);
            unfold topBand in *; lra | ]);
    lia ].

Local Close Scope Q_scope.

Definition headByte (s : string) : Z :=
  match s with
  | String c _ => byteZ c
  | EmptyString => 0
  end.

(** Well-formed UTF-8, rune by rune. *)
Inductive WellFormed : string -> Prop :=
| WF_nil : WellFormed EmptyString
| WF_rune (s : string) :
    s <> EmptyString ->
    utf8.wellFormedHead s = true ->
    WellFormed (skip (snd (utf8.DecodeRuneInString s)) s) ->
    WellFormed s.

(** One iteration of [unquoteLoop], the rest of the loop being [k]. *)
Definition unquoteStep (k : string -> option (string * string)) (s : string)
  : option (string * string) :=
  match s with
  | EmptyString => None
  | String c rest =>
    let b := byteZ c in
    if b =? 0x22 then Some (EmptyString, rest)
    else if b =? 0x5C then
      match rest with
      | EmptyString => None
      | String e rest' =>
        match json.simpleEscape e with
        | Some ch => json.prepend (String ch EmptyString) (k rest')
        | None =>
          if byteZ e =? 0x75 then
            let rr := json.getu4 s in
            if rr <? 0 then None
            else
              let after := skip 6 s in
              if json.IsSurrogate rr then
                let dec := json.utf16DecodeRune rr (json.getu4 after) in
                if negb (dec =? utf8.RuneError) then
                  json.prepend (utf8.EncodeRune dec) (k (skip 6 after))
                else json.prepend (utf8.EncodeRune utf8.RuneError) (k after)
              else json.prepend (utf8.EncodeRune rr) (k after)
          else None
        end
      end
    else if b <? 0x20 then None
    else if b <? utf8.RuneSelf then json.prepend (String c EmptyString) (k rest)
    else
      let (rr, size) := utf8.DecodeRuneInString s in
      json.prepend (utf8.EncodeRune rr) (k (skip size s))
  end.

Definition memberValues (ms : list (string * string))
  : list (string * json.Value) :=
  map (fun kv => (fst kv, json.Str (snd kv))) ms.

(** A record with a byte that is no UTF-8, and a document whose only key
    is the first tag in capitals. *)
Definition strayByteData : CanvasData :=
  setField FKeyPartners (String (byteOf 0xFF) "") zeroCanvasData.

Definition capitalKeyDocument : string :=
  ("{" ++ json.appendString "KEYPARTNERS" ++ ":" ++ json.appendString "x"
   ++ "}")%string.

(** A record with spaces, a line break, a tab, quotes, a backslash,
    markup characters, accented letters, a line separator and an emoji. *)
Definition awkwardData : CanvasData :=
  {| KeyPartners := "";
     KeyActivities := "  two  spaces  ";
     KeyResources := ("line one" ++ json.newline ++ "line two")%string;
     ValueProposition :=
       String json.dquote ("quoted" ++ String json.dquote "")%string;
     CustomerRel := String json.backslash (String (byteOf 9) "tab");
     Channels := "<a href='x'>&</a>";
     CustomerSegments := repeatString (utf8.EncodeRune 0xE9) 3;
     CostStructure := utf8.EncodeRune 0x2028;
     RevenueStreams := utf8.EncodeRune 0x1F600 |}.


(** Text of ASCII characters only. *)
Fixpoint isASCII (s : string) : bool :=
  match s with
  | EmptyString => true
  | String c s' => (byteZ c <? utf8.RuneSelf) && isASCII s'
  end.

(** The scenario of the specification: a value proposition of 120 letters
    x, every other entry empty. *)
Definition scenarioCanvas : Canvas :=
  SetText FValueProposition (repeatString "x" 120) newCanvas.

(** The bytes of a UUID in text form: the digits at the places where
    [UUIDString] writes them, two per byte. *)
Fixpoint hexDecode (s : string) : string :=
  match s with
  | String h (String l s') =>
    String (byteOf (json.hexValue h * 16 + json.hexValue l)) (hexDecode s')
  | _ => EmptyString
  end.

Definition uuidBytes (s : string) : string :=
  hexDecode (take 8 s ++ take 4 (skip 9 s) ++ take 4 (skip 14 s)
             ++ take 4 (skip 19 s) ++ skip 24 s)%string.

(** The UUID of a call: the bytes drawn, with version and variant. *)
Definition drawn (rander : nat -> nat -> ascii) (call : nat) : string :=
  uuid.NewRandomFromReader (uuid.readFull (rander call) 16).

(** The specification's reading of the identifiers: whatever the random source
    delivers and whatever the session does, no two versions carry the same
    one. *)
Definition identifiersAlwaysDistinct : Prop :=
  forall rander ops,
    NoDup (map ID (versions (canvas (run (uuid.New rander) ops newWorld)))).

(** A random source whose first two draws differ in one bit, of those
    that the version is written over: byte 6 is 0x10 in the first draw and
    zero in the second, every other byte zero. *)
Definition nearMissDraws (call i : nat) : ascii :=
  if (call =? 0)%nat && (i =? 6)%nat then byteOf 0x10 else byteOf 0.

(** A random source that never repeats within 65536 draws: the number of
    the call in the first two bytes. *)
Definition counterDraws (call i : nat) : ascii :=
  if (i =? 0)%nat then byteOf (Z.of_nat call / 256)
  else if (i =? 1)%nat then byteOf (Z.of_nat call)
  else byteOf 0.

(** ** The vocabulary of the further properties *)

(** The number of entries that hold some text. *)
Definition filledCount (c : Canvas) : nat :=
  List.length (filter (fun f => 0 <? len (Text (entry f c))) allFields).

(** The least byte length the validator accepts for a section, if it has
    a rule. *)
Definition threshold (f : field) : option Z :=
  match f with
  | FValueProposition => Some 100
  | FCustomerSegments | FKeyActivities | FCostStructure | FRevenueStreams =>
    Some 50
  | FKeyPartners | FKeyResources | FCustomerRel | FChannels => None
  end.

(** A screen with every entry in the default style and an empty bar. *)
Definition plainScreen : Screen := mkScreen (fun _ => mkTextStyle false) 0%float.

(** The bar after [k] sections were counted as filled. *)
Definition progressOf (k : nat) : float :=
  (Nat.iter k (fun filledSections => filledSections + 1) 0 / 9)%float.

(** A value proposition of eight bytes, every other entry empty. *)
Definition shortPitch : Canvas := SetText FValueProposition "Cheaper." newCanvas.

(** The five thresholds are met. *)
Definition meetsThresholds (c : Canvas) : Prop :=
  100 <= len (Text (valueProposition c))
  /\ 50 <= len (Text (customerSegments c))
  /\ 50 <= len (Text (keyActivities c))
  /\ 50 <= len (Text (costStructure c))
  /\ 50 <= len (Text (revenueStreams c)).

(** No entry of [c2] is shorter than it is in [c1]. *)
Definition noShorter (c1 c2 : Canvas) : Prop :=
  forall f, len (Text (entry f c1)) <= len (Text (entry f c2)).

(** Two sessions, the second with more text under key activities. *)
Definition halfWritten : Canvas :=
  SetText FCostStructure (repeatString "rent " 10)
    (SetText FKeyActivities "selling" newCanvas).

Definition moreWritten : Canvas :=
  SetText FKeyActivities (repeatString "selling " 10) halfWritten.

(** The records of the history in the order in which undo and redo walk
    them: the undo stack from its bottom, the live record, the redo stack
    from its top. *)
Definition timeline (c : Canvas) : list CanvasData :=
  undoStack c ++ getCurrentData c :: rev (redoStack c).

(** An operation other than ticking the autosave box. *)
Definition leavesAutoSaveOff (op : Op) : bool :=
  match op with
  | OpSetAutoSave checked => negb checked
  | _ => true
  end.

(** Undo and redo, the two moves along the history. *)
Definition onlyMoves (op : Op) : bool :=
  match op with
  | OpUndo | OpRedo => true
  | _ => false
  end.

(** What the user can do before the ticker first fires, short of
    touching the autosave box. *)
Definition beforeFirstTick (op : Op) : bool :=
  match op with
  | OpTick _ _ _ | OpSetAutoSave _ => false
  | _ => true
  end.

(** A session with three checkpoints below the live record. *)
Definition deepCanvas : Canvas :=
  setUndoStack [sampleData "one"; sampleData "two"; sampleData "three"]
    (SetText FKeyPartners "four" newCanvas).

(** A session with two snapshots in its store. *)
Definition snapshotWorld : World :=
  run HexString.of_nat
      [OpEdit FKeyPartners "first"; OpTick startOfRun startOfRun startOfRun;
       OpEdit FKeyPartners "second";
       OpTick (startOfRun + 5 * Minute) (startOfRun + 5 * Minute)
              (startOfRun + 5 * Minute)]
      newWorld.

(** What happens while the history dialog is open. *)
Definition laterOps : list Op :=
  [OpEdit FChannels "retail"; OpSave (SaveTo None);
   OpTick (startOfRun + 10 * Minute) (startOfRun + 10 * Minute)
          (startOfRun + 10 * Minute); OpUndo].

(** The session of [main] with the autosave box unchecked. *)
Definition switchedOff : World :=
  step HexString.of_nat (OpSetAutoSave false) newWorld.

(** The operations that take no checkpoint and make no move along the
    history: edits, the settings, validation, export, the ticks of the
    timer, and a save or a load whose dialog is cancelled or fails. *)
Definition offTheRecord (op : Op) : bool :=
  match op with
  | OpUndo | OpRedo | OpRestore _ => false
  | OpSave (SaveTo _) => false
  | OpLoad (OpenFrom _) => false
  | _ => true
  end.

(** Some typing, with a tick of the timer and a validation in between. *)
Definition typing : list Op :=
  [OpEdit FKeyPartners "suppliers"; OpEdit FChannels "retail";
   OpTick startOfRun startOfRun startOfRun; OpValidate;
   OpEdit FKeyPartners ""].

(** The text of the focused entry, if an entry has the focus. *)
Definition focusedText (d : Desk) : option string :=
  match focused d with
  | FocusSection f => Some (Text (entry f (session d)))
  | FocusForeign e => Some (Text e)
  | FocusNone => None
  end.

(** Where the pointer last entered, if it has not left since. *)
Definition pointerInside {Position : Type} (events : list (MouseEvent Position))
  : option Position :=
  fold_left (fun inside ev =>
               match ev with
               | Enters e => Some e
               | Leaves => None
               | Moves _ => inside
               end) events None.

(** Whether the pointer has entered at all. *)
Definition everEntered {Position : Type} (events : list (MouseEvent Position))
  : bool :=
  existsb (fun ev => match ev with Enters _ => true | _ => false end) events.

(** The sample session with the first entry in focus. *)
Definition typingDesk : Desk :=
  mkDesk sampleCanvas (FocusSection FKeyPartners) "old clip" [].

(** The titles a document prints and the texts it lays out, in drawing
    order. *)
Fixpoint titles (ops : list PdfOp) : list string :=
  match ops with
  | [] => []
  | PdfText _ _ txt :: ops' => txt :: titles ops'
  | _ :: ops' => titles ops'
  end.

Fixpoint bodies (ops : list PdfOp) : list string :=
  match ops with
  | [] => []
  | MultiCell _ _ txt :: ops' => txt :: bodies ops'
  | _ :: ops' => bodies ops'
  end.

(** A point or a column of text with exact coordinates. *)
Record QPoint := mkQPoint { ptX : Q; ptY : Q }.
Record QColumn := mkQColumn { colX : Q; colY : Q; colW : Q }.

(** Where a document prints its titles. *)
Fixpoint titlePoints (ops : list PdfOp) : list QPoint :=
  match ops with
  | [] => []
  | PdfText x y _ :: ops' =>
    match exactValue x, exactValue y with
    | Some a, Some b => mkQPoint a b :: titlePoints ops'
    | _, _ => titlePoints ops'
    end
  | _ :: ops' => titlePoints ops'
  end.

(** The columns a document lays text out in: where [SetXY] puts the
    cursor and how wide the [MultiCell] that follows is. *)
Fixpoint textColumns (ops : list PdfOp) : list QColumn :=
  match ops with
  | [] => []
  | SetXY x y :: ops' =>
    match ops' with
    | MultiCell w _ _ :: _ =>
      match exactValue x, exactValue y, exactValue w with
      | Some a, Some b, Some d => mkQColumn a b d :: textColumns ops'
      | _, _, _ => textColumns ops'
      end
    | _ => textColumns ops'
    end
  | _ :: ops' => textColumns ops'
  end.

Local Open Scope Q_scope.

(** The title sits 5 to the right of and 10 below the corner of its
    rectangle, up to the rounding of the coordinates, and inside it. *)
Definition titleInCell (p : QPoint) (r : QRect) : Prop :=
  ptX p == qx r + 5
  /\ Qabs (ptY p - (qy r + 10)) <= 1 # (2 ^ 44)
  /\ covers r (ptX p) (ptY p).

(** The column starts 5 to the right of and 15 below the corner of its
    rectangle, up to rounding, and ends 5 short of its right edge. *)
Definition columnInCell (k : QColumn) (r : QRect) : Prop :=
  colX k == qx r + 5
  /\ colW k == qw r - 10
  /\ Qabs (colY k - (qy r + 15)) <= 1 # (2 ^ 44)
  /\ covers r (colX k) (colY k)
  /\ colX k + colW k < qx r + qw r.

(** The title points and the text columns of the export, which do not
    depend on the texts. *)
Definition exportTitlePoints : list QPoint :=
  Eval vm_compute in titlePoints (exportDocument newCanvas).

Definition exportTextColumns : list QColumn :=
  Eval vm_compute in textColumns (exportDocument newCanvas).

(** Checks a title or a column against its rectangle, pair by pair. *)
Ltac cellwise :=
  repeat (apply Forall2_cons;
          [ unfold titleInCell, columnInCell, covers;
            cbn [ptX ptY colX colY colW qx qy qw qh];
            repeat split;
            first [ apply Qabs_Qle_condition; split; vm_compute; discriminate
                  | vm_compute; reflexivity
                  | vm_compute; discriminate ]
          | ]);
  apply Forall2_nil.

Local Close Scope Q_scope.

(** A string with each byte that starts no well-formed UTF-8 sequence
    replaced by the encoding of U+FFFD. *)
Fixpoint replaceInvalidLoop (fuel : nat) (s : string) : string :=
  match fuel, s with
  | _, EmptyString => EmptyString
  | O, String _ _ => EmptyString
  | S fuel', String _ _ =>
    let (r, size) := utf8.DecodeRuneInString s in
    if (r =? utf8.RuneError) && (size =? 1)%nat
    then (utf8.EncodeRune utf8.RuneError
          ++ replaceInvalidLoop fuel' (skip size s))%string
    else (take size s ++ replaceInvalidLoop fuel' (skip size s))%string
  end.

Definition replaceInvalid (s : string) : string :=
  replaceInvalidLoop (String.length s) s.

(** A session whose entries hold stray bytes. *)
Definition strayCanvas : Canvas :=
  SetText FChannels (String (byteOf 0xC3) "")
    (SetText FKeyPartners ("caf" ++ String (byteOf 0xE9) " au lait") newCanvas).

(** The members as the decoder reads them back. *)
Definition readBack (ms : list (string * string))
  : list (string * json.Value) :=
  map (fun kv => (replaceInvalid (fst kv), json.Str (replaceInvalid (snd kv))))
      ms.

(** The record with the stray bytes of each field replaced. *)
Definition replaceInvalidFields (d : CanvasData) : CanvasData :=
  {| KeyPartners := replaceInvalid (KeyPartners d);
     KeyActivities := replaceInvalid (KeyActivities d);
     KeyResources := replaceInvalid (KeyResources d);
     ValueProposition := replaceInvalid (ValueProposition d);
     CustomerRel := replaceInvalid (CustomerRel d);
     Channels := replaceInvalid (Channels d);
     CustomerSegments := replaceInvalid (CustomerSegments d);
     CostStructure := replaceInvalid (CostStructure d);
     RevenueStreams := replaceInvalid (RevenueStreams d) |}.

(** * Properties *)

(** ** The session record *)

Lemma getCurrentData_installData (d : CanvasData) (c : Canvas) :
  getCurrentData (installData d c) = d.
Proof. destruct c, d; reflexivity. Qed.

Lemma installData_frame (d : CanvasData) (c : Canvas) :
  undoStack (installData d c) = undoStack c
  /\ redoStack (installData d c) = redoStack c
  /\ versions (installData d c) = versions c
  /\ autoSave (installData d c) = autoSave c
  /\ lastSaved (installData d c) = lastSaved c.
Proof. destruct c; repeat split; reflexivity. Qed.

Lemma installData_getCurrentData (c : Canvas) :
  installData (getCurrentData c) c = c.
Proof.
  destruct c as [[?] [?] [?] [?] [?] [?] [?] [?] [?] ? ? ? ? ?]; reflexivity.
Qed.

Lemma SetText_frame (f : field) (s : string) (c : Canvas) :
  undoStack (SetText f s c) = undoStack c
  /\ redoStack (SetText f s c) = redoStack c
  /\ versions (SetText f s c) = versions c
  /\ autoSave (SetText f s c) = autoSave c
  /\ lastSaved (SetText f s c) = lastSaved c.
Proof. destruct c, f; repeat split; reflexivity. Qed.

(** The checkpoint that [restoreVersion], [saveCanvas] and [loadCanvas]
    start with. *)
Lemma checkpoint_frame (c : Canvas) :
  let c' := setUndoStack (undoStack c ++ [getCurrentData c]) c in
  undoStack c' = undoStack c ++ [getCurrentData c]
  /\ redoStack c' = redoStack c
  /\ getCurrentData c' = getCurrentData c
  /\ (forall f, entry f c' = entry f c)
  /\ versions c' = versions c
  /\ autoSave c' = autoSave c
  /\ lastSaved c' = lastSaved c.
Proof.
  destruct c; simpl; repeat split; reflexivity.
Qed.

(** ** C1: the validator *)

Lemma validateLoop_filter (rs : list ValidationRule) (c : Canvas)
      (acc : list ValidationResult) :
  validateLoop rs c acc
  = acc ++ map resultOf (filter (fun r => negb (Check r c)) rs).
Proof.
  revert acc; induction rs as [|rule rs IH]; intros acc; simpl.
  - now rewrite app_nil_r.
  - rewrite IH. destruct (negb (Check rule c)); simpl.
    + now rewrite <- app_assoc.
    + reflexivity.
Qed.

(** For every validator, [Validate] returns the results of the failing
    rules, one each, in the order of the rule list. *)
Lemma Validate_filter (v : BusinessValidator) (c : Canvas) :
  Validate v c = map resultOf (filter (fun r => negb (Check r c)) (rules v)).
Proof. unfold Validate. now rewrite validateLoop_filter. Qed.

Lemma countLoop_ascii (s : string) (fuel : nat) :
  isASCII s = true -> (String.length s <= fuel)%nat ->
  utf8.countLoop fuel s = String.length s.
Proof.
  revert s; induction fuel as [|fuel IH]; intros s Ha Hlen.
  - destruct s; [reflexivity|simpl in Hlen; lia].
  - destruct s as [|c s']; [reflexivity|].
    cbn [isASCII] in Ha. apply andb_prop in Ha. destruct Ha as (Hc & Ha).
    cbn [utf8.countLoop String.length]. f_equal.
    unfold utf8.DecodeRuneInString, utf8.first.
    unfold utf8.RuneSelf in Hc. rewrite Hc. cbn [snd skip].
    apply IH; [exact Ha|]. simpl in Hlen. lia.
Qed.

(** For ASCII text the number of characters is the number of bytes. *)
Lemma RuneCount_ascii (s : string) :
  isASCII s = true -> Z.of_nat (utf8.RuneCountInString s) = len s.
Proof.
  intros H. unfold utf8.RuneCountInString, len.
  now rewrite countLoop_ascii by (auto; lia).
Qed.

(** The scenario of the specification: four results, none for the value
    proposition. *)
Example Validate_scenario :
  map Section (Validate NewBusinessValidator scenarioCanvas)
  = ["Customer Segments"; "Key Activities"; "Cost Structure";
     "Revenue Streams"].
Proof. vm_compute. reflexivity. Qed.

(** C1, as stated, fails: a value proposition of 50 characters that take
    100 bytes passes the rule, although 50 < 100. *)
Lemma Validate_character_count_counterexample :
  utf8.ValidString (Text (valueProposition accentedCanvas)) = true
  /\ utf8.RuneCountInString (Text (valueProposition accentedCanvas)) = 50%nat
  /\ len (Text (valueProposition accentedCanvas)) = 100
  /\ ~ In "Value Proposition"
         (map Section (Validate NewBusinessValidator accentedCanvas))
  /\ ~ failsByCharacterCount accentedCanvas.
Proof.
  assert (Hlen : utf8.RuneCountInString (Text (valueProposition accentedCanvas))
                 = 50%nat) by (vm_compute; reflexivity).
  assert (Hnot : ~ In "Value Proposition"
                   (map Section (Validate NewBusinessValidator accentedCanvas))).
  { vm_compute. intros [H|[H|[H|[H|[]]]]]; discriminate H. }
  split; [vm_compute; reflexivity|].
  split; [exact Hlen|].
  split; [vm_compute; reflexivity|].
  split; [exact Hnot|].
  intros [_ H]. apply Hnot, H. rewrite Hlen. repeat constructor.
Qed.

(** C1 (amended): [Validate] returns exactly one result per failing rule,
    in rule-declaration order (Value Proposition, Customer Segments, Key
    Activities, Cost Structure, Revenue Streams); the Value Proposition rule
    fails iff the byte length of its text is below 100 and each of the other
    four iff the byte length of its section's text is below 50 (for text
    of ASCII characters only, the byte length is the character count); a
    section without a rule never appears in the result, and the result is
    empty exactly when all five thresholds are met. *)
Theorem Validate_byte_thresholds (c : Canvas) :
  Validate NewBusinessValidator c
  = map resultOf
        (filter (fun r => negb (Check r c)) (rules NewBusinessValidator))
  /\ map (fun r => (ruleSection r, negb (Check r c)))
         (rules NewBusinessValidator)
     = [ ("Value Proposition", len (Text (valueProposition c)) <? 100);
         ("Customer Segments", len (Text (customerSegments c)) <? 50);
         ("Key Activities", len (Text (keyActivities c)) <? 50);
         ("Cost Structure", len (Text (costStructure c)) <? 50);
         ("Revenue Streams", len (Text (revenueStreams c)) <? 50) ]
  /\ (forall s, isASCII s = true ->
                Z.of_nat (utf8.RuneCountInString s) = len s)
  /\ (forall r, In r (Validate NewBusinessValidator c) ->
                In (Section r) ruledSections)
  /\ (Validate NewBusinessValidator c = [] <->
      100 <= len (Text (valueProposition c))
      /\ 50 <= len (Text (customerSegments c))
      /\ 50 <= len (Text (keyActivities c))
      /\ 50 <= len (Text (costStructure c))
      /\ 50 <= len (Text (revenueStreams c))).
Proof.
  split; [apply Validate_filter|].
  split.
  { simpl. now rewrite !Z.leb_antisym, !negb_involutive. }
  split; [exact RuneCount_ascii|].
  split.
  - intros r. rewrite Validate_filter, in_map_iff.
    intros (rule & <- & Hin). apply filter_In in Hin. destruct Hin as [Hin _].
    simpl in Hin. unfold ruledSections.
    repeat (destruct Hin as [<-|Hin]; [simpl; tauto|]). destruct Hin.
  - rewrite Validate_filter. simpl.
    destruct (Z.leb_spec 100 (len (Text (valueProposition c))));
      destruct (Z.leb_spec 50 (len (Text (customerSegments c))));
      destruct (Z.leb_spec 50 (len (Text (keyActivities c))));
      destruct (Z.leb_spec 50 (len (Text (costStructure c))));
      destruct (Z.leb_spec 50 (len (Text (revenueStreams c))));
      simpl; split; intros Hres; try discriminate Hres; try reflexivity;
      try (repeat split; assumption); try lia.
Qed.

(** ** C2 and C3: undo and redo *)

Lemma last_index {A : Type} (u : list A) (top : A) :
  (0 <? List.length (u ++ [top]))%nat = true
  /\ nth_error (u ++ [top]) (List.length (u ++ [top]) - 1) = Some top
  /\ firstn (List.length (u ++ [top]) - 1) (u ++ [top]) = u.
Proof.
  rewrite length_app; simpl.
  replace (List.length u + 1 - 1)%nat with (List.length u) by lia.
  split; [apply Nat.ltb_lt; lia|]. split.
  - rewrite nth_error_app2 by lia. now rewrite Nat.sub_diag.
  - rewrite firstn_app, Nat.sub_diag, firstn_all. simpl. apply app_nil_r.
Qed.

(** [undo] on a stack whose top is [top]. *)
Lemma undo_pop (c : Canvas) (u : list CanvasData) (top : CanvasData) :
  undoStack c = u ++ [top] ->
  undo c
  = installData top
      (setUndoStack u (setRedoStack (redoStack c ++ [getCurrentData c]) c)).
Proof.
  intros H. unfold undo. destruct c as [kp ka kr vp cr ch cs co rs a l us r v].
  simpl in H. subst us. cbn [undoStack redoStack setRedoStack].
  destruct (last_index u top) as (-> & -> & ->). reflexivity.
Qed.

Lemma redo_pop (c : Canvas) (r : list CanvasData) (top : CanvasData) :
  redoStack c = r ++ [top] ->
  redo c
  = installData top
      (setRedoStack r (setUndoStack (undoStack c ++ [getCurrentData c]) c)).
Proof.
  intros H. unfold redo. destruct c as [kp ka kr vp cr ch cs co rs a l u rs' v].
  simpl in H. subst rs'. cbn [undoStack redoStack setUndoStack].
  destruct (last_index r top) as (-> & -> & ->). reflexivity.
Qed.

Lemma undo_empty (c : Canvas) : undoStack c = [] -> undo c = c.
Proof. intros H. unfold undo. now rewrite H. Qed.

Lemma redo_empty (c : Canvas) : redoStack c = [] -> redo c = c.
Proof. intros H. unfold redo. now rewrite H. Qed.

Lemma undo_top (c : Canvas) (u : list CanvasData) (top : CanvasData) :
  undoStack c = u ++ [top] ->
  undoStack (undo c) = u
  /\ redoStack (undo c) = redoStack c ++ [getCurrentData c]
  /\ getCurrentData (undo c) = top
  /\ versions (undo c) = versions c
  /\ autoSave (undo c) = autoSave c
  /\ lastSaved (undo c) = lastSaved c.
Proof.
  intros H. rewrite (undo_pop c u top H), getCurrentData_installData.
  destruct c; simpl; repeat split; reflexivity.
Qed.

Lemma redo_top (c : Canvas) (r : list CanvasData) (top : CanvasData) :
  redoStack c = r ++ [top] ->
  redoStack (redo c) = r
  /\ undoStack (redo c) = undoStack c ++ [getCurrentData c]
  /\ getCurrentData (redo c) = top
  /\ versions (redo c) = versions c
  /\ autoSave (redo c) = autoSave c
  /\ lastSaved (redo c) = lastSaved c.
Proof.
  intros H. rewrite (redo_pop c r top H), getCurrentData_installData.
  destruct c; simpl; repeat split; reflexivity.
Qed.

(** An undo followed at once by a redo. *)
Lemma undo_then_redo (c : Canvas) (u : list CanvasData) (top : CanvasData) :
  undoStack c = u ++ [top] ->
  getCurrentData (undo c) = top
  /\ getCurrentData (redo (undo c)) = getCurrentData c
  /\ undoStack (redo (undo c)) = undoStack c
  /\ redoStack (redo (undo c)) = redoStack c.
Proof.
  intros Hu. destruct (undo_top c u top Hu) as (Hu1 & Hr1 & Hd1 & _).
  destruct (redo_top (undo c) _ _ Hr1) as (Hr2 & Hu2 & Hd2 & _).
  split; [exact Hd1|]. split; [exact Hd2|]. split; [|exact Hr2].
  now rewrite Hu2, Hu1, Hd1.
Qed.

(** C2: [undo] on an empty undo stack changes nothing (the function
    returns no value); on a stack with top [top] it pushes the live record
    onto the redo stack, removes exactly [top] from the undo stack and
    installs [top] as the live record, and touches nothing else. [redo] does
    the same with the two stacks exchanged. *)
Theorem undo_redo_contract (c : Canvas) :
  (undoStack c = [] -> undo c = c)
  /\ (forall u top, undoStack c = u ++ [top] ->
        undoStack (undo c) = u
        /\ redoStack (undo c) = redoStack c ++ [getCurrentData c]
        /\ getCurrentData (undo c) = top
        /\ versions (undo c) = versions c
        /\ autoSave (undo c) = autoSave c
        /\ lastSaved (undo c) = lastSaved c)
  /\ (redoStack c = [] -> redo c = c)
  /\ (forall r top, redoStack c = r ++ [top] ->
        redoStack (redo c) = r
        /\ undoStack (redo c) = undoStack c ++ [getCurrentData c]
        /\ getCurrentData (redo c) = top
        /\ versions (redo c) = versions c
        /\ autoSave (redo c) = autoSave c
        /\ lastSaved (redo c) = lastSaved c).
Proof.
  split; [|split; [|split]].
  - apply undo_empty.
  - intros u top H. now apply undo_top.
  - apply redo_empty.
  - intros r top H. now apply redo_top.
Qed.

Lemma undo_redo_contract_witness :
  (undoStack (undo sampleCanvas) = []
   /\ redoStack (undo sampleCanvas) = [sampleData "newer"; sampleData "live"]
   /\ getCurrentData (undo sampleCanvas) = sampleData "older")
  /\ undo newCanvas = newCanvas.
Proof.
  split.
  - destruct (undo_redo_contract sampleCanvas) as (_ & H & _).
    destruct (H [] (sampleData "older") eq_refl) as (H1 & H2 & H3 & _).
    exact (conj H1 (conj H2 H3)).
  - destruct (undo_redo_contract newCanvas) as (H & _). exact (H eq_refl).
Defined.

(** C3: with live record [A], push [A] onto the undo stack and change the
    live record to [B] in any way that leaves the stacks alone; then [undo]
    makes [A] the live record, and [redo] right after it makes [B] the live
    record again and puts both stacks back. *)
Theorem undo_redo_roundtrip (c0 c : Canvas) (A B : CanvasData) :
  getCurrentData c0 = A ->
  undoStack c = undoStack c0 ++ [getCurrentData c0] ->
  redoStack c = redoStack c0 ->
  getCurrentData c = B ->
  getCurrentData (undo c) = A
  /\ getCurrentData (redo (undo c)) = B
  /\ undoStack (redo (undo c)) = undoStack c
  /\ redoStack (redo (undo c)) = redoStack c.
Proof.
  intros HA Hu Hr HB. rewrite HA in Hu.
  destruct (undo_then_redo c _ _ Hu) as (H1 & H2 & H3 & H4).
  split; [exact H1|]. split; [now rewrite H2|]. split; assumption.
Qed.

(** The round trip through the code that checkpoints and overwrites in
    one go, [restoreVersion]. *)
Lemma restoreVersion_undo_redo (c : Canvas) (v : Version) :
  let c' := fst (restoreVersion v c) in
  getCurrentData c' = Data v
  /\ getCurrentData (undo c') = getCurrentData c
  /\ getCurrentData (redo (undo c')) = Data v.
Proof.
  intros c'.
  assert (Hd : getCurrentData c' = Data v)
    by (unfold c', restoreVersion; simpl; apply getCurrentData_installData).
  assert (Hu : undoStack c' = undoStack c ++ [getCurrentData c]).
  { unfold c', restoreVersion; simpl.
    destruct (installData_frame (Data v)
                (setUndoStack (undoStack c ++ [getCurrentData c]) c)) as (-> & _).
    now destruct c. }
  destruct (undo_then_redo c' _ _ Hu) as (H1 & H2 & _).
  split; [exact Hd|]. split; [exact H1|]. now rewrite H2.
Qed.

Lemma undo_redo_roundtrip_witness :
  let A := sampleData "first draft" in
  let B := sampleData "second draft" in
  let c0 := installData A newCanvas in
  let c := installData B (setUndoStack (undoStack c0 ++ [getCurrentData c0]) c0) in
  getCurrentData (undo c) = A
  /\ getCurrentData (redo (undo c)) = B
  /\ undoStack (redo (undo c)) = undoStack c
  /\ redoStack (redo (undo c)) = redoStack c.
Proof.
  intros A B c0 c.
  apply (undo_redo_roundtrip c0 c A B); reflexivity.
Defined.

(** ** C5 and C10: save and load *)

Lemma loadCanvas_failed (c : Canvas) (r : ReadResult) (e : error) :
  loadError r = Some e ->
  loadCanvas (OpenFrom r) c
  = (setUndoStack (undoStack c ++ [getCurrentData c]) c, [ShowError e]).
Proof.
  intros H. unfold loadCanvas. destruct r as [data|e']; simpl in H.
  - destruct (json.Unmarshal data zeroCanvasData) as [d err]. simpl in H.
    now subst err.
  - now inversion H.
Qed.

(** C5: a load whose file dialog, read or parse fails shows that error
    and nothing else, installs nothing, and leaves each of the nine entries,
    hence the live record, as it was. *)
Theorem loadCanvas_failure_keeps_record (c : Canvas) :
  (forall e, loadCanvas (OpenDialogError e) c = (c, [ShowError e]))
  /\ (forall r e, loadError r = Some e ->
        snd (loadCanvas (OpenFrom r) c) = [ShowError e]
        /\ (forall f, entry f (fst (loadCanvas (OpenFrom r) c)) = entry f c)
        /\ getCurrentData (fst (loadCanvas (OpenFrom r) c)) = getCurrentData c).
Proof.
  split; [reflexivity|].
  intros r e H. rewrite (loadCanvas_failed c r e H). simpl.
  destruct (checkpoint_frame c) as (_ & _ & Hd & He & _).
  repeat split; assumption.
Qed.

Lemma loadCanvas_failure_keeps_record_witness :
  (snd (loadCanvas (OpenFrom (ReadOK truncatedDocument)) sampleCanvas)
   = [ShowError SyntaxError]
   /\ getCurrentData
        (fst (loadCanvas (OpenFrom (ReadOK truncatedDocument)) sampleCanvas))
      = getCurrentData sampleCanvas)
  /\ snd (loadCanvas (OpenFrom (ReadOK mistypedDocument)) sampleCanvas)
     = [ShowError (UnmarshalTypeError "number" "channels")]
  /\ snd (loadCanvas (OpenFrom (ReadFailed (IOError "read"))) sampleCanvas)
     = [ShowError (IOError "read")].
Proof.
  destruct (loadCanvas_failure_keeps_record sampleCanvas) as (_ & H).
  split; [|split].
  - destruct (H (ReadOK truncatedDocument) SyntaxError) as (H1 & _ & H2).
    + vm_compute; reflexivity.
    + exact (conj H1 H2).
  - destruct (H (ReadOK mistypedDocument)
                (UnmarshalTypeError "number" "channels")) as (H1 & _).
    + vm_compute; reflexivity.
    + exact H1.
  - destruct (H (ReadFailed (IOError "read")) (IOError "read")) as (H1 & _).
    + reflexivity.
    + exact H1.
Defined.

(** The stacks and the live record after a save to a chosen file. *)
Lemma saveCanvas_chosen (c : Canvas) (w : option error) :
  undoStack (fst (saveCanvas (SaveTo w) c)) = undoStack c ++ [getCurrentData c]
  /\ redoStack (fst (saveCanvas (SaveTo w) c)) = redoStack c
  /\ getCurrentData (fst (saveCanvas (SaveTo w) c)) = getCurrentData c.
Proof.
  destruct (checkpoint_frame c) as (Hu & Hr & Hd & _).
  unfold saveCanvas. cbn [json.MarshalIndent]. destruct w; cbn [fst]; auto.
Qed.

(** The stacks after a load from a chosen file. *)
Lemma loadCanvas_chosen (c : Canvas) (r : ReadResult) :
  undoStack (fst (loadCanvas (OpenFrom r) c)) = undoStack c ++ [getCurrentData c]
  /\ redoStack (fst (loadCanvas (OpenFrom r) c)) = redoStack c.
Proof.
  destruct (checkpoint_frame c) as (Hu & Hr & _).
  unfold loadCanvas. destruct r as [data|e]; cbn [fst]; [|auto].
  destruct (json.Unmarshal data zeroCanvasData) as [d [e|]]; cbn [fst];
    [auto|].
  destruct (installData_frame d
              (setUndoStack (undoStack c ++ [getCurrentData c]) c))
    as (-> & -> & _).
  auto.
Qed.

(** C10: once a file is chosen, save and load push the live record onto
    the undo stack before any step that can fail, so whatever the outcome
    the undo stack grows by exactly that record and the redo stack stays;
    a save, and a load that fails, leave the live record as it was.
    Cancelling the dialog (as well as an error of the dialog itself) leaves
    the whole session as it was. *)
Theorem save_load_checkpoint_first (c : Canvas) :
  (forall w,
      undoStack (fst (saveCanvas (SaveTo w) c))
      = undoStack c ++ [getCurrentData c]
      /\ redoStack (fst (saveCanvas (SaveTo w) c)) = redoStack c
      /\ getCurrentData (fst (saveCanvas (SaveTo w) c)) = getCurrentData c)
  /\ (forall r,
         undoStack (fst (loadCanvas (OpenFrom r) c))
         = undoStack c ++ [getCurrentData c]
         /\ redoStack (fst (loadCanvas (OpenFrom r) c)) = redoStack c
         /\ (forall e, loadError r = Some e ->
               getCurrentData (fst (loadCanvas (OpenFrom r) c))
               = getCurrentData c))
  /\ fst (saveCanvas SaveCancelled c) = c
  /\ fst (loadCanvas OpenCancelled c) = c
  /\ (forall e, fst (saveCanvas (SaveDialogError e) c) = c)
  /\ (forall e, fst (loadCanvas (OpenDialogError e) c) = c).
Proof.
  split; [|split; [|repeat split]].
  - intros w. apply saveCanvas_chosen.
  - intros r. destruct (loadCanvas_chosen c r) as (Hu & Hr).
    split; [exact Hu|]. split; [exact Hr|].
    intros e He. rewrite (loadCanvas_failed c r e He).
    now destruct (checkpoint_frame c) as (_ & _ & Hd & _).
Qed.

Lemma save_load_checkpoint_first_witness :
  getCurrentData
    (fst (loadCanvas (OpenFrom (ReadOK truncatedDocument)) sampleCanvas))
  = getCurrentData sampleCanvas
  /\ undoStack
       (fst (loadCanvas (OpenFrom (ReadOK truncatedDocument)) sampleCanvas))
     = [sampleData "older"; sampleData "live"]
  /\ undoStack (fst (saveCanvas (SaveTo (Some (IOError "disk full"))) sampleCanvas))
     = [sampleData "older"; sampleData "live"].
Proof.
  destruct (save_load_checkpoint_first sampleCanvas) as (Hs & Hl & _).
  destruct (Hl (ReadOK truncatedDocument)) as (Hu & _ & Hd).
  destruct (Hs (Some (IOError "disk full"))) as (Hu' & _).
  split; [|split].
  - apply (Hd SyntaxError). vm_compute; reflexivity.
  - exact Hu.
  - exact Hu'.
Defined.

(** ** C4: what changes the redo stack *)

(** C4, as stated, fails: neither a save nor a load clears the redo
    stack, whether it succeeds or not. *)
Lemma save_load_keep_redo_counterexample :
  redoStack (canvas undoneWorld) = [sampleData "draft"]
  /\ redoStack (canvas (step (fun _ => "") (OpSave (SaveTo None)) undoneWorld))
     = [sampleData "draft"]
  /\ redoStack
       (canvas (step (fun _ => "") (OpLoad (OpenFrom (ReadOK "{}"))) undoneWorld))
     = [sampleData "draft"]
  /\ ~ clearsRedoStack (OpSave (SaveTo None))
  /\ ~ clearsRedoStack (OpLoad (OpenFrom (ReadOK "{}"))).
Proof.
  split; [vm_compute; reflexivity|].
  split; [vm_compute; reflexivity|].
  split; [vm_compute; reflexivity|].
  split; intros H; specialize (H (fun _ => "") undoneWorld);
    vm_compute in H; discriminate H.
Qed.

(** Every operation but undo and redo leaves the redo stack as it is. *)
Lemma redoStack_unchanged (uuidNew : nat -> string) (op : Op) (w : World) :
  op <> OpUndo -> op <> OpRedo ->
  redoStack (canvas (step uuidNew op w)) = redoStack (canvas w).
Proof.
  intros Hu Hr. destruct w as [c n es].
  destruct op; unfold step; cbn [canvas uuidCalls effects]; try congruence.
  - apply (SetText_frame f s c).
  - destruct choice as [e| |wr]; try reflexivity.
    destruct (saveCanvas_chosen c wr) as (_ & H & _).
    destruct (saveCanvas (SaveTo wr) c); exact H.
  - destruct choice as [e| |r]; try reflexivity.
    destruct (loadCanvas_chosen c r) as (_ & H).
    destruct (loadCanvas (OpenFrom r) c); exact H.
  - destruct (nth_error (versions c) id) as [v|]; [|reflexivity].
    unfold restoreVersion. cbn [canvas].
    destruct (installData_frame (Data v)
                (setUndoStack (undoStack c ++ [getCurrentData c]) c))
      as (_ & -> & _).
    now destruct c.
  - now destruct c.
  - unfold autoSaveTick, saveCurrentVersion.
    destruct (autoSave c && (5 * Minute <=? Since now (lastSaved c)));
      now destruct c.
Qed.

(** C4 (amended): no operation but undo and redo changes the redo stack:
    edits, save, load, restore, the autosave tick, the settings, validation
    and export all leave it as it is. Undo leaves it or pushes the live
    record onto it, and redo leaves it or pops its top; nothing else ever
    shortens it. *)
Theorem redoStack_frame (uuidNew : nat -> string) (op : Op) (w : World) :
  (op <> OpUndo -> op <> OpRedo ->
   redoStack (canvas (step uuidNew op w)) = redoStack (canvas w))
  /\ (op = OpUndo ->
      redoStack (canvas (step uuidNew op w)) = redoStack (canvas w)
      \/ redoStack (canvas (step uuidNew op w))
         = redoStack (canvas w) ++ [getCurrentData (canvas w)])
  /\ (op = OpRedo ->
      redoStack (canvas (step uuidNew op w)) = redoStack (canvas w)
      \/ exists top,
           redoStack (canvas w)
           = redoStack (canvas (step uuidNew op w)) ++ [top]).
Proof.
  split; [apply redoStack_unchanged|]. split; intros ->; cbn [step canvas].
  - destruct (undoStack (canvas w)) as [|x l] eqn:E using rev_ind.
    + left. now rewrite undo_empty.
    + right. now destruct (undo_top (canvas w) l x E) as (_ & -> & _).
  - destruct (redoStack (canvas w)) as [|x l] eqn:E using rev_ind.
    + left. rewrite redo_empty; [now symmetry|exact E].
    + right. exists x. now destruct (redo_top (canvas w) l x E) as (-> & _).
Qed.

Lemma redoStack_frame_witness :
  redoStack (canvas (step (fun _ => "") (OpEdit FChannels "retail") undoneWorld))
  = redoStack (canvas undoneWorld).
Proof.
  destruct (redoStack_frame (fun _ => "") (OpEdit FChannels "retail")
                            undoneWorld) as (H & _).
  apply H; discriminate.
Defined.

(** ** C8: the version store *)

Lemma undo_versions (c : Canvas) : versions (undo c) = versions c.
Proof.
  destruct (undoStack c) as [|x l] eqn:E using rev_ind.
  - now rewrite undo_empty.
  - now destruct (undo_top c l x E) as (_ & _ & _ & -> & _).
Qed.

Lemma redo_versions (c : Canvas) : versions (redo c) = versions c.
Proof.
  destruct (redoStack c) as [|x l] eqn:E using rev_ind.
  - now rewrite redo_empty.
  - now destruct (redo_top c l x E) as (_ & _ & _ & -> & _).
Qed.

Lemma saveCanvas_versions (choice : SaveChoice) (c : Canvas) :
  versions (fst (saveCanvas choice c)) = versions c.
Proof.
  unfold saveCanvas. destruct choice as [e| |[e|]]; try reflexivity;
    cbn [fst json.MarshalIndent]; now destruct c.
Qed.

Lemma loadCanvas_versions (choice : OpenChoice) (c : Canvas) :
  versions (fst (loadCanvas choice c)) = versions c.
Proof.
  unfold loadCanvas. destruct choice as [e| |[data|e]]; try reflexivity.
  - destruct (json.Unmarshal data zeroCanvasData) as [d [e|]]; cbn [fst].
    + now destruct c.
    + destruct (installData_frame d
                  (setUndoStack (undoStack c ++ [getCurrentData c]) c))
        as (_ & _ & -> & _).
      now destruct c.
  - now destruct c.
Qed.

(** One operation appends [appended] to the version list and changes no
    entry of it; it draws one identifier per version it appends. *)
Lemma step_versions (uuidNew : nat -> string) (op : Op) (w : World) :
  versions (canvas (step uuidNew op w))
  = versions (canvas w) ++ appended uuidNew op w
  /\ uuidCalls (step uuidNew op w)
     = (uuidCalls w + List.length (appended uuidNew op w))%nat.
Proof.
  destruct w as [c n es].
  destruct op; unfold step, appended; cbn [canvas uuidCalls effects];
    rewrite ?app_nil_r, ?Nat.add_0_r.
  - split; [apply (SetText_frame f s c)|reflexivity].
  - split; [apply undo_versions|reflexivity].
  - split; [apply redo_versions|reflexivity].
  - pose proof (saveCanvas_versions choice c) as H.
    destruct (saveCanvas choice c); split; [exact H|reflexivity].
  - pose proof (loadCanvas_versions choice c) as H.
    destruct (loadCanvas choice c); split; [exact H|reflexivity].
  - destruct (nth_error (versions c) id) as [v|]; [|split; reflexivity].
    unfold restoreVersion. cbn [canvas uuidCalls].
    destruct (installData_frame (Data v)
                (setUndoStack (undoStack c ++ [getCurrentData c]) c))
      as (_ & _ & -> & _).
    split; [now destruct c|reflexivity].
  - split; [now destruct c|reflexivity].
  - split; reflexivity.
  - split; reflexivity.
  - unfold autoSaveDue, autoSaveTick.
    destruct (autoSave c && (5 * Minute <=? Since now (lastSaved c)));
      cbn [canvas uuidCalls List.length];
      rewrite ?app_nil_r, ?Nat.add_0_r, ?Nat.add_1_r;
      split; try reflexivity.
    unfold saveCurrentVersion. now destruct c.
Qed.

Lemma step_storeMatchesDraws (uuidNew : nat -> string) (op : Op) (w : World) :
  storeMatchesDraws uuidNew w -> storeMatchesDraws uuidNew (step uuidNew op w).
Proof.
  unfold storeMatchesDraws. intros H.
  destruct (step_versions uuidNew op w) as (-> & ->).
  rewrite map_app, H, seq_app, map_app. f_equal.
  destruct op; try reflexivity. unfold appended.
  destruct (autoSaveDue now (canvas w)); reflexivity.
Qed.

Lemma run_storeMatchesDraws (uuidNew : nat -> string) (ops : list Op)
      (w : World) :
  storeMatchesDraws uuidNew w -> storeMatchesDraws uuidNew (run uuidNew ops w).
Proof.
  revert w; induction ops as [|op ops IH]; intros w H; simpl; [exact H|].
  apply IH, step_storeMatchesDraws, H.
Qed.

Lemma run_versions_prefix (uuidNew : nat -> string) (ops : list Op)
      (w : World) :
  exists added,
    versions (canvas (run uuidNew ops w)) = versions (canvas w) ++ added.
Proof.
  revert w; induction ops as [|op ops IH]; intros w; simpl.
  - exists []. now rewrite app_nil_r.
  - destruct (IH (step uuidNew op w)) as (added & ->).
    destruct (step_versions uuidNew op w) as (-> & _).
    eexists. now rewrite <- app_assoc.
Qed.

(** *** The identifiers *)

(** A byte comes back from its two hexadecimal digits. *)
Lemma hexDecode_byte (c : ascii) :
  byteOf (json.hexValue (json.hexDigit (Z.shiftr (byteZ c) 4)) * 16
          + json.hexValue (json.hexDigit (Z.land (byteZ c) 0x0f))) = c.
Proof. destruct c as [[] [] [] [] [] [] [] []]; vm_compute; reflexivity. Qed.

(** The text form of a UUID gives back its 16 bytes. *)
Lemma uuidBytes_UUIDString (u : string) :
  String.length u = 16%nat -> uuidBytes (uuid.UUIDString u) = u.
Proof.
  intros H.
  do 16 (destruct u as [|? u]; [discriminate H|]).
  destruct u; [|discriminate H]. clear H.
  unfold uuid.UUIDString.
  cbn [take skip uuid.hexEncode append].
  unfold uuidBytes. cbn [take skip append hexDecode].
  now rewrite !hexDecode_byte.
Qed.

Lemma drawn_length (rander : nat -> nat -> ascii) (call : nat) :
  String.length (drawn rander call) = 16%nat.
Proof. reflexivity. Qed.

(** Two calls return the same text exactly when they drew the same
    UUID. *)
Lemma New_eq_iff (rander : nat -> nat -> ascii) (i j : nat) :
  uuid.New rander i = uuid.New rander j <-> drawn rander i = drawn rander j.
Proof.
  unfold uuid.New. fold (drawn rander i) (drawn rander j). split.
  - intros H. apply (f_equal uuidBytes) in H.
    now rewrite !uuidBytes_UUIDString in H by apply drawn_length.
  - now intros ->.
Qed.

Lemma byteZ_byteOf (n : Z) : byteZ (byteOf n) = n mod 256.
Proof.
  unfold byteZ, byteOf.
  rewrite N_ascii_embedding.
  - rewrite Z2N.id by (apply Z.mod_pos_bound; lia). reflexivity.
  - pose proof (Z.mod_pos_bound n 256 ltac:(lia)). lia.
Qed.

Lemma counterDraws_injective (i j : nat) :
  Z.of_nat i < 65536 -> Z.of_nat j < 65536 ->
  uuid.New counterDraws i = uuid.New counterDraws j -> i = j.
Proof.
  intros Hi Hj H. apply New_eq_iff in H.
  unfold drawn, uuid.NewRandomFromReader, uuid.readFull, counterDraws in H.
  cbn [seq map string_of_list_ascii uuid.setByte Nat.eqb] in H.
  injection H as H0 H1.
  apply (f_equal byteZ) in H0, H1. rewrite !byteZ_byteOf in H0, H1.
  assert (Hd : forall n, Z.of_nat n < 65536 ->
                 Z.of_nat n = 256 * ((Z.of_nat n / 256) mod 256)
                              + Z.of_nat n mod 256).
  { intros n Hn. rewrite (Z.mod_small (Z.of_nat n / 256)).
    - apply Z.div_mod. lia.
    - split; [apply Z.div_pos; lia|apply Z.div_lt_upper_bound; lia]. }
  apply Nat2Z.inj. rewrite (Hd i Hi), (Hd j Hj), H0, H1. reflexivity.
Qed.

(** The values a function takes on the first [n] numbers are pairwise
    distinct exactly when it is injective below [n]. *)
Lemma NoDup_map_seq {A : Type} (f : nat -> A) (n : nat) :
  NoDup (map f (seq 0 n))
  <-> (forall i j, (i < n)%nat -> (j < n)%nat -> f i = f j -> i = j).
Proof.
  rewrite (NoDup_nth (map f (seq 0 n)) (f 0%nat)), length_map, length_seq.
  assert (Hnth : forall i, (i < n)%nat ->
                   nth i (map f (seq 0 n)) (f 0%nat) = f i).
  { intros i Hi. rewrite map_nth, seq_nth by exact Hi. reflexivity. }
  split; intros H i j Hi Hj E; apply H; try assumption.
  - now rewrite !Hnth.
  - now rewrite !Hnth in E.
Qed.

Lemma length_versions_newWorld (uuidNew : nat -> string) (ops : list Op) :
  List.length (versions (canvas (run uuidNew ops newWorld)))
  = uuidCalls (run uuidNew ops newWorld).
Proof.
  assert (H : storeMatchesDraws uuidNew (run uuidNew ops newWorld))
    by (apply run_storeMatchesDraws; reflexivity).
  unfold storeMatchesDraws in H.
  rewrite <- (length_map ID), H, length_map. apply length_seq.
Qed.

(** C8, as stated, fails: the code takes the identifier from
    [uuid.New()] and never checks it against the store. When the random
    source delivers two draws that differ only in a bit the version is
    written over, two snapshots carry the same identifier. *)
Lemma identifiers_collide_counterexample :
  let ids :=
    map ID (versions (canvas (run (uuid.New nearMissDraws)
                                  (regularTicks (5 * Minute) 2) newWorld))) in
  uuid.readFull (nearMissDraws 0) 16 <> uuid.readFull (nearMissDraws 1) 16
  /\ ids = ["00000000-0000-4000-8000-000000000000";
            "00000000-0000-4000-8000-000000000000"]
  /\ ~ NoDup ids
  /\ ~ identifiersAlwaysDistinct.
Proof.
  intros ids.
  assert (Hids : ids = ["00000000-0000-4000-8000-000000000000";
                        "00000000-0000-4000-8000-000000000000"])
    by (vm_compute; reflexivity).
  assert (Hdup : ~ NoDup ids).
  { rewrite Hids. intros H. inversion H as [|x l Hin _]. apply Hin. now left. }
  split; [vm_compute; intros H; discriminate H|].
  split; [exact Hids|]. split; [exact Hdup|].
  intros H. apply Hdup, H.
Qed.

(** C8 (amended): a snapshot appends exactly one version, which carries
    the identifier [uuid.New()] returns for it, the reading of the clock and
    the texts of the nine entries as its record; a firing of the ticker that
    is due does so with the next identifier drawn. Whatever the session does,
    one operation after the other, the version list only grows at its end,
    its entries staying as they are. In every session started by [main] the
    identifiers in the store are the values the generator returned, in
    order and one per snapshot, so they are pairwise distinct exactly when
    those values are; and two values of [uuid.New()] are the same exactly
    when the two draws of 16 random bytes agree once version and variant
    are written over them, that is, on the 122 bits a version-4 UUID keeps. *)
Theorem version_store_append_only (uuidNew : nat -> string) :
  (forall id stamp saved c,
      versions (saveCurrentVersion id stamp saved c)
      = versions c
          ++ [ {| ID := id; Timestamp := stamp;
                  Data :=
                    {| KeyPartners := Text (keyPartners c);
                       KeyActivities := Text (keyActivities c);
                       KeyResources := Text (keyResources c);
                       ValueProposition := Text (valueProposition c);
                       CustomerRel := Text (customerRel c);
                       Channels := Text (channels c);
                       CustomerSegments := Text (customerSegments c);
                       CostStructure := Text (costStructure c);
                       RevenueStreams := Text (revenueStreams c) |};
                  Comments := [] |} ])
  /\ (forall now stamp saved w,
         autoSaveDue now (canvas w) = true ->
         versions (canvas (step uuidNew (OpTick now stamp saved) w))
         = versions (canvas w)
             ++ [ {| ID := uuidNew (uuidCalls w); Timestamp := stamp;
                     Data :=
                       {| KeyPartners := Text (keyPartners (canvas w));
                          KeyActivities := Text (keyActivities (canvas w));
                          KeyResources := Text (keyResources (canvas w));
                          ValueProposition := Text (valueProposition (canvas w));
                          CustomerRel := Text (customerRel (canvas w));
                          Channels := Text (channels (canvas w));
                          CustomerSegments := Text (customerSegments (canvas w));
                          CostStructure := Text (costStructure (canvas w));
                          RevenueStreams := Text (revenueStreams (canvas w)) |};
                     Comments := [] |} ]
         /\ uuidCalls (step uuidNew (OpTick now stamp saved) w)
            = S (uuidCalls w))
  /\ (forall ops w, exists added,
         versions (canvas (run uuidNew ops w)) = versions (canvas w) ++ added)
  /\ (forall ops,
         let store := versions (canvas (run uuidNew ops newWorld)) in
         map ID store = map uuidNew (seq 0 (List.length store))
         /\ List.length store = uuidCalls (run uuidNew ops newWorld)
         /\ (NoDup (map ID store)
             <-> (forall i j,
                     (i < List.length store)%nat ->
                     (j < List.length store)%nat ->
                     uuidNew i = uuidNew j -> i = j)))
  /\ (forall rander i j,
         uuid.New rander i = uuid.New rander j
         <-> uuid.NewRandomFromReader (uuid.readFull (rander i) 16)
             = uuid.NewRandomFromReader (uuid.readFull (rander j) 16)).
Proof.
  split; [|split; [|split; [|split]]].
  - intros id stamp saved c. unfold saveCurrentVersion. now destruct c.
  - intros now stamp saved w Hdue.
    destruct (step_versions uuidNew (OpTick now stamp saved) w) as (-> & ->).
    unfold appended. rewrite Hdue. split; [reflexivity|].
    cbn [List.length]. lia.
  - apply run_versions_prefix.
  - intros ops store.
    assert (H : storeMatchesDraws uuidNew (run uuidNew ops newWorld))
      by (apply run_storeMatchesDraws; reflexivity).
    pose proof (length_versions_newWorld uuidNew ops) as Hlen.
    unfold storeMatchesDraws in H. fold store in H, Hlen.
    rewrite <- Hlen in H. split; [exact H|]. split; [exact Hlen|].
    rewrite H. apply NoDup_map_seq.
  - intros rander i j. apply New_eq_iff.
Qed.

(** Ten thousand snapshots in a row, the random source delivering a
    different draw to each: ten thousand distinct identifiers. *)
Lemma version_store_append_only_witness :
  let store :=
    versions (canvas (run (uuid.New counterDraws)
                          (regularTicks (5 * Minute) 10000) newWorld)) in
  NoDup (map ID store) /\ List.length store = 10000%nat.
Proof.
  intros store.
  destruct (version_store_append_only (uuid.New counterDraws))
    as (_ & _ & _ & H & _).
  destruct (H (regularTicks (5 * Minute) 10000)) as (_ & Hcalls & Hiff).
  fold store in Hcalls, Hiff.
  assert (Hlen : List.length store = 10000%nat)
    by (rewrite Hcalls; vm_compute; reflexivity).
  split; [|exact Hlen].
  apply Hiff. rewrite Hlen. intros i j Hi Hj.
  apply Nat2Z.inj_lt in Hi, Hj.
  change (Z.of_nat 10000) with 10000 in Hi, Hj.
  apply counterDraws_injective; lia.
Defined.

(** ** C9: the autosave tick *)

(** The saturation of [Time.Sub] does not show in the comparison with the
    interval. *)
Lemma Since_interval (now t : Time) :
  (5 * Minute <=? Since now t) = (5 * Minute <=? now - t).
Proof.
  unfold Since, Sub, minDuration, maxDuration, Minute, Second.
  destruct (Z.ltb_spec (now - t) (- 2 ^ 63));
    [|destruct (Z.ltb_spec (2 ^ 63 - 1) (now - t))];
    destruct (Z.leb_spec (5 * (60 * 1000000000)) (now - t));
    try reflexivity; try (apply Z.leb_le; lia); try (apply Z.leb_gt; lia);
    vm_compute; reflexivity.
Qed.

Lemma StronglySorted_snoc {A : Type} (R : A -> A -> Prop) (l : list A) (y : A) :
  StronglySorted R l -> Forall (fun x => R x y) l -> StronglySorted R (l ++ [y]).
Proof.
  induction 1 as [|a l Hs IH Ha]; intros Hy; simpl.
  - repeat constructor.
  - inversion Hy as [|? ? Hay Hly]; subst. constructor.
    + apply IH, Hly.
    + apply Forall_app. split; [exact Ha|]. now constructor.
Qed.

Lemma step_lastSaved (uuidNew : nat -> string) (op : Op) (w : World) :
  lastSaved (canvas (step uuidNew op w))
  = match op with
    | OpTick now stamp saved =>
      if autoSaveDue now (canvas w) then saved else lastSaved (canvas w)
    | _ => lastSaved (canvas w)
    end.
Proof.
  destruct w as [c n es].
  destruct op; unfold step; cbn [canvas uuidCalls effects].
  - apply (SetText_frame f s c).
  - destruct (undoStack c) as [|x l] eqn:E using rev_ind.
    + now rewrite undo_empty.
    + now destruct (undo_top c l x E) as (_ & _ & _ & _ & _ & ->).
  - destruct (redoStack c) as [|x l] eqn:E using rev_ind.
    + now rewrite redo_empty.
    + now destruct (redo_top c l x E) as (_ & _ & _ & _ & _ & ->).
  - unfold saveCanvas. destruct choice as [e| |[e|]]; cbn [canvas];
      try reflexivity; now destruct c.
  - unfold loadCanvas. destruct choice as [e| |[data|e]]; cbn [canvas];
      try reflexivity; [|now destruct c].
    destruct (json.Unmarshal data zeroCanvasData) as [d [e|]]; cbn [canvas].
    + now destruct c.
    + destruct (installData_frame d
                  (setUndoStack (undoStack c ++ [getCurrentData c]) c))
        as (_ & _ & _ & _ & ->).
      now destruct c.
  - destruct (nth_error (versions c) id) as [v|]; [|reflexivity].
    unfold restoreVersion. cbn [canvas].
    destruct (installData_frame (Data v)
                (setUndoStack (undoStack c ++ [getCurrentData c]) c))
      as (_ & _ & _ & _ & ->).
    now destruct c.
  - now destruct c.
  - reflexivity.
  - reflexivity.
  - unfold autoSaveDue, autoSaveTick.
    destruct (autoSave c && (5 * Minute <=? Since now (lastSaved c)));
      cbn [canvas]; [|reflexivity].
    unfold saveCurrentVersion. now destruct c.
Qed.

Lemma step_clockInvariant (uuidNew : nat -> string) (op : Op) (w : World)
      (t : Time) :
  clockInvariant t w ->
  monotoneFrom t (readings op) = true ->
  clockInvariant (last (readings op) t) (step uuidNew op w).
Proof.
  intros (Hl & Hv & Hs) Hm. unfold clockInvariant.
  rewrite step_lastSaved. destruct (step_versions uuidNew op w) as (-> & _).
  destruct op; cbn [readings last appended]; rewrite ?app_nil_r; auto.
  cbn [readings monotoneFrom] in Hm.
  apply andb_prop in Hm. destruct Hm as (H1 & Hm).
  apply andb_prop in Hm. destruct Hm as (H2 & Hm).
  apply andb_prop in Hm. destruct Hm as (H3 & _).
  apply Z.leb_le in H1, H2, H3.
  destruct (autoSaveDue now (canvas w)) eqn:Hdue.
  - unfold autoSaveDue in Hdue. apply andb_prop in Hdue.
    destruct Hdue as (_ & Hdue). rewrite Since_interval in Hdue.
    apply Z.leb_le in Hdue.
    split; [lia|]. split.
    + apply Forall_app. split.
      * eapply Forall_impl; [|exact Hv]. simpl. intros v Hle. lia.
      * repeat constructor. simpl. lia.
    + apply StronglySorted_snoc; [exact Hs|].
      eapply Forall_impl; [|exact Hv]. cbv beta. cbn [Timestamp].
      intros v Hle. lia.
  - rewrite app_nil_r. split; [lia|]. split; assumption.
Qed.

Lemma last_cons {A : Type} (a d : A) (l : list A) :
  last (a :: l) d = last l a.
Proof.
  revert a d; induction l as [|b l IH]; intros a d; [reflexivity|].
  change (last (a :: b :: l) d) with (last (b :: l) d). now rewrite !IH.
Qed.

Lemma monotoneFrom_app (t : Time) (l1 l2 : list Time) :
  monotoneFrom t (l1 ++ l2) = true ->
  monotoneFrom t l1 = true /\ monotoneFrom (last l1 t) l2 = true.
Proof.
  revert t; induction l1 as [|a l1 IH]; intros t H;
    cbn [app monotoneFrom] in *.
  - now split.
  - apply andb_prop in H. destruct H as (Ha & H).
    destruct (IH a H) as (H1 & H2). rewrite Ha, H1. split; [reflexivity|].
    now rewrite last_cons.
Qed.

Lemma run_clockInvariant (uuidNew : nat -> string) (ops : list Op) (w : World)
      (t : Time) :
  clockInvariant t w ->
  monotoneFrom t (flat_map readings ops) = true ->
  exists t', clockInvariant t' (run uuidNew ops w).
Proof.
  revert w t; induction ops as [|op ops IH]; intros w t Hinv Hm; simpl.
  - now exists t.
  - simpl in Hm. apply monotoneFrom_app in Hm. destruct Hm as (H1 & H2).
    eapply IH; [|exact H2]. now apply step_clockInvariant.
Qed.

(** C9: a firing of the ticker takes a snapshot if and only if autosave is
    on and at least five minutes have passed since [lastSaved], the time of
    the last snapshot; hence, as long as the clock does not run backwards,
    in a session started by [main] every version is stamped at least five
    minutes after each earlier one, however often the ticker fires. *)
Theorem autosave_once_per_interval (uuidNew : nat -> string) :
  (forall now id stamp saved c,
      autoSaveTick now id stamp saved c
      = if autoSave c && (5 * Minute <=? now - lastSaved c)
        then saveCurrentVersion id stamp saved c
        else c)
  /\ (forall now stamp saved w,
         versions (canvas (step uuidNew (OpTick now stamp saved) w))
         = versions (canvas w)
             ++ (if autoSave (canvas w)
                    && (5 * Minute <=? now - lastSaved (canvas w))
                 then [ {| ID := uuidNew (uuidCalls w); Timestamp := stamp;
                           Data := getCurrentData (canvas w);
                           Comments := [] |} ]
                 else []))
  /\ (forall ops,
         monotoneFrom zeroTime (flat_map readings ops) = true ->
         spaced (versions (canvas (run uuidNew ops newWorld)))).
Proof.
  split; [|split].
  - intros. unfold autoSaveTick. now rewrite Since_interval.
  - intros now stamp saved w.
    destruct (step_versions uuidNew (OpTick now stamp saved) w) as (-> & _).
    unfold appended, autoSaveDue. now rewrite Since_interval.
  - intros ops Hm.
    destruct (run_clockInvariant uuidNew ops newWorld zeroTime) as (t & _ & _ & H).
    + repeat split; simpl; try constructor. unfold zeroTime; lia.
    + exact Hm.
    + exact H.
Qed.

(** The ticker firing every minute for an hour: twelve snapshots, five
    minutes apart. *)
Lemma autosave_once_per_interval_witness :
  let store :=
    versions (canvas (run HexString.of_nat (regularTicks Minute 60) newWorld)) in
  spaced store /\ List.length store = 12%nat.
Proof.
  intros store.
  destruct (autosave_once_per_interval HexString.of_nat) as (_ & _ & H).
  split.
  - apply (H (regularTicks Minute 60)). vm_compute. reflexivity.
  - vm_compute. reflexivity.
Defined.

(** ** C7: the layout of the export *)

Local Open Scope Q_scope.

Lemma export_rectangles (c : Canvas) :
  rectangles (exportDocument c) = exportCells.
Proof. vm_compute. reflexivity. Qed.

Lemma bands_sum : topBand + bottomBand == 277.
Proof. reflexivity. Qed.

Lemma bands_rounding :
  Qabs (topBand - (60 # 100) * 277) <= 1 # (2 ^ 46)
  /\ Qabs (bottomBand - (40 # 100) * 277) <= 1 # (2 ^ 46).
Proof. split; apply Qabs_Qle_condition; split; vm_compute; discriminate. Qed.

Lemma export_rectangles_tile (c : Canvas) (px py : Q) :
  10 <= px -> px < 410 -> 10 <= py -> py < 287 ->
  exists i, (i < 9)%nat
    /\ covers (nth i (rectangles (exportDocument c)) zeroRect) px py
    /\ forall j, (j < 9)%nat ->
         covers (nth j (rectangles (exportDocument c)) zeroRect) px py ->
         j = i.
Proof.
  intros Hx0 Hx1 Hy0 Hy1. rewrite export_rectangles.
  destruct (Qlt_le_dec py (10 + topBand)) as [Htop|Hbottom].
  - destruct (Qlt_le_dec px 90); [cell 0%nat|].
    destruct (Qlt_le_dec px 170).
    { destruct (Qlt_le_dec py (10 + topBand * (1 # 2))); [cell 1%nat|cell 2%nat]. }
    destruct (Qlt_le_dec px 250); [cell 3%nat|].
    destruct (Qlt_le_dec px 330).
    { destruct (Qlt_le_dec py (10 + topBand * (1 # 2))); [cell 4%nat|cell 5%nat]. }
    cell 6%nat.
  - destruct (Qlt_le_dec px 210); [cell 7%nat|cell 8%nat].
Qed.

Lemma export_rectangles_inside (c : Canvas) (r : QRect) (px py : Q) :
  In r (rectangles (exportDocument c)) -> covers r px py ->
  10 <= px /\ px < 410 /\ 10 <= py /\ py < 287.
Proof.
  rewrite export_rectangles. unfold exportCells. intros Hin Hc.
  repeat (destruct Hin as [<-|Hin];
          [ unfold covers in Hc; cbn [qx qy qw qh] in Hc;
            destruct Hc as (? & ? & ? & ?); repeat split; lra | ]).
  destruct Hin.
Qed.

(** C7: for the page of 420 by 297 with margin 10, the export draws
    exactly nine rectangles; taken as exact numbers, they are the nine
    cells of a top band and a bottom band whose heights are the float64
    products of the content height 277 with 0.6 and 0.4 (within 2^-46 of
    60% and 40% of it, and adding up to 277 exactly), the top band in five
    columns of width 80 with the second and fourth halved, the bottom band
    in two columns of width 200; every point of the content area lies in
    exactly one of them, none of them leaves the content area, and their
    areas add up to 400 times 277. *)
Theorem export_layout_tiles (c : Canvas) :
  let rs := rectangles (exportDocument c) in
  let w := 420 - 2 * 10 in
  let h := 297 - 2 * 10 in
  rectCalls (exportDocument c) = 9%nat
  /\ exactValue ((297 - 2 * 10) * 0.6)%float = Some topBand
  /\ exactValue ((297 - 2 * 10) * 0.4)%float = Some bottomBand
  /\ Qabs (topBand - (60 # 100) * h) <= 1 # (2 ^ 46)
  /\ Qabs (bottomBand - (40 # 100) * h) <= 1 # (2 ^ 46)
  /\ topBand + bottomBand == h
  /\ Forall2 sameRect rs (nineCells 10 w topBand bottomBand)
  /\ (forall px py,
         10 <= px -> px < 10 + w -> 10 <= py -> py < 10 + h ->
         exists i, (i < 9)%nat
           /\ covers (nth i rs zeroRect) px py
           /\ forall j, (j < 9)%nat -> covers (nth j rs zeroRect) px py ->
                        j = i)
  /\ (forall r px py,
         In r rs -> covers r px py ->
         10 <= px /\ px < 10 + w /\ 10 <= py /\ py < 10 + h)
  /\ totalArea rs == w * h.
Proof.
  intros rs w h.
  split; [vm_compute; reflexivity|].
  split; [vm_compute; reflexivity|].
  split; [vm_compute; reflexivity|].
  split; [apply bands_rounding|].
  split; [apply bands_rounding|].
  split; [reflexivity|].
  split.
  { unfold rs. rewrite export_rectangles. unfold exportCells, nineCells, w.
    repeat constructor; cbn [qx qy qw qh]; vm_compute; reflexivity. }
  split.
  { intros px py Hx0 Hx1 Hy0 Hy1.
    apply export_rectangles_tile; unfold w, h in *; lra. }
  split.
  { intros r px py Hin Hc.
    destruct (export_rectangles_inside c r px py Hin Hc) as (H1 & H2 & H3 & H4).
    unfold w, h. repeat split; lra. }
  unfold rs. rewrite export_rectangles. vm_compute. reflexivity.
Qed.

Local Close Scope Q_scope.

(** ** C6: the persisted document *)

(** *** Bytes and bit operations *)

Lemma byteZ_range (c : ascii) : 0 <= byteZ c < 256.
Proof.
  unfold byteZ. pose proof (N_ascii_bounded c). lia.
Qed.

Lemma byteOf_byteZ (c : ascii) : byteOf (byteZ c) = c.
Proof.
  unfold byteOf. rewrite Z.mod_small by apply byteZ_range.
  unfold byteZ. rewrite N2Z.id. apply ascii_N_embedding.
Qed.

Lemma byteOf_eq (c : ascii) (n : Z) : n = byteZ c -> byteOf n = c.
Proof. intros ->. apply byteOf_byteZ. Qed.

Lemma lor_disjoint (a b k : Z) :
  0 <= k -> 0 <= a -> a mod 2 ^ k = 0 -> 0 <= b < 2 ^ k -> Z.lor a b = a + b.
Proof.
  intros Hk Ha Hm Hb.
  assert (Hl : Z.land a b = 0).
  { apply Z.bits_inj'. intros n Hn. rewrite Z.land_spec, Z.bits_0.
    destruct (Z.lt_ge_cases n k) as [Hlt|Hge].
    - assert (Z.testbit a n = false) as ->; [|reflexivity].
      rewrite <- (Z.mod_pow2_bits_low a k n) by lia. rewrite Hm. apply Z.bits_0.
    - assert (Z.testbit b n = false) as ->; [|apply andb_false_r].
      destruct (Z.eq_dec b 0) as [->|Hne]; [apply Z.bits_0|].
      apply Z.bits_above_log2; [lia|].
      apply Z.lt_le_trans with k; [|exact Hge].
      apply Z.log2_lt_pow2; lia. }
  pose proof (Z.add_lor_land a b) as H. rewrite Hl in H. lia.
Qed.

(** [x & (2^k - 1)], [x << k] and [x >> k] in arithmetic. *)
Lemma land_63 (x : Z) : Z.land x 63 = x mod 64.
Proof. change 63 with (Z.ones 6). now rewrite Z.land_ones. Qed.
Lemma land_31 (x : Z) : Z.land x 31 = x mod 32.
Proof. change 31 with (Z.ones 5). now rewrite Z.land_ones. Qed.
Lemma land_15 (x : Z) : Z.land x 15 = x mod 16.
Proof. change 15 with (Z.ones 4). now rewrite Z.land_ones. Qed.
Lemma land_7 (x : Z) : Z.land x 7 = x mod 8.
Proof. change 7 with (Z.ones 3). now rewrite Z.land_ones. Qed.

Lemma join6 (h l : Z) :
  0 <= h -> 0 <= l < 64 -> Z.lor (Z.shiftl h 6) l = h * 64 + l.
Proof.
  intros Hh Hl. rewrite Z.shiftl_mul_pow2 by lia. change (2 ^ 6) with 64.
  apply (lor_disjoint _ _ 6); try lia. change (2 ^ 6) with 64.
  now rewrite Z.mod_mul.
Qed.

Lemma join_at (k h l : Z) :
  0 <= k -> 0 <= h -> 0 <= l < 2 ^ k -> Z.lor (Z.shiftl h k) l = h * 2 ^ k + l.
Proof.
  intros Hk Hh Hl. rewrite Z.shiftl_mul_pow2 by lia.
  assert (0 < 2 ^ k) by (apply Z.pow_pos_nonneg; lia).
  apply (lor_disjoint _ _ k);
    [lia | apply Z.mul_nonneg_nonneg; lia | apply Z.mod_mul; lia | lia].
Qed.

Lemma lor_plain (k a b : Z) :
  0 <= k -> 0 <= a -> a mod 2 ^ k = 0 -> 0 <= b < 2 ^ k -> Z.lor a b = a + b.
Proof. apply lor_disjoint. Qed.

Lemma decode2 (b0 s1 : Z) :
  0xC0 <= b0 < 0xE0 -> 0x80 <= s1 <= 0xBF ->
  Z.lor (Z.shiftl (Z.land b0 utf8.mask2) 6) (Z.land s1 utf8.maskx)
  = (b0 - 192) * 64 + (s1 - 128).
Proof.
  intros H0 H1. unfold utf8.mask2, utf8.maskx. rewrite land_31, land_63.
  rewrite join6; [|apply Z.mod_pos_bound; lia|apply Z.mod_pos_bound; lia].
  Z.div_mod_to_equations. lia.
Qed.

Lemma encode2 (h l : Z) :
  2 <= h < 32 -> 0 <= l < 64 ->
  utf8.EncodeRune (h * 64 + l) = utf8.str2 (192 + h) (128 + l).
Proof.
  intros Hh Hl. unfold utf8.EncodeRune.
  destruct (Z.leb_spec (h * 64 + l) 127); [lia|].
  destruct (Z.leb_spec (h * 64 + l) 2047); [|lia].
  unfold utf8.t2, utf8.tx, utf8.maskx. rewrite land_63, Z.shiftr_div_pow2 by lia.
  change (2 ^ 6) with 64.
  replace ((h * 64 + l) / 64) with h by (Z.div_mod_to_equations; lia).
  replace ((h * 64 + l) mod 64) with l by (Z.div_mod_to_equations; lia).
  rewrite (lor_plain 6 192 h), (lor_plain 6 128 l); try reflexivity; try lia;
    change (2 ^ 6) with 64; lia.
Qed.

Lemma decode3 (b0 s1 s2 : Z) :
  0xE0 <= b0 < 0xF0 -> 0x80 <= s1 <= 0xBF -> 0x80 <= s2 <= 0xBF ->
  Z.lor (Z.lor (Z.shiftl (Z.land b0 utf8.mask3) 12)
               (Z.shiftl (Z.land s1 utf8.maskx) 6))
        (Z.land s2 utf8.maskx)
  = (b0 - 224) * 4096 + (s1 - 128) * 64 + (s2 - 128).
Proof.
  intros H0 H1 H2. unfold utf8.mask3, utf8.maskx. rewrite land_15, !land_63.
  replace (b0 mod 16) with (b0 - 224) by (Z.div_mod_to_equations; lia).
  replace (s1 mod 64) with (s1 - 128) by (Z.div_mod_to_equations; lia).
  replace (s2 mod 64) with (s2 - 128) by (Z.div_mod_to_equations; lia).
  rewrite (Z.shiftl_mul_pow2 (s1 - 128) 6) by lia. change (2 ^ 6) with 64.
  rewrite (join_at 12) by (change (2 ^ 12) with 4096; lia).
  change (2 ^ 12) with 4096.
  apply (lor_disjoint _ _ 6); try lia; change (2 ^ 6) with 64; try lia.
  Z.div_mod_to_equations. lia.
Qed.

Lemma decode4 (b0 s1 s2 s3 : Z) :
  0xF0 <= b0 < 0xF8 -> 0x80 <= s1 <= 0xBF -> 0x80 <= s2 <= 0xBF ->
  0x80 <= s3 <= 0xBF ->
  Z.lor (Z.lor (Z.lor (Z.shiftl (Z.land b0 utf8.mask4) 18)
                      (Z.shiftl (Z.land s1 utf8.maskx) 12))
               (Z.shiftl (Z.land s2 utf8.maskx) 6))
        (Z.land s3 utf8.maskx)
  = (b0 - 240) * 262144 + (s1 - 128) * 4096 + (s2 - 128) * 64 + (s3 - 128).
Proof.
  intros H0 H1 H2 H3. unfold utf8.mask4, utf8.maskx. rewrite land_7, !land_63.
  replace (b0 mod 8) with (b0 - 240) by (Z.div_mod_to_equations; lia).
  replace (s1 mod 64) with (s1 - 128) by (Z.div_mod_to_equations; lia).
  replace (s2 mod 64) with (s2 - 128) by (Z.div_mod_to_equations; lia).
  replace (s3 mod 64) with (s3 - 128) by (Z.div_mod_to_equations; lia).
  rewrite (Z.shiftl_mul_pow2 (s1 - 128) 12) by lia. change (2 ^ 12) with 4096.
  rewrite (Z.shiftl_mul_pow2 (s2 - 128) 6) by lia. change (2 ^ 6) with 64.
  rewrite (join_at 18) by (change (2 ^ 18) with 262144; lia).
  change (2 ^ 18) with 262144.
  rewrite (lor_disjoint _ ((s2 - 128) * 64) 12);
    try lia; change (2 ^ 12) with 4096; try lia;
    [|Z.div_mod_to_equations; lia].
  apply (lor_disjoint _ _ 6); try lia; change (2 ^ 6) with 64; try lia.
  Z.div_mod_to_equations. lia.
Qed.

Lemma encode3 (h m l : Z) :
  0 <= h < 16 -> 0 <= m < 64 -> 0 <= l < 64 ->
  0x800 <= h * 4096 + m * 64 + l ->
  ~ (0xD800 <= h * 4096 + m * 64 + l <= 0xDFFF) ->
  utf8.EncodeRune (h * 4096 + m * 64 + l)
  = utf8.str3 (224 + h) (128 + m) (128 + l).
Proof.
  intros Hh Hm Hl Hlo Hs. unfold utf8.EncodeRune.
  set (r := h * 4096 + m * 64 + l) in *.
  destruct (Z.leb_spec r 127); [lia|].
  destruct (Z.leb_spec r 2047); [lia|].
  unfold utf8.MaxRune, utf8.surrogateMin, utf8.surrogateMax.
  destruct (Z.ltb_spec 0x10FFFF r); [lia|].
  destruct (Z.leb_spec 0xD800 r); destruct (Z.leb_spec r 0xDFFF);
    cbn [orb andb]; try lia;
    (destruct (Z.leb_spec r 0xFFFF); [|lia]);
    unfold utf8.encode3, utf8.t3, utf8.tx, utf8.maskx;
    rewrite !land_63, !Z.shiftr_div_pow2 by lia;
    change (2 ^ 6) with 64; change (2 ^ 12) with 4096;
    (replace (r / 4096) with h by (unfold r; Z.div_mod_to_equations; lia));
    (replace ((r / 64) mod 64) with m by (unfold r; Z.div_mod_to_equations; lia));
    (replace (r mod 64) with l by (unfold r; Z.div_mod_to_equations; lia));
    rewrite (lor_plain 4 224 h), (lor_plain 6 128 m), (lor_plain 6 128 l);
    try reflexivity; try lia;
    try (change (2 ^ 6) with 64; lia); change (2 ^ 4) with 16; lia.
Qed.

Lemma encode4 (h a m l : Z) :
  0 <= h < 8 -> 0 <= a < 64 -> 0 <= m < 64 -> 0 <= l < 64 ->
  0x10000 <= h * 262144 + a * 4096 + m * 64 + l <= 0x10FFFF ->
  utf8.EncodeRune (h * 262144 + a * 4096 + m * 64 + l)
  = utf8.str4 (240 + h) (128 + a) (128 + m) (128 + l).
Proof.
  intros Hh Ha Hm Hl Hr. unfold utf8.EncodeRune.
  set (r := h * 262144 + a * 4096 + m * 64 + l) in *.
  destruct (Z.leb_spec r 127); [lia|].
  destruct (Z.leb_spec r 2047); [lia|].
  unfold utf8.MaxRune, utf8.surrogateMin, utf8.surrogateMax.
  destruct (Z.ltb_spec 0x10FFFF r); [lia|].
  destruct (Z.leb_spec 0xD800 r); [|lia].
  destruct (Z.leb_spec r 0xDFFF); [lia|]. cbn [orb andb].
  destruct (Z.leb_spec r 0xFFFF); [lia|].
  unfold utf8.t4, utf8.tx, utf8.maskx.
  rewrite !land_63, !Z.shiftr_div_pow2 by lia.
  change (2 ^ 6) with 64; change (2 ^ 12) with 4096;
    change (2 ^ 18) with 262144.
  replace (r / 262144) with h by (unfold r; Z.div_mod_to_equations; lia).
  replace ((r / 4096) mod 64) with a by (unfold r; Z.div_mod_to_equations; lia).
  replace ((r / 64) mod 64) with m by (unfold r; Z.div_mod_to_equations; lia).
  replace (r mod 64) with l by (unfold r; Z.div_mod_to_equations; lia).
  rewrite (lor_plain 3 240 h), (lor_plain 6 128 a), (lor_plain 6 128 m),
    (lor_plain 6 128 l);
    try reflexivity; try lia;
    try (change (2 ^ 6) with 64; lia); change (2 ^ 3) with 8; lia.
Qed.

Lemma first_cases (b : Z) :
  0 <= b < 256 ->
  match utf8.first b with
  | utf8.LeadASCII => b < 0x80
  | utf8.LeadInvalid => 0x80 <= b
  | utf8.LeadSeq sz lo hi =>
    0x80 <= lo /\ hi <= 0xBF
    /\ ((sz = 2%nat /\ 0xC2 <= b <= 0xDF)
        \/ (sz = 3%nat /\ 0xE0 <= b <= 0xEF
            /\ (b = 0xE0 -> 0xA0 <= lo) /\ (b = 0xED -> hi <= 0x9F))
        \/ (sz = 4%nat /\ 0xF0 <= b <= 0xF4
            /\ (b = 0xF0 -> 0x90 <= lo) /\ (b = 0xF4 -> hi <= 0x8F)))
  end.
Proof.
  intros Hb. unfold utf8.first, utf8.locb, utf8.hicb.
  repeat match goal with
         | |- context [?x <? ?y] => destruct (Z.ltb_spec x y)
         | |- context [?x <=? ?y] => destruct (Z.leb_spec x y)
         | |- context [?x =? ?y] => destruct (Z.eqb_spec x y)
         end; try lia;
    (split; [lia|split; [lia|]]);
    first [ left; lia | right; left; lia | right; right; lia ].
Qed.

Lemma outside_false (lo hi b : Z) :
  utf8.outside lo hi b = false -> lo <= b <= hi.
Proof.
  unfold utf8.outside. intros H. apply orb_false_elim in H.
  destruct H as (H1 & H2). apply Z.ltb_ge in H1, H2. lia.
Qed.

Lemma decode_wellformed (s : string) (r : Z) (n : nat) :
  utf8.DecodeRuneInString s = (r, n) ->
  utf8.wellFormedHead s = true -> s <> EmptyString ->
  utf8.EncodeRune r = take n s
  /\ (forall t, utf8.DecodeRuneInString (take n s ++ t) = (r, n))
  /\ (forall t, skip n (take n s ++ t) = t)
  /\ (take n s ++ skip n s)%string = s
  /\ (1 <= n)%nat
  /\ String.length (take n s) = n
  /\ (0x80 <= headByte s -> 0x80 <= r).
Proof.
  intros Hd Hw Hs. unfold utf8.wellFormedHead in Hw. rewrite Hd in Hw.
  destruct s as [|c0 r0]; [congruence|]. clear Hs.
  unfold utf8.DecodeRuneInString in Hd.
  pose proof (byteZ_range c0) as Hb0.
  pose proof (first_cases (byteZ c0) Hb0) as Hf.
  assert (Hbad : (utf8.RuneError, 1%nat) = (r, n) -> False).
  { intros E. inversion E; subst. discriminate Hw. }
  clear Hw.
  destruct (utf8.first (byteZ c0)) as [| |sz lo hi] eqn:Hfirst.
  - (* ASCII *)
    apply pair_equal_spec in Hd; destruct Hd as [<- <-]. cbn [take skip append headByte].
    repeat split; try reflexivity; try lia.
    + unfold utf8.EncodeRune. destruct (Z.leb_spec (byteZ c0) 127); [|lia].
      unfold utf8.str1. now rewrite byteOf_byteZ.
    + intros t. unfold utf8.DecodeRuneInString. now rewrite Hfirst.
  - now apply Hbad in Hd.
  - destruct Hf as (Hlo & Hhi & Hsz).
    destruct r0 as [|c1 r1]; [now apply Hbad in Hd|].
    pose proof (byteZ_range c1) as Hb1.
    destruct (utf8.outside lo hi (byteZ c1)) eqn:Ho1; [now apply Hbad in Hd|].
    pose proof (outside_false _ _ _ Ho1) as Hs1.
    destruct Hsz as [(-> & Hr0)|[(-> & Hr0 & HE0 & HED)|(-> & Hr0 & HF0 & HF4)]].
    + (* two bytes *)
      cbn [Nat.leb] in Hd. apply pair_equal_spec in Hd; destruct Hd as [<- <-].
      cbn [take skip append headByte].
      rewrite decode2 by lia.
      repeat split; try reflexivity; try lia.
      * rewrite encode2 by lia. unfold utf8.str2, utf8.str1.
        rewrite (byteOf_eq c0), (byteOf_eq c1); [reflexivity|lia|lia].
      * intros t. unfold utf8.DecodeRuneInString.
        rewrite Hfirst, Ho1. cbn [Nat.leb]. now rewrite decode2 by lia.
    + (* three bytes *)
      cbn [Nat.leb] in Hd.
      destruct r1 as [|c2 r2]; [now apply Hbad in Hd|].
      pose proof (byteZ_range c2) as Hb2.
      destruct (utf8.outside utf8.locb utf8.hicb (byteZ c2)) eqn:Ho2;
        [now apply Hbad in Hd|].
      pose proof (outside_false _ _ _ Ho2) as Hs2.
      unfold utf8.locb, utf8.hicb in Hs2.
      apply pair_equal_spec in Hd; destruct Hd as [<- <-].
      cbn [take skip append headByte].
      rewrite decode3 by lia.
      repeat split; try reflexivity; try lia.
      * rewrite encode3 by lia. unfold utf8.str3, utf8.str2, utf8.str1.
        rewrite (byteOf_eq c0), (byteOf_eq c1), (byteOf_eq c2);
          [reflexivity|lia|lia|lia].
      * intros t. unfold utf8.DecodeRuneInString.
        rewrite Hfirst, Ho1, Ho2. cbn [Nat.leb]. now rewrite decode3 by lia.
    + (* four bytes *)
      cbn [Nat.leb] in Hd.
      destruct r1 as [|c2 r2]; [now apply Hbad in Hd|].
      pose proof (byteZ_range c2) as Hb2.
      destruct (utf8.outside utf8.locb utf8.hicb (byteZ c2)) eqn:Ho2;
        [now apply Hbad in Hd|].
      pose proof (outside_false _ _ _ Ho2) as Hs2.
      unfold utf8.locb, utf8.hicb in Hs2.
      destruct r2 as [|c3 r3]; [now apply Hbad in Hd|].
      pose proof (byteZ_range c3) as Hb3.
      destruct (utf8.outside utf8.locb utf8.hicb (byteZ c3)) eqn:Ho3;
        [now apply Hbad in Hd|].
      pose proof (outside_false _ _ _ Ho3) as Hs3.
      unfold utf8.locb, utf8.hicb in Hs3.
      apply pair_equal_spec in Hd; destruct Hd as [<- <-].
      cbn [take skip append headByte].
      rewrite decode4 by lia.
      repeat split; try reflexivity; try lia.
      * rewrite encode4 by lia.
        unfold utf8.str4, utf8.str3, utf8.str2, utf8.str1.
        rewrite (byteOf_eq c0), (byteOf_eq c1), (byteOf_eq c2), (byteOf_eq c3);
          [reflexivity|lia|lia|lia|lia].
      * intros t. unfold utf8.DecodeRuneInString.
        rewrite Hfirst, Ho1, Ho2, Ho3. cbn [Nat.leb].
        now rewrite decode4 by lia.
Qed.


Lemma append_assoc (a b c : string) : ((a ++ b) ++ c = a ++ (b ++ c))%string.
Proof. induction a as [|x a IH]; simpl; [reflexivity|now rewrite IH]. Qed.

Lemma append_nil_r (a : string) : (a ++ "" = a)%string.
Proof. induction a as [|x a IH]; simpl; [reflexivity|now rewrite IH]. Qed.

Lemma length_append (a b : string) :
  String.length (a ++ b) = (String.length a + String.length b)%nat.
Proof. induction a as [|x a IH]; simpl; [reflexivity|now rewrite IH]. Qed.

Lemma validLoop_WellFormed (fuel : nat) (s : string) :
  utf8.validLoop fuel s = true -> WellFormed s.
Proof.
  revert s; induction fuel as [|fuel IH]; intros s H.
  - destruct s; [constructor|discriminate H].
  - destruct s as [|c s']; [constructor|].
    cbn [utf8.validLoop] in H. apply andb_prop in H. destruct H as (H1 & H2).
    apply WF_rune; [discriminate|exact H1|apply IH, H2].
Qed.

Lemma ValidString_WellFormed (s : string) :
  utf8.ValidString s = true -> WellFormed s.
Proof. apply validLoop_WellFormed. Qed.

Lemma decode_ascii (c : ascii) (s : string) :
  byteZ c < 0x80 -> utf8.DecodeRuneInString (String c s) = (byteZ c, 1%nat).
Proof.
  intros H. unfold utf8.DecodeRuneInString, utf8.first.
  destruct (Z.ltb_spec (byteZ c) 128); [reflexivity|lia].
Qed.

Lemma unquoteLoop_step (f : nat) (s : string) :
  json.unquoteLoop (S f) s = unquoteStep (json.unquoteLoop f) s.
Proof. destruct s; reflexivity. Qed.

(** One escape of the encoder read back by the decoder. *)
Lemma unquoteStep_escape (c : ascii) (k : string -> option (string * string))
      (tail : string) :
  (byteZ c <? 0x80) && negb (json.htmlSafeSet (byteZ c)) = true ->
  unquoteStep k (json.escapeASCII c ++ tail)
  = json.prepend (String c EmptyString) (k tail).
Proof.
  destruct c as [[] [] [] [] [] [] [] []]; intros H;
    try (vm_compute in H; discriminate H); vm_compute; reflexivity.
Qed.

Lemma length_escape (c : ascii) : (1 <= String.length (json.escapeASCII c))%nat.
Proof.
  unfold json.escapeASCII.
  repeat match goal with
         | |- context [if ?b then _ else _] => destruct b
         end; simpl; lia.
Qed.

Lemma unquoteStep_separator (r : Z) (k : string -> option (string * string))
      (tail : string) :
  r = 0x2028 \/ r = 0x2029 ->
  unquoteStep k
    (String json.backslash
       (String "u" (String "2" (String "0" (String "2"
          (String (json.hexDigit (Z.land r 0xF)) tail))))))
  = json.prepend (utf8.EncodeRune r) (k tail).
Proof. intros [-> | ->]; vm_compute; reflexivity. Qed.

Lemma prepend_Some (p t rest : string) :
  json.prepend p (Some (t, rest)) = Some ((p ++ t)%string, rest).
Proof. reflexivity. Qed.

(** The decoder reads back what the encoder wrote for well-formed text. *)
Lemma unquote_appendStringLoop (fuel1 : nat) :
  forall s, (String.length s <= fuel1)%nat -> WellFormed s ->
  forall fuel2 rest,
    (String.length (json.appendStringLoop fuel1 s) < fuel2)%nat ->
    json.unquoteLoop fuel2
      (json.appendStringLoop fuel1 s ++ String json.dquote rest)
    = Some (s, rest).
Proof.
  induction fuel1 as [|fuel1 IH]; intros s Hlen Hwf fuel2 rest Hfuel.
  - destruct s; [|simpl in Hlen; lia]. simpl.
    destruct fuel2; [simpl in Hfuel; lia|]. reflexivity.
  - destruct s as [|c s'].
    { simpl. destruct fuel2; [simpl in Hfuel; lia|]. reflexivity. }
    inversion Hwf as [|s0 _ Hhead Htail E]; subst s0.
    destruct (utf8.DecodeRuneInString (String c s')) as [r n] eqn:Hd.
    cbn [snd] in Htail.
    destruct (decode_wellformed _ _ _ Hd Hhead ltac:(discriminate))
      as (Henc & Hpre & Hskip & Hsplit & Hn & Hlt & Hr).
    cbn [headByte] in Hr.
    assert (Hrest : (String.length (skip n (String c s')) <= fuel1)%nat).
    { rewrite <- Hsplit in Hlen. rewrite length_append, Hlt in Hlen. lia. }
    destruct fuel2 as [|fuel2]; [lia|].
    rewrite unquoteLoop_step.
    cbn [json.appendStringLoop] in *. rewrite Hd in *.
    pose proof (byteZ_range c) as Hb.
    unfold utf8.RuneSelf in *.
    destruct (Z.ltb_spec (byteZ c) 128) as [Hascii|Hmulti].
    + (* ASCII *)
      rewrite decode_ascii in Hd by exact Hascii.
      apply pair_equal_spec in Hd. destruct Hd as [<- <-].
      cbn [skip] in *.
      destruct (json.htmlSafeSet (byteZ c)) eqn:Hsafe.
      * cbn [append String.length] in *.
        unfold json.htmlSafeSet in Hsafe.
        apply andb_prop in Hsafe. destruct Hsafe as (Hsafe & Hnot).
        apply andb_prop in Hsafe. destruct Hsafe as (Hge & _).
        apply Z.leb_le in Hge. apply negb_true_iff in Hnot.
        repeat (apply orb_false_elim in Hnot; destruct Hnot as (Hnot & ?)).
        unfold unquoteStep.
        replace (byteZ c =? 34) with false by (symmetry; assumption).
        replace (byteZ c =? 92) with false by (symmetry; assumption).
        destruct (Z.ltb_spec (byteZ c) 32); [lia|].
        unfold utf8.RuneSelf.
        destruct (Z.ltb_spec (byteZ c) 128); [|lia].
        rewrite IH; [reflexivity|assumption|assumption|lia].
      * rewrite append_assoc, unquoteStep_escape.
        2:{ apply andb_true_intro. split; [apply Z.ltb_lt; lia|].
            now rewrite Hsafe. }
        rewrite IH; [reflexivity|assumption|assumption|].
        rewrite length_append in Hfuel. pose proof (length_escape c). lia.
    + (* a rune of several bytes *)
      specialize (Hr ltac:(lia)).
      assert (Hne : (r =? utf8.RuneError) && (n =? 1)%nat = false).
      { unfold utf8.wellFormedHead in Hhead. rewrite Hd in Hhead.
        now apply negb_true_iff in Hhead. }
      rewrite Hne in *.
      destruct ((r =? 8232) || (r =? 8233)) eqn:Hsep.
      * rewrite append_assoc. cbn [append].
        rewrite unquoteStep_separator.
        2:{ apply orb_prop in Hsep. destruct Hsep as [H|H];
              apply Z.eqb_eq in H; lia. }
        rewrite IH; [|assumption|assumption|].
        -- rewrite prepend_Some, Henc, Hsplit. reflexivity.
        -- rewrite length_append in Hfuel. cbn [String.length] in Hfuel. lia.
      * rewrite append_assoc.
        destruct n as [|n']; [lia|]. cbn [take append] in *.
        unfold unquoteStep.
        destruct (Z.eqb_spec (byteZ c) 34); [lia|].
        destruct (Z.eqb_spec (byteZ c) 92); [lia|].
        destruct (Z.ltb_spec (byteZ c) 32); [lia|].
        unfold utf8.RuneSelf.
        destruct (Z.ltb_spec (byteZ c) 128); [lia|].
        rewrite (Hpre _). rewrite (Hskip _).
        rewrite IH; [|assumption|assumption|].
        -- rewrite prepend_Some, Henc. cbn [append]. rewrite Hsplit.
           reflexivity.
        -- cbn [String.length] in Hfuel. rewrite length_append in Hfuel. lia.
Qed.

Lemma scanString_appendString (s rest : string) :
  utf8.ValidString s = true ->
  json.scanString (json.appendStringLoop (String.length s) s
                     ++ String json.dquote rest)
  = Some (s, rest).
Proof.
  intros H. unfold json.scanString.
  apply unquote_appendStringLoop; [lia|now apply ValidString_WellFormed|].
  rewrite length_append. simpl. lia.
Qed.


(** The parser at a quote, a brace, and around the layout of [Indent]. *)
Lemma parseValue_quote (f : nat) (depth : Z) (rest : string) :
  json.parseValue (S f) depth (String json.dquote rest)
  = match json.scanString rest with
    | Some (t, r) => Some (json.Str t, r)
    | None => None
    end.
Proof. reflexivity. Qed.

Lemma parseMembers_quote (f : nat) (depth : Z) (rest : string) :
  json.parseMembers (S f) depth (String json.dquote rest)
  = match json.scanString rest with
    | Some (key, r1) =>
      match json.skipSpace r1 with
      | String c1 r2 =>
        if byteZ c1 =? 0x3A then
          match json.parseValue f depth (json.skipSpace r2) with
          | Some (v, r3) =>
            match json.skipSpace r3 with
            | String c2 r4 =>
              if byteZ c2 =? 0x2C then
                match json.parseMembers f depth (json.skipSpace r4) with
                | Some (ms, r5) => Some ((key, v) :: ms, r5)
                | None => None
                end
              else if byteZ c2 =? 0x7D then Some ([(key, v)], r4)
              else None
            | EmptyString => None
            end
          | None => None
          end
        else None
      | EmptyString => None
      end
    | None => None
    end.
Proof. reflexivity. Qed.

Lemma parseValue_brace (f : nat) (rest : string) :
  json.parseValue (S f) 0 (String "{" rest)
  = match json.skipSpace rest with
    | String c' rest' =>
      if byteZ c' =? 0x7D then Some (json.Object [], rest')
      else
        match json.parseMembers f 1 (json.skipSpace rest) with
        | Some (ms, r) => Some (json.Object ms, r)
        | None => None
        end
    | EmptyString => None
    end.
Proof. reflexivity. Qed.

(** The text of a member list, laid out as [Indent] does with an empty
    prefix and four spaces, with its first bytes in view. *)
Lemma indentMembers_cons (k v : string) (ms : list (string * string))
      (tail : string) :
  (json.indentMembers "" "    " ((k, v) :: ms) ++ tail)%string
  = String (ascii_of_nat 10) (String " " (String " " (String " " (String " "
      (String json.dquote
         (json.appendStringLoop (String.length k) k
          ++ String json.dquote (String ":" (String " "
               (String json.dquote
                  (json.appendStringLoop (String.length v) v
                   ++ String json.dquote
                        match ms with
                        | [] => tail
                        | _ :: _ =>
                          String ","
                            (json.indentMembers "" "    " ms ++ tail)
                        end))))))))))%string.
Proof.
  cbn [json.indentMembers]. unfold json.appendString, json.newline.
  cbn [append]. rewrite !append_assoc. cbn [append].
  do 7 f_equal. rewrite ?append_assoc. cbn [append]. do 5 f_equal.
  rewrite ?append_assoc. cbn [append]. do 2 f_equal.
  destruct ms; cbn [append]; reflexivity.
Qed.

Lemma skipSpace_indent (s : string) :
  json.skipSpace
    (String (ascii_of_nat 10) (String " " (String " " (String " " (String " "
       (String json.dquote s))))))
  = String json.dquote s.
Proof. reflexivity. Qed.

Lemma parseMembers_indent (ms : list (string * string)) :
  ms <> [] ->
  Forall (fun kv => utf8.ValidString (fst kv) = true
                    /\ utf8.ValidString (snd kv) = true) ms ->
  forall fuel depth tail,
    (List.length ms < fuel)%nat ->
    json.parseMembers fuel depth
      (json.skipSpace
         (json.indentMembers "" "    " ms
          ++ String (ascii_of_nat 10) (String "}" tail)))
    = Some (memberValues ms, tail).
Proof.
  induction ms as [|[k v] ms IH]; intros Hne Hvalid fuel depth tail Hfuel;
    [congruence|].
  inversion Hvalid as [|? ? (Hk & Hv) Hrest]; subst. cbn [fst snd] in *.
  rewrite indentMembers_cons, skipSpace_indent.
  destruct fuel as [|[|fuel]]; cbn [List.length] in Hfuel; try lia.
  rewrite parseMembers_quote.
  rewrite scanString_appendString by exact Hk.
  change (json.skipSpace (String ":" ?x)) with (String ":" x).
  cbv beta iota.
  change (byteZ ":" =? 58) with true. cbv iota.
  match goal with
  | |- context [json.skipSpace (String " " (String json.dquote ?x))] =>
    change (json.skipSpace (String " " (String json.dquote x)))
      with (String json.dquote x)
  end.
  rewrite parseValue_quote.
  rewrite scanString_appendString by exact Hv.
  destruct ms as [|kv' ms'].
  - reflexivity.
  - change (json.skipSpace (String "," ?x)) with (String "," x).
    cbv beta iota. change (byteZ "," =? 44) with true. cbv iota.
    rewrite IH; [reflexivity|discriminate|exact Hrest|].
    cbn [List.length] in *. lia.
Qed.

Lemma length_indentMembers (ms : list (string * string)) :
  (List.length ms <= String.length (json.indentMembers "" "    " ms))%nat.
Proof.
  induction ms as [|[k v] ms IH]; [simpl; lia|].
  pose proof (indentMembers_cons k v ms "") as H.
  rewrite append_nil_r in H. rewrite H. cbn [String.length List.length].
  rewrite !length_append. cbn [String.length]. rewrite !length_append.
  destruct ms as [|kv ms]; [cbn [List.length]; lia|].
  cbn [String.length]. rewrite append_nil_r. cbn [List.length] in *. lia.
Qed.

(** The document [MarshalIndent] lays out parses to its members. *)
Lemma parse_indentObject (ms : list (string * string)) :
  ms <> [] ->
  Forall (fun kv => utf8.ValidString (fst kv) = true
                    /\ utf8.ValidString (snd kv) = true) ms ->
  json.parse (json.indentObject "" "    " ms)
  = Some (json.Object (memberValues ms)).
Proof.
  intros Hne Hvalid. unfold json.parse, json.indentObject.
  destruct ms as [|[k v] ms]; [congruence|].
  set (members := (k, v) :: ms) in *.
  unfold json.newline. cbn [append].
  change (json.skipSpace (String "{" ?x)) with (String "{" x).
  pose proof (length_indentMembers members) as Hlen.
  match goal with
  | |- context [json.parseValue (2 * ?len + 2)%nat] =>
    assert (Hfuel : exists f, (2 * len + 2)%nat = S f
                              /\ (List.length members < f)%nat)
      by (exists (2 * len + 1)%nat; split; [lia|];
          cbn [String.length]; rewrite length_append; lia)
  end.
  destruct Hfuel as (f & -> & Hf).
  rewrite parseValue_brace.
  rewrite (parseMembers_indent members Hne Hvalid f 1 "" Hf).
  unfold members at 1. rewrite indentMembers_cons, skipSpace_indent.
  change (byteZ json.dquote =? 125) with false. cbv iota.
  reflexivity.
Qed.

Lemma tags_valid (f : field) : utf8.ValidString (tag f) = true.
Proof. destruct f; vm_compute; reflexivity. Qed.

Lemma findField_tag (f : field) : json.findField (tag f) = Some f.
Proof. destruct f; vm_compute; reflexivity. Qed.

(** Save then load: [Unmarshal] reads back what [MarshalIndent] wrote,
    for a record whose fields are well-formed UTF-8. *)
Lemma Unmarshal_MarshalIndent (d : CanvasData) :
  (forall f, utf8.ValidString (getField f d) = true) ->
  json.Unmarshal (fst (json.MarshalIndent d "" "    ")) zeroCanvasData
  = (d, None).
Proof.
  intros Hvalid. unfold json.Unmarshal, json.MarshalIndent. cbn [fst].
  rewrite parse_indentObject.
  - destruct d. reflexivity.
  - discriminate.
  - unfold json.structFields. apply Forall_forall. intros kv Hin.
    apply in_map_iff in Hin. destruct Hin as (f & <- & _). cbn [fst snd].
    split; [apply tags_valid|apply Hvalid].
Qed.

(** *** The fuel of the loops

    Each loop of the model that is not structural runs on fuel, which its
    caller takes from the length of the input. The lemmas below show that
    this is enough: more fuel never changes a result. *)

Lemma length_skipSpace (s : string) :
  (String.length (json.skipSpace s) <= String.length s)%nat.
Proof.
  induction s as [|c s IH]; [reflexivity|]. cbn [json.skipSpace].
  destruct (json.isSpace c); cbn [String.length]; lia.
Qed.

Lemma length_skip (n : nat) (s : string) :
  (String.length (skip n s) <= String.length s)%nat.
Proof.
  revert s; induction n as [|n IH]; intros s; [reflexivity|].
  destruct s as [|c s]; [reflexivity|]. cbn [skip String.length].
  specialize (IH s). lia.
Qed.

Lemma prepend_rest (p : string) (r : option (string * string))
      (t rest : string) :
  json.prepend p r = Some (t, rest) -> exists t', r = Some (t', rest).
Proof.
  destruct r as [[t' rest']|]; [|discriminate]. cbn [json.prepend].
  intros H. inversion H. now exists t'.
Qed.

Lemma length_unquoteLoop (f : nat) :
  forall s t rest, json.unquoteLoop f s = Some (t, rest) ->
                   (String.length rest <= String.length s)%nat.
Proof.
  induction f as [|f IH]; intros s t rest H; [discriminate H|].
  rewrite unquoteLoop_step in H. unfold unquoteStep in H.
  destruct s as [|c s']; [discriminate H|].
  assert (Hk : forall p s1 t1,
             (String.length s1 <= String.length (String c s'))%nat ->
             json.prepend p (json.unquoteLoop f s1) = Some (t1, rest) ->
             (String.length rest <= String.length (String c s'))%nat).
  { intros p s1 t1 Hs1 Hp. apply prepend_rest in Hp. destruct Hp as (t' & Hp).
    apply IH in Hp. lia. }
  destruct (byteZ c =? 34).
  { inversion H; subst. cbn [String.length]. lia. }
  destruct (byteZ c =? 92).
  { destruct s' as [|e s'']; [discriminate H|].
    destruct (json.simpleEscape e).
    - eapply Hk; [|exact H]. cbn [String.length]. lia.
    - destruct (byteZ e =? 117); [|discriminate H].
      destruct (json.getu4 (String c (String e s'')) <? 0); [discriminate H|].
      destruct (json.IsSurrogate _).
      + destruct (negb _).
        * eapply Hk; [|exact H].
          etransitivity; [apply length_skip|]. apply length_skip.
        * eapply Hk; [|exact H]. apply length_skip.
      + eapply Hk; [|exact H]. apply length_skip. }
  destruct (byteZ c <? 32); [discriminate H|].
  destruct (byteZ c <? utf8.RuneSelf).
  { eapply Hk; [|exact H]. cbn [String.length]. lia. }
  destruct (utf8.DecodeRuneInString (String c s')) as [rr size].
  eapply Hk; [|exact H]. apply length_skip.
Qed.

Lemma length_scanString (s t rest : string) :
  json.scanString s = Some (t, rest) ->
  (String.length rest <= String.length s)%nat.
Proof. apply length_unquoteLoop. Qed.

Lemma length_digits (s ds rest : string) :
  json.digits s = (ds, rest) -> (String.length rest <= String.length s)%nat.
Proof.
  revert ds rest; induction s as [|c s IH]; intros ds rest H.
  - inversion H. reflexivity.
  - cbn [json.digits] in H. destruct (json.isDigit c).
    + destruct (json.digits s) as [ds' rest'] eqn:E. inversion H; subst.
      specialize (IH _ _ eq_refl). cbn [String.length]. lia.
    + inversion H; subst. reflexivity.
Qed.

Lemma length_digits1 (s ds rest : string) :
  json.digits1 s = Some (ds, rest) ->
  (String.length rest <= String.length s)%nat.
Proof.
  unfold json.digits1. destruct (json.digits s) as [ds' rest'] eqn:E.
  intros H. apply length_digits in E.
  destruct ds'; [discriminate H|]. inversion H; subst. exact E.
Qed.

Lemma length_scanNumber (s lit rest : string) :
  json.scanNumber s = Some (lit, rest) ->
  (String.length rest <= String.length s)%nat.
Proof.
  unfold json.scanNumber.
  destruct (json.scanSign s) as [sign s1] eqn:E1.
  assert (H1 : (String.length s1 <= String.length s)%nat).
  { unfold json.scanSign in E1. destruct s as [|c r]; [now inversion E1|].
    destruct (byteZ c =? 45); inversion E1; subst; cbn [String.length]; lia. }
  destruct (json.scanInt s1) as [[ip s2]|] eqn:E2; [|discriminate].
  assert (H2 : (String.length s2 <= String.length s1)%nat).
  { unfold json.scanInt in E2. destruct s1 as [|c r]; [discriminate E2|].
    destruct (byteZ c =? 48).
    - inversion E2; subst. cbn [String.length]. lia.
    - destruct (json.isDigit c); [|discriminate E2].
      now apply length_digits1 in E2. }
  destruct (json.scanFrac s2) as [[fp s3]|] eqn:E3; [|discriminate].
  assert (H3 : (String.length s3 <= String.length s2)%nat).
  { unfold json.scanFrac in E3. destruct s2 as [|c r]; [now inversion E3|].
    destruct (byteZ c =? 46).
    - destruct (json.digits1 r) as [[fp' r']|] eqn:Ed; [|discriminate E3].
      inversion E3; subst. apply length_digits1 in Ed.
      cbn [String.length]. lia.
    - inversion E3; subst. lia. }
  destruct (json.scanExp s3) as [[ep s4]|] eqn:E4; [|discriminate].
  assert (H4 : (String.length s4 <= String.length s3)%nat).
  { unfold json.scanExp in E4. destruct s3 as [|e r]; [now inversion E4|].
    destruct ((byteZ e =? 101) || (byteZ e =? 69)); [|inversion E4; subst; lia].
    assert (Hsg : forall sg r', (String.length r' <= String.length r)%nat ->
                match json.digits1 r' with
                | Some (ep0, rest0) =>
                  Some ((String e "" ++ sg ++ ep0)%string, rest0)
                | None => None
                end = Some (ep, s4) ->
                (String.length s4 <= String.length (String e r))%nat).
    { intros sg r' Hr' Hd.
      destruct (json.digits1 r') as [[ep0 rest0]|] eqn:Ed; [|discriminate Hd].
      inversion Hd; subst. apply length_digits1 in Ed.
      cbn [String.length]. lia. }
    destruct r as [|c r'].
    - apply (Hsg "" ""); [lia|exact E4].
    - destruct ((byteZ c =? 43) || (byteZ c =? 45)).
      + apply (Hsg (String c "") r'); [cbn [String.length]; lia|exact E4].
      + apply (Hsg "" (String c r')); [lia|exact E4]. }
  intros H. inversion H; subst. lia.
Qed.

Lemma length_stripPrefix (p s rest : string) :
  json.stripPrefix p s = Some rest ->
  (String.length rest <= String.length s)%nat.
Proof.
  revert s; induction p as [|a p IH]; intros s H.
  - inversion H. lia.
  - destruct s as [|b s]; [discriminate H|]. cbn [json.stripPrefix] in H.
    destruct (Ascii.eqb a b); [|discriminate H].
    apply IH in H. cbn [String.length]. lia.
Qed.

(** What a parse leaves is no longer than what it started from. *)
Lemma length_parse (fuel : nat) :
  (forall depth s v rest, json.parseValue fuel depth s = Some (v, rest) ->
                          (String.length rest <= String.length s)%nat)
  /\ (forall depth s ms rest,
         json.parseMembers fuel depth s = Some (ms, rest) ->
         (String.length rest <= String.length s)%nat)
  /\ (forall depth s vs rest,
         json.parseElements fuel depth s = Some (vs, rest) ->
         (String.length rest <= String.length s)%nat).
Proof.
  induction fuel as [|fuel (IHv & IHm & IHe)];
    [repeat split; intros; discriminate|].
  split; [|split].
  - intros depth s v rest H. cbn [json.parseValue] in H.
    destruct s as [|c r]; [discriminate H|].
    pose proof (length_skipSpace r) as Hsp.
    destruct (byteZ c =? 123).
    { destruct (json.maxNestingDepth <? depth + 1); [discriminate H|].
      destruct (json.skipSpace r) as [|c' r'] eqn:E; [discriminate H|].
      destruct (byteZ c' =? 125).
      - inversion H; subst. cbn [String.length] in *. lia.
      - destruct (json.parseMembers fuel (depth + 1) (String c' r'))
          as [[ms r1]|] eqn:Em; [|discriminate H].
        inversion H; subst. apply IHm in Em. cbn [String.length] in *. lia. }
    destruct (byteZ c =? 91).
    { destruct (json.maxNestingDepth <? depth + 1); [discriminate H|].
      destruct (json.skipSpace r) as [|c' r'] eqn:E; [discriminate H|].
      destruct (byteZ c' =? 93).
      - inversion H; subst. cbn [String.length] in *. lia.
      - destruct (json.parseElements fuel (depth + 1) (String c' r'))
          as [[vs r1]|] eqn:Ee; [|discriminate H].
        inversion H; subst. apply IHe in Ee. cbn [String.length] in *. lia. }
    destruct (byteZ c =? 34).
    { destruct (json.scanString r) as [[t r1]|] eqn:Es; [|discriminate H].
      inversion H; subst. apply length_scanString in Es.
      cbn [String.length]. lia. }
    destruct ((byteZ c =? 45) || json.isDigit c).
    { destruct (json.scanNumber (String c r)) as [[lit r1]|] eqn:En;
        [|discriminate H].
      inversion H; subst. now apply length_scanNumber in En. }
    destruct (json.stripPrefix "true" (String c r)) as [r1|] eqn:E1.
    { inversion H; subst. now apply length_stripPrefix in E1. }
    destruct (json.stripPrefix "false" (String c r)) as [r1|] eqn:E2.
    { inversion H; subst. now apply length_stripPrefix in E2. }
    destruct (json.stripPrefix "null" (String c r)) as [r1|] eqn:E3.
    { inversion H; subst. now apply length_stripPrefix in E3. }
    discriminate H.
  - intros depth s ms rest H. cbn [json.parseMembers] in H.
    destruct s as [|c r]; [discriminate H|].
    destruct (byteZ c =? 34); [|discriminate H].
    destruct (json.scanString r) as [[key r1]|] eqn:Es; [|discriminate H].
    apply length_scanString in Es.
    pose proof (length_skipSpace r1) as Hsp1.
    destruct (json.skipSpace r1) as [|c1 r2]; [discriminate H|].
    destruct (byteZ c1 =? 58); [|discriminate H].
    pose proof (length_skipSpace r2) as Hsp2.
    destruct (json.parseValue fuel depth (json.skipSpace r2))
      as [[v r3]|] eqn:Ev; [|discriminate H].
    apply IHv in Ev.
    pose proof (length_skipSpace r3) as Hsp3.
    destruct (json.skipSpace r3) as [|c2 r4]; [discriminate H|].
    pose proof (length_skipSpace r4) as Hsp4.
    destruct (byteZ c2 =? 44).
    + destruct (json.parseMembers fuel depth (json.skipSpace r4))
        as [[ms' r5]|] eqn:Em; [|discriminate H].
      inversion H; subst. apply IHm in Em. cbn [String.length] in *. lia.
    + destruct (byteZ c2 =? 125); [|discriminate H].
      inversion H; subst. cbn [String.length] in *. lia.
  - intros depth s vs rest H. cbn [json.parseElements] in H.
    destruct (json.parseValue fuel depth s) as [[v r1]|] eqn:Ev;
      [|discriminate H].
    apply IHv in Ev.
    pose proof (length_skipSpace r1) as Hsp1.
    destruct (json.skipSpace r1) as [|c r2]; [discriminate H|].
    pose proof (length_skipSpace r2) as Hsp2.
    destruct (byteZ c =? 44).
    + destruct (json.parseElements fuel depth (json.skipSpace r2))
        as [[vs' r3]|] eqn:Ee; [|discriminate H].
      inversion H; subst. apply IHe in Ee. cbn [String.length] in *. lia.
    + destruct (byteZ c =? 93); [|discriminate H].
      inversion H; subst. cbn [String.length] in *. lia.
Qed.

(** Past twice the length of the input (and one more inside an array),
    more fuel changes nothing. *)
Lemma parse_fuel (n : nat) :
  (forall depth s m,
      (2 * String.length s <= n)%nat -> (n <= m)%nat ->
      json.parseValue m depth s = json.parseValue n depth s)
  /\ (forall depth s m,
         (2 * String.length s <= n)%nat -> (n <= m)%nat ->
         json.parseMembers m depth s = json.parseMembers n depth s)
  /\ (forall depth s m,
         (2 * String.length s + 1 <= n)%nat -> (n <= m)%nat ->
         json.parseElements m depth s = json.parseElements n depth s).
Proof.
  induction n as [|n (IHv & IHm & IHe)].
  - split; [|split]; intros depth s m Hs Hm.
    + destruct s; [|cbn [String.length] in Hs; lia]. now destruct m.
    + destruct s; [|cbn [String.length] in Hs; lia]. now destruct m.
    + lia.
  - split; [|split]; intros depth s m Hs Hm;
      (destruct m as [|m]; [lia|]); assert (Hm' : (n <= m)%nat) by lia.
    + cbn [json.parseValue]. destruct s as [|c r]; [reflexivity|].
      pose proof (length_skipSpace r) as Hsp. cbn [String.length] in Hs.
      rewrite (IHm (depth + 1) (json.skipSpace r) m) by lia.
      rewrite (IHe (depth + 1) (json.skipSpace r) m) by lia.
      reflexivity.
    + cbn [json.parseMembers]. destruct s as [|c r]; [reflexivity|].
      cbn [String.length] in Hs.
      destruct (byteZ c =? 34); [|reflexivity].
      destruct (json.scanString r) as [[key r1]|] eqn:Es; [|reflexivity].
      apply length_scanString in Es.
      pose proof (length_skipSpace r1) as Hsp1.
      destruct (json.skipSpace r1) as [|c1 r2]; [reflexivity|].
      cbn [String.length] in Hsp1.
      destruct (byteZ c1 =? 58); [|reflexivity].
      pose proof (length_skipSpace r2) as Hsp2.
      rewrite (IHv depth (json.skipSpace r2) m) by lia.
      destruct (json.parseValue n depth (json.skipSpace r2))
        as [[v r3]|] eqn:Ev; [|reflexivity].
      apply (proj1 (length_parse n)) in Ev.
      pose proof (length_skipSpace r3) as Hsp3.
      destruct (json.skipSpace r3) as [|c2 r4]; [reflexivity|].
      cbn [String.length] in Hsp3.
      pose proof (length_skipSpace r4) as Hsp4.
      rewrite (IHm depth (json.skipSpace r4) m) by lia.
      reflexivity.
    + cbn [json.parseElements].
      rewrite (IHv depth s m) by lia.
      destruct (json.parseValue n depth s) as [[v r1]|] eqn:Ev; [|reflexivity].
      apply (proj1 (length_parse n)) in Ev.
      pose proof (length_skipSpace r1) as Hsp1.
      destruct (json.skipSpace r1) as [|c r2]; [reflexivity|].
      cbn [String.length] in Hsp1.
      pose proof (length_skipSpace r2) as Hsp2.
      rewrite (IHe depth (json.skipSpace r2) m) by lia.
      reflexivity.
Qed.

(** The fuel [parse] gives the parser is enough for every input: no
    larger amount changes the result. *)
Lemma parse_fuel_enough (data : string) (more : nat) :
  json.parseValue (2 * String.length data + 2 + more) 0 (json.skipSpace data)
  = json.parseValue (2 * String.length data + 2) 0 (json.skipSpace data).
Proof.
  pose proof (length_skipSpace data).
  apply (proj1 (parse_fuel _)); lia.
Qed.

Lemma decode_size_pos (c : ascii) (r : string) :
  (1 <= snd (utf8.DecodeRuneInString (String c r)))%nat.
Proof.
  unfold utf8.DecodeRuneInString.
  repeat match goal with
         | |- context [match ?x with _ => _ end] => destruct x
         end; cbn [snd]; lia.
Qed.

Lemma length_skip_cons (k : nat) (c : ascii) (r : string) :
  (String.length (skip (S k) (String c r)) <= String.length r)%nat.
Proof. cbn [skip]. apply length_skip. Qed.

(** The fuel [scanString] gives the loop is enough: no larger amount
    changes the result. *)
Lemma unquoteLoop_fuel (n : nat) :
  forall s m, (String.length s <= n)%nat -> (n <= m)%nat ->
              json.unquoteLoop m s = json.unquoteLoop n s.
Proof.
  induction n as [|n IH]; intros s m Hs Hm.
  - destruct s; [|cbn [String.length] in Hs; lia]. now destruct m.
  - destruct m as [|m]; [lia|]. rewrite !unquoteLoop_step.
    destruct s as [|c r]; [reflexivity|]. cbn [String.length] in Hs.
    unfold unquoteStep.
    destruct (byteZ c =? 34); [reflexivity|].
    destruct (byteZ c =? 92).
    { destruct r as [|e r']; [reflexivity|]. cbn [String.length] in Hs.
      destruct (json.simpleEscape e).
      - rewrite (IH r' m) by lia. reflexivity.
      - destruct (byteZ e =? 117); [|reflexivity].
        destruct (json.getu4 (String c (String e r')) <? 0); [reflexivity|].
        pose proof (length_skip_cons 5 c (String e r')) as H6.
        pose proof (length_skip 6 (skip 6 (String c (String e r')))) as H12.
        cbn [String.length] in H6.
        rewrite (IH (skip 6 (String c (String e r'))) m) by lia.
        rewrite (IH (skip 6 (skip 6 (String c (String e r')))) m) by lia.
        reflexivity. }
    destruct (byteZ c <? 32); [reflexivity|].
    destruct (byteZ c <? utf8.RuneSelf).
    { rewrite (IH r m) by lia. reflexivity. }
    pose proof (decode_size_pos c r) as Hpos.
    destruct (utf8.DecodeRuneInString (String c r)) as [rr size].
    cbn [snd] in Hpos. destruct size as [|size]; [lia|].
    pose proof (length_skip_cons size c r).
    rewrite (IH (skip (S size) (String c r)) m) by lia. reflexivity.
Qed.

(** The fuel of the encoder's loop and of [ValidString] is enough as
    well. *)
Lemma appendStringLoop_fuel (n : nat) :
  forall s m, (String.length s <= n)%nat -> (n <= m)%nat ->
              json.appendStringLoop m s = json.appendStringLoop n s.
Proof.
  induction n as [|n IH]; intros s m Hs Hm.
  - destruct s; [|cbn [String.length] in Hs; lia]. now destruct m.
  - destruct m as [|m]; [lia|].
    destruct s as [|c r]; [reflexivity|]. cbn [String.length] in Hs.
    cbn [json.appendStringLoop].
    pose proof (decode_size_pos c r) as Hpos.
    destruct (utf8.DecodeRuneInString (String c r)) as [rr size].
    cbn [snd] in Hpos. destruct size as [|size]; [lia|].
    pose proof (length_skip_cons size c r).
    rewrite (IH r m) by lia.
    rewrite (IH (skip (S size) (String c r)) m) by lia. reflexivity.
Qed.

Lemma validLoop_fuel (n : nat) :
  forall s m, (String.length s <= n)%nat -> (n <= m)%nat ->
              utf8.validLoop m s = utf8.validLoop n s.
Proof.
  induction n as [|n IH]; intros s m Hs Hm.
  - destruct s; [|cbn [String.length] in Hs; lia]. now destruct m.
  - destruct m as [|m]; [lia|].
    destruct s as [|c r]; [reflexivity|]. cbn [String.length] in Hs.
    cbn [utf8.validLoop].
    pose proof (decode_size_pos c r) as Hpos.
    destruct (snd (utf8.DecodeRuneInString (String c r))) as [|size];
      [lia|].
    pose proof (length_skip_cons size c r).
    rewrite (IH (skip (S size) (String c r)) m) by lia. reflexivity.
Qed.

(** *** Keys *)

Lemma getField_setField_other (f g : field) (s : string) (d : CanvasData) :
  f <> g -> getField f (setField g s d) = getField f d.
Proof. destruct d, f, g; intros H; try reflexivity; congruence. Qed.

Lemma getField_setField_same (f : field) (s : string) (d : CanvasData) :
  getField f (setField f s d) = s.
Proof. destruct d, f; reflexivity. Qed.

Lemma storeField_other (f g : field) (v : json.Value)
      (st : CanvasData * option error) :
  f <> g -> getField f (fst (json.storeField g v st)) = getField f (fst st).
Proof.
  intros H. destruct st as [d e]. destruct v; cbn [json.storeField fst];
    try reflexivity. now apply getField_setField_other.
Qed.

(** A member whose key names no field changes nothing. *)
Lemma decodeMembers_unknown (ms1 ms2 : list (string * json.Value))
      (key : string) (v : json.Value) (st : CanvasData * option error) :
  json.findField key = None ->
  json.decodeMembers (ms1 ++ (key, v) :: ms2) st
  = json.decodeMembers (ms1 ++ ms2) st.
Proof.
  intros H. revert st. induction ms1 as [|[k w] ms1 IH]; intros st.
  - cbn [app json.decodeMembers]. now rewrite H.
  - cbn [app json.decodeMembers]. apply IH.
Qed.

(** A field that no member names keeps its value. *)
Lemma decodeMembers_missing (ms : list (string * json.Value)) (f : field)
      (st : CanvasData * option error) :
  (forall key v, In (key, v) ms -> json.findField key <> Some f) ->
  getField f (fst (json.decodeMembers ms st)) = getField f (fst st).
Proof.
  revert st. induction ms as [|[k w] ms IH]; intros st H; [reflexivity|].
  cbn [json.decodeMembers]. rewrite IH.
  - destruct (json.findField k) as [g|] eqn:E; [|reflexivity].
    apply storeField_other. intros ->. exact (H k w (or_introl eq_refl) E).
  - intros key v Hin. apply (H key v). now right.
Qed.

Lemma getCurrentData_fields (c : Canvas) (f : field) :
  getField f (getCurrentData c) = Text (entry f c).
Proof. destruct f; reflexivity. Qed.

(** C6, as stated, fails: a field that is not well-formed UTF-8 comes
    back with each offending byte replaced by U+FFFD, and a key other than
    the nine tags is not ignored when it is one of them up to case. *)
Lemma roundtrip_counterexample :
  json.Unmarshal (fst (json.MarshalIndent strayByteData "" "    "))
                 zeroCanvasData
  = (setField FKeyPartners (utf8.EncodeRune utf8.RuneError) zeroCanvasData,
     None)
  /\ fst (json.Unmarshal (fst (json.MarshalIndent strayByteData "" "    "))
                         zeroCanvasData)
     <> strayByteData
  /\ ~ In "KEYPARTNERS" (map tag allFields)
  /\ json.Unmarshal capitalKeyDocument zeroCanvasData
     = (setField FKeyPartners "x" zeroCanvasData, None).
Proof.
  split; [vm_compute; reflexivity|].
  split; [vm_compute; intros H; discriminate H|].
  split; [|vm_compute; reflexivity].
  vm_compute. intros H.
  repeat (destruct H as [H|H]; [discriminate H|]). exact H.
Qed.

(** C6 (amended): for every canvas record whose nine fields are
    well-formed UTF-8 (empty strings, white space, line breaks, quotes,
    control characters and non-ASCII text included), parsing what save
    serialized yields the same nine fields, and a load of the bytes a save
    wrote installs them as the live record. On parse, a member whose key
    names no field (none of the nine tags, exactly or up to case) is
    ignored, a field that no member names stays the empty string, and each
    tag names its own field. *)
Theorem save_load_roundtrip (d : CanvasData) :
  (forall f, utf8.ValidString (getField f d) = true) ->
  json.Unmarshal (fst (json.MarshalIndent d "" "    ")) zeroCanvasData
  = (d, None)
  /\ (forall c1 c2,
         getCurrentData c1 = d ->
         exists data,
           snd (saveCanvas (SaveTo None) c1)
           = [FileWrite data;
              ShowInformation "Success" "Canvas saved successfully"]
           /\ getCurrentData (fst (loadCanvas (OpenFrom (ReadOK data)) c2)) = d)
  /\ (forall data ms,
         json.parse data = Some (json.Object ms) ->
         json.Unmarshal data zeroCanvasData
         = json.decodeMembers ms (zeroCanvasData, None))
  /\ (forall ms1 ms2 key v st,
         json.findField key = None ->
         json.decodeMembers (ms1 ++ (key, v) :: ms2) st
         = json.decodeMembers (ms1 ++ ms2) st)
  /\ (forall ms f,
         (forall key v, In (key, v) ms -> json.findField key <> Some f) ->
         getField f (fst (json.decodeMembers ms (zeroCanvasData, None)))
         = EmptyString)
  /\ (forall f, json.findField (tag f) = Some f).
Proof.
  intros Hvalid.
  pose proof (Unmarshal_MarshalIndent d Hvalid) as Hrt.
  split; [exact Hrt|]. split; [|split; [|split; [|split]]].
  - intros c1 c2 Hd.
    exists (fst (json.MarshalIndent d "" "    ")).
    destruct (checkpoint_frame c1) as (_ & _ & Hlive & _).
    unfold saveCanvas, loadCanvas. cbv zeta. rewrite Hlive, Hd.
    cbn [json.MarshalIndent fst snd]. split; [reflexivity|].
    unfold json.MarshalIndent in Hrt. cbn [fst] in Hrt. rewrite Hrt.
    cbn [fst]. apply getCurrentData_installData.
  - intros data ms H. unfold json.Unmarshal. now rewrite H.
  - intros. now apply decodeMembers_unknown.
  - intros ms f H. rewrite decodeMembers_missing by exact H.
    now destruct f.
  - apply findField_tag.
Qed.

Lemma save_load_roundtrip_witness :
  json.Unmarshal (fst (json.MarshalIndent awkwardData "" "    "))
                 zeroCanvasData
  = (awkwardData, None).
Proof.
  apply (save_load_roundtrip awkwardData).
  intros f; destruct f; vm_compute; reflexivity.
Defined.

(** * Further properties

    What the code shows beyond the statements above: the display, the
    validation report, the walk along the history, the version dialog, the
    autosave switch, the clipboard, the theme, the tooltips, the labels of
    the export and the persisted document for arbitrary bytes. *)

(** ** The progress bar and the text styles *)

Local Open Scope Q_scope.

Lemma updateProgress_bar (c : Canvas) (s : Screen) :
  progressBar (updateProgress c s) = progressOf (filledCount c).
Proof.
  unfold updateProgress, countSection, filledCount, allFields.
  cbn [entry filter].
  destruct (0 <? len (Text (keyPartners c)))%Z,
           (0 <? len (Text (keyActivities c)))%Z,
           (0 <? len (Text (keyResources c)))%Z,
           (0 <? len (Text (valueProposition c)))%Z,
           (0 <? len (Text (customerRel c)))%Z,
           (0 <? len (Text (channels c)))%Z,
           (0 <? len (Text (customerSegments c)))%Z,
           (0 <? len (Text (costStructure c)))%Z,
           (0 <? len (Text (revenueStreams c)))%Z; reflexivity.
Qed.

Lemma countSection_style (f g : field) (c : Canvas) (st : float * Screen) :
  textStyle (snd (countSection f c st)) g
  = if field_eq_dec g f
    then mkTextStyle (len (Text (entry f c)) =? 0)%Z
    else textStyle (snd st) g.
Proof.
  destruct st as [x s]. unfold countSection, updateSectionColor, len.
  destruct (Text (entry f c)); cbn [Z.ltb Z.compare Z.of_nat String.length snd
                                    textStyle];
    destruct (field_eq_dec g f); reflexivity.
Qed.

Lemma updateProgress_style (c : Canvas) (s : Screen) (f : field) :
  Italic (textStyle (updateProgress c s) f) = (len (Text (entry f c)) =? 0)%Z.
Proof.
  unfold updateProgress. cbv zeta.
  repeat match goal with
         | |- context [let (_, _) := countSection ?g c ?st in _] =>
           rewrite (surjective_pairing (countSection g c st))
         end.
  cbn [textStyle].
  rewrite !countSection_style.
  destruct f;
    repeat match goal with
           | |- context [field_eq_dec ?a ?b] =>
             destruct (field_eq_dec a b); try discriminate; try congruence
           end; reflexivity.
Qed.

Lemma filledCount_le (c : Canvas) : (filledCount c <= 9)%nat.
Proof.
  unfold filledCount.
  etransitivity; [apply filter_length_le|]. reflexivity.
Qed.

(** X1: [updateProgress] sets the style of each of the nine entries by one
    test, whether its text is empty: italic if and only if it is, whatever
    the style was before. The value it gives the progress bar is the float64
    quotient of the number of entries that hold text by nine: within 2^-54
    of that fraction, zero exactly when every entry is empty and one exactly
    when none is. *)
Theorem updateProgress_shows_filled (c : Canvas) (s : Screen) :
  let s' := updateProgress c s in
  (forall f, Italic (textStyle s' f) = (len (Text (entry f c)) =? 0)%Z)
  /\ exists q,
       exactValue (progressBar s') = Some q
       /\ Qabs (q - inject_Z (Z.of_nat (filledCount c)) / 9) <= 1 # (2 ^ 54)
       /\ (q == 0 <-> filledCount c = 0%nat)
       /\ (q == 1 <-> filledCount c = 9%nat).
Proof.
  intros s'. split; [apply updateProgress_style|].
  unfold s'. rewrite updateProgress_bar.
  pose proof (filledCount_le c) as Hle.
  destruct (filledCount c) as [|[|[|[|[|[|[|[|[|[|k]]]]]]]]]]; [..|lia];
    (eexists; split; [vm_compute; reflexivity|]);
    (split; [apply Qabs_Qle_condition; split; vm_compute; discriminate|]);
    split; split; intros H; try reflexivity; try discriminate H;
      try (vm_compute in H; discriminate H).
Qed.

Local Close Scope Q_scope.

Lemma updateSectionColor_style (f g : field) (isValid : bool) (s : Screen) :
  textStyle (updateSectionColor f isValid s) g
  = if field_eq_dec g f then mkTextStyle (negb isValid) else textStyle s g.
Proof.
  unfold updateSectionColor. cbn [textStyle].
  destruct (field_eq_dec g f); [now destruct isValid|reflexivity].
Qed.

(** What the handler of field [f] finds: whether its section passes. *)
Lemma isValidLoop_threshold (f : field) (c : Canvas) :
  isValidLoop (sectionName f) (Validate NewBusinessValidator c)
  = match threshold f with
    | Some n => n <=? len (Text (entry f c))
    | None => true
    end.
Proof.
  rewrite Validate_filter. cbn [rules NewBusinessValidator filter Check].
  destruct (100 <=? len (Text (valueProposition c))) eqn:E1;
    destruct (50 <=? len (Text (customerSegments c))) eqn:E2;
    destruct (50 <=? len (Text (keyActivities c))) eqn:E3;
    destruct (50 <=? len (Text (costStructure c))) eqn:E4;
    destruct (50 <=? len (Text (revenueStreams c))) eqn:E5;
    destruct f; cbn [negb map threshold entry]; rewrite ?E1, ?E2, ?E3, ?E4, ?E5;
    reflexivity.
Qed.

(** X2: the handler that [setupDynamicValidation] installs on the entry of
    a section, under the name [initialize] gives it, sets that entry italic
    if and only if the section has a rule and its text is shorter in bytes
    than the rule's threshold (100 for the value proposition, 50 for
    customer segments, key activities, cost structure and revenue streams);
    an entry of a section without a rule is never set italic. The handler
    touches neither the style of another entry nor the progress bar. *)
Theorem onChanged_marks_short_sections (f : field) (c : Canvas) (s : Screen) :
  let s' := onChanged f (sectionName f) c s in
  Italic (textStyle s' f)
  = match threshold f with
    | Some n => len (Text (entry f c)) <? n
    | None => false
    end
  /\ (forall g, g <> f -> textStyle s' g = textStyle s g)
  /\ progressBar s' = progressBar s.
Proof.
  intros s'. unfold s', onChanged. split; [|split].
  - rewrite updateSectionColor_style, isValidLoop_threshold.
    destruct (field_eq_dec f f) as [_|H]; [|congruence]. cbn [Italic].
    destruct (threshold f); [|reflexivity].
    now rewrite Z.ltb_antisym.
  - intros g Hg. rewrite updateSectionColor_style.
    destruct (field_eq_dec g f); [congruence|reflexivity].
  - reflexivity.
Qed.

(** X3: the two places that set the text style disagree on a text that is
    not empty but below the threshold of its section: the handler of the
    entry sets it italic, and [updateProgress], which undo, redo, load,
    restore and the snapshot run afterwards, sets it back to the default
    style. *)
Theorem style_indicators_disagree (f : field) (n : Z) (c : Canvas) (s : Screen) :
  threshold f = Some n ->
  0 < len (Text (entry f c)) < n ->
  Italic (textStyle (onChanged f (sectionName f) c s) f) = true
  /\ Italic (textStyle (updateProgress c (onChanged f (sectionName f) c s)) f)
     = false.
Proof.
  intros Ht Hlen. split.
  - unfold onChanged.
    rewrite updateSectionColor_style, isValidLoop_threshold, Ht.
    destruct (field_eq_dec f f) as [_|H]; [|congruence]. cbn [Italic].
    apply negb_true_iff, Z.leb_gt. lia.
  - rewrite updateProgress_style. apply Z.eqb_neq. lia.
Qed.

Lemma style_indicators_disagree_witness :
  Italic (textStyle (onChanged FValueProposition "Value Proposition" shortPitch
                               plainScreen) FValueProposition) = true
  /\ Italic (textStyle
               (updateProgress shortPitch
                  (onChanged FValueProposition "Value Proposition" shortPitch
                             plainScreen)) FValueProposition) = false.
Proof.
  apply (style_indicators_disagree FValueProposition 100 shortPitch plainScreen).
  - reflexivity.
  - vm_compute. split; reflexivity.
Defined.

(** ** The validation report *)

Lemma report_concat (rs : list ValidationResult) (acc : string) :
  fold_left (fun message r => (message ++ resultLine r)%string) rs acc
  = (acc ++ String.concat "" (map resultLine rs))%string.
Proof.
  revert acc; induction rs as [|r rs IH]; intros acc; cbn [fold_left map].
  - cbn [String.concat]. now rewrite append_nil_r.
  - rewrite IH, append_assoc. f_equal.
    destruct rs as [|r' rs]; cbn [map String.concat].
    + now rewrite append_nil_r.
    + reflexivity.
Qed.

Lemma concat_app (l1 l2 : list string) :
  String.concat "" (l1 ++ l2)
  = (String.concat "" l1 ++ String.concat "" l2)%string.
Proof.
  induction l1 as [|a l1 IH]; [reflexivity|].
  destruct l1 as [|b l1].
  - cbn [app String.concat]. destruct l2; cbn [String.concat append];
      [now rewrite append_nil_r|reflexivity].
  - change ((a :: b :: l1) ++ l2) with (a :: (b :: l1) ++ l2).
    cbn [String.concat app] in *. rewrite IH. cbn [append].
    now rewrite !append_assoc.
Qed.

Lemma Validate_nil_iff (c : Canvas) :
  Validate NewBusinessValidator c = [] <-> meetsThresholds c.
Proof.
  unfold meetsThresholds. rewrite Validate_filter.
  cbn [rules NewBusinessValidator filter Check].
  destruct (Z.leb_spec 100 (len (Text (valueProposition c))));
    destruct (Z.leb_spec 50 (len (Text (customerSegments c))));
    destruct (Z.leb_spec 50 (len (Text (keyActivities c))));
    destruct (Z.leb_spec 50 (len (Text (costStructure c))));
    destruct (Z.leb_spec 50 (len (Text (revenueStreams c))));
    cbn [negb map]; split; intros Hres; try discriminate Hres;
    try reflexivity; try (repeat split; assumption); lia.
Qed.

(** A line of the report starts with the first byte of the bullet. *)
Lemma resultLine_head (r : ValidationResult) :
  exists tail, resultLine r = String (byteOf 0xE2) tail.
Proof. unfold resultLine. eexists. reflexivity. Qed.

(** X4: [validateCanvas] shows exactly one dialog, titled "Validation
    Results". Its text is "All sections look good!" if and only if the five
    thresholds are met; otherwise it is the lines of the failing rules, one
    after the other in rule order, each a bullet, the section, a colon, the
    message and a line break, so the line of every result is part of it. *)
Theorem validateCanvas_report (c : Canvas) :
  exists message,
    validateCanvas c = [ShowInformation "Validation Results" message]
    /\ (message = "All sections look good!" <-> meetsThresholds c)
    /\ (~ meetsThresholds c ->
        message
        = String.concat "" (map resultLine (Validate NewBusinessValidator c)))
    /\ (forall r, In r (Validate NewBusinessValidator c) ->
          exists before after,
            message = (before ++ resultLine r ++ after)%string).
Proof.
  unfold validateCanvas. rewrite report_concat. cbn [append].
  pose proof (Validate_nil_iff c) as Hnil.
  destruct (Validate NewBusinessValidator c) as [|r0 rs] eqn:E.
  - eexists. split; [reflexivity|]. split; [tauto|].
    split; [tauto|]. intros r [].
  - cbn [List.length Nat.ltb Nat.leb]. eexists. split; [reflexivity|].
    split; [|split].
    + split; [|intros H; apply Hnil in H; discriminate H]. intros H.
      destruct (resultLine_head r0) as (tail & Hhead).
      destruct rs; cbn [map String.concat] in H; rewrite Hhead in H;
        cbn [append] in H; discriminate H.
    + reflexivity.
    + intros r H. apply in_split in H. destruct H as (l1 & l2 & ->).
      rewrite map_app, concat_app. cbn [map].
      exists (String.concat "" (map resultLine l1)).
      exists (String.concat "" (map resultLine l2)).
      f_equal. destruct (map resultLine l2); cbn [String.concat append];
        [now rewrite append_nil_r|reflexivity].
Qed.

Lemma filter_length_mono {A : Type} (p q : A -> bool) (l : list A) :
  (forall x, In x l -> p x = true -> q x = true) ->
  (List.length (filter p l) <= List.length (filter q l))%nat.
Proof.
  induction l as [|a l IH]; intros H; [reflexivity|]. cbn [filter].
  assert (IH' : (List.length (filter p l) <= List.length (filter q l))%nat)
    by (apply IH; intros x Hx; apply H; now right).
  destruct (p a) eqn:Ep.
  - rewrite (H a (or_introl eq_refl) Ep). cbn [List.length]. lia.
  - destruct (q a); cbn [List.length]; lia.
Qed.

(** A rule that fails on the longer texts fails on the shorter ones. *)
Lemma Check_monotone (c1 c2 : Canvas) (rule : ValidationRule) :
  noShorter c1 c2 -> In rule (rules NewBusinessValidator) ->
  negb (Check rule c2) = true -> negb (Check rule c1) = true.
Proof.
  intros H Hin.
  pose proof (H FValueProposition) as H1. pose proof (H FCustomerSegments) as H2.
  pose proof (H FKeyActivities) as H3. pose proof (H FCostStructure) as H4.
  pose proof (H FRevenueStreams) as H5. cbn [entry] in *.
  cbn [rules NewBusinessValidator In] in Hin.
  repeat (destruct Hin as [<-|Hin];
          [ cbn [Check]; rewrite !negb_true_iff, !Z.leb_gt; lia | ]).
  destruct Hin.
Qed.

(** X5: if no entry of a session is shorter (in bytes) than in another,
    every result [Validate] returns for it is a result for the other one
    too, and there are no more of them: writing more never adds a
    complaint. *)
Theorem Validate_monotone (c1 c2 : Canvas) :
  noShorter c1 c2 ->
  incl (Validate NewBusinessValidator c2) (Validate NewBusinessValidator c1)
  /\ (List.length (Validate NewBusinessValidator c2)
      <= List.length (Validate NewBusinessValidator c1))%nat.
Proof.
  intros H. rewrite !Validate_filter. split.
  - intros r Hr. apply in_map_iff in Hr. destruct Hr as (rule & <- & Hr).
    apply filter_In in Hr. destruct Hr as (Hin & Hfail).
    apply in_map, filter_In. split; [exact Hin|].
    now apply (Check_monotone c1 c2).
  - rewrite !length_map. apply filter_length_mono.
    intros rule Hin. now apply Check_monotone.
Qed.

Lemma Validate_monotone_witness :
  (List.length (Validate NewBusinessValidator moreWritten)
   <= List.length (Validate NewBusinessValidator halfWritten))%nat.
Proof.
  apply (Validate_monotone halfWritten moreWritten).
  intros f; destruct f; vm_compute; discriminate.
Defined.

(** ** Undo and redo as moves on one line of records *)

Lemma redo_undo (c : Canvas) : undoStack c <> [] -> redo (undo c) = c.
Proof.
  intros Hne.
  destruct (undoStack c) as [|top u] eqn:E using rev_ind; [congruence|].
  clear IHu Hne.
  rewrite (undo_pop c u top E).
  destruct c as [[kp] [ka] [kr] [vp] [cr] [ch] [cs] [co] [rs] a l us r v].
  cbn [undoStack] in E. subst us.
  erewrite redo_pop.
  2:{ destruct top. reflexivity. }
  destruct top. reflexivity.
Qed.

Lemma undo_redo (c : Canvas) : redoStack c <> [] -> undo (redo c) = c.
Proof.
  intros Hne.
  destruct (redoStack c) as [|top r] eqn:E using rev_ind; [congruence|].
  clear IHr Hne.
  rewrite (redo_pop c r top E).
  destruct c as [[kp] [ka] [kr] [vp] [cr] [ch] [cs] [co] [rs] a l u rs' v].
  cbn [redoStack] in E. subst rs'.
  erewrite undo_pop.
  2:{ destruct top. reflexivity. }
  destruct top. reflexivity.
Qed.

Lemma undo_timeline (c : Canvas) : timeline (undo c) = timeline c.
Proof.
  unfold timeline. destruct (undoStack c) as [|top u] eqn:E using rev_ind.
  - now rewrite (undo_empty c E), E.
  - destruct (undo_top c u top E) as (-> & -> & -> & _).
    rewrite rev_app_distr, <- app_assoc. reflexivity.
Qed.

Lemma redo_timeline (c : Canvas) : timeline (redo c) = timeline c.
Proof.
  unfold timeline. destruct (redoStack c) as [|top r] eqn:E using rev_ind.
  - now rewrite (redo_empty c E), E.
  - destruct (redo_top c r top E) as (-> & -> & -> & _).
    rewrite rev_app_distr, <- app_assoc. reflexivity.
Qed.

Lemma undo_length (c : Canvas) :
  (List.length (undoStack (undo c)) = List.length (undoStack c) - 1)%nat.
Proof.
  destruct (undoStack c) as [|top u] eqn:E using rev_ind.
  - now rewrite (undo_empty c E), E.
  - destruct (undo_top c u top E) as (-> & _). rewrite length_app. simpl. lia.
Qed.

Lemma redo_length (c : Canvas) :
  (List.length (redoStack (redo c)) = List.length (redoStack c) - 1)%nat.
Proof.
  destruct (redoStack c) as [|top r] eqn:E using rev_ind.
  - now rewrite (redo_empty c E), E.
  - destruct (redo_top c r top E) as (-> & _). rewrite length_app. simpl. lia.
Qed.

(** The live record is the record of the line at the height of the undo
    stack. *)
Lemma live_at_cursor (c : Canvas) :
  nth (List.length (undoStack c)) (timeline c) zeroCanvasData
  = getCurrentData c.
Proof.
  unfold timeline. rewrite app_nth2 by lia. now rewrite Nat.sub_diag.
Qed.

(** X6: the undo stack from its bottom, the live record and the redo
    stack from its top form one line of records, and no sequence of undos
    and redos changes that line: none of them drops, copies or reorders a
    record. They only move the live position, which is the height of the
    undo stack. *)
Theorem timeline_invariant (uuidNew : nat -> string) (ops : list Op)
        (w : World) :
  forallb onlyMoves ops = true ->
  timeline (canvas (run uuidNew ops w)) = timeline (canvas w)
  /\ getCurrentData (canvas (run uuidNew ops w))
     = nth (List.length (undoStack (canvas (run uuidNew ops w))))
           (timeline (canvas w)) zeroCanvasData.
Proof.
  intros Hops.
  assert (H : timeline (canvas (run uuidNew ops w)) = timeline (canvas w)).
  { revert w. induction ops as [|op ops IH]; intros w; [reflexivity|].
    cbn [forallb] in Hops. apply andb_prop in Hops. destruct Hops as (Hop & Hops).
    cbn [run]. rewrite (IH Hops).
    destruct op; try discriminate Hop; cbn [step canvas].
    - apply undo_timeline.
    - apply redo_timeline. }
  split; [exact H|]. rewrite <- H. symmetry. apply live_at_cursor.
Qed.

Lemma timeline_invariant_witness :
  timeline (canvas (run HexString.of_nat [OpUndo; OpUndo; OpRedo; OpUndo]
                        (mkWorld deepCanvas 0 [])))
  = [sampleData "one"; sampleData "two"; sampleData "three"; sampleData "four"].
Proof.
  destruct (timeline_invariant HexString.of_nat [OpUndo; OpUndo; OpRedo; OpUndo]
                               (mkWorld deepCanvas 0 [])) as (H & _).
  - reflexivity.
  - rewrite H. reflexivity.
Defined.

Lemma iter_undo_length (n : nat) (c : Canvas) :
  (List.length (undoStack (Nat.iter n undo c))
   = List.length (undoStack c) - n)%nat.
Proof.
  induction n as [|n IH]; [simpl; lia|].
  rewrite Nat.iter_succ, undo_length, IH. lia.
Qed.

Lemma iter_undo_timeline (n : nat) (c : Canvas) :
  timeline (Nat.iter n undo c) = timeline c.
Proof.
  induction n as [|n IH]; [reflexivity|].
  now rewrite Nat.iter_succ, undo_timeline.
Qed.

(** X7: with at least [n] records on the undo stack, [n] undos followed
    by [n] redos give back the session as it was, entries, stacks, versions
    and settings; and after [n >= 1] undos the live record is the record
    [n] places below the top of the original undo stack. *)
Theorem undo_walks_back (n : nat) (c : Canvas) :
  (n <= List.length (undoStack c))%nat ->
  Nat.iter n redo (Nat.iter n undo c) = c
  /\ (0 < n ->
      getCurrentData (Nat.iter n undo c)
      = nth (List.length (undoStack c) - n) (undoStack c) zeroCanvasData)%nat.
Proof.
  intros Hn. split.
  - induction n as [|n IH]; [reflexivity|].
    rewrite Nat.iter_succ_r, Nat.iter_succ.
    rewrite redo_undo; [apply IH; lia|].
    intros E. pose proof (iter_undo_length n c) as H. rewrite E in H.
    simpl in H. lia.
  - intros Hpos.
    rewrite <- live_at_cursor, iter_undo_length, iter_undo_timeline.
    unfold timeline. apply app_nth1. lia.
Qed.

Lemma undo_walks_back_witness :
  Nat.iter 3 redo (Nat.iter 3 undo deepCanvas) = deepCanvas
  /\ getCurrentData (Nat.iter 2 undo deepCanvas) = sampleData "two".
Proof.
  split.
  - apply (undo_walks_back 3 deepCanvas). simpl. lia.
  - apply (undo_walks_back 2 deepCanvas); simpl; lia.
Defined.

(** ** Restoring a version *)

Lemma restoreVersion_frame (v : Version) (c : Canvas) :
  let c' := fst (restoreVersion v c) in
  getCurrentData c' = Data v
  /\ undoStack c' = undoStack c ++ [getCurrentData c]
  /\ redoStack c' = redoStack c
  /\ versions c' = versions c
  /\ autoSave c' = autoSave c
  /\ lastSaved c' = lastSaved c.
Proof.
  intros c'. unfold c', restoreVersion. cbn [fst].
  rewrite getCurrentData_installData.
  destruct (installData_frame (Data v)
              (setUndoStack (undoStack c ++ [getCurrentData c]) c))
    as (-> & -> & -> & -> & ->).
  destruct c. repeat split; reflexivity.
Qed.

(** X8: [restoreVersion] pushes the live record onto the undo stack,
    installs the data of the version as the live record and shows one
    dialog, "Version restored successfully"; it leaves the redo stack, the
    version list, the autosave flag and the time of the last snapshot as
    they were. One undo right after it gives back the session as it was
    before, with the restored record on top of the redo stack. *)
Theorem restoreVersion_is_undoable (v : Version) (c : Canvas) :
  let c' := fst (restoreVersion v c) in
  snd (restoreVersion v c)
  = [ShowInformation "Success" "Version restored successfully"]
  /\ getCurrentData c' = Data v
  /\ undoStack c' = undoStack c ++ [getCurrentData c]
  /\ redoStack c' = redoStack c
  /\ versions c' = versions c
  /\ autoSave c' = autoSave c
  /\ lastSaved c' = lastSaved c
  /\ undo c' = setRedoStack (redoStack c ++ [Data v]) c.
Proof.
  intros c'. split; [reflexivity|].
  destruct (restoreVersion_frame v c) as (H1 & H2 & H3 & H4 & H5 & H6).
  fold c' in H1, H2, H3, H4, H5, H6.
  repeat (split; [assumption|]).
  rewrite (undo_pop c' _ _ H2), H3, H1.
  unfold c', restoreVersion. cbn [fst].
  destruct c as [[kp] [ka] [kr] [vp] [cr] [ch] [cs] [co] [rs] a l u r vs].
  destruct v as [i t [] cm]. reflexivity.
Qed.

(** ** The history dialog *)

Lemma items_map {A B : Type} (g : A -> B) (l : list A) (acc : list B) :
  fold_left (fun items x => items ++ [g x]) l acc = acc ++ map g l.
Proof.
  revert acc; induction l as [|x l IH]; intros acc; simpl.
  - now rewrite app_nil_r.
  - now rewrite IH, <- app_assoc.
Qed.

(** X9: when there are versions, [showVersionHistory] lists one line per
    version, line [id] being the formatted timestamp of version [id]; and
    whatever the session does while the dialog is open (edits, saves,
    further snapshots), confirming line [id] restores that very version:
    the index is in range and the live record becomes the data of the
    version whose timestamp the line shows. *)
Theorem history_selection_stable (Format : Time -> string)
        (uuidNew : nat -> string) (ops : list Op) (w : World)
        (items : list string) (id : nat) :
  showVersionHistory Format (canvas w) = inr items ->
  (id < List.length items)%nat ->
  List.length items = List.length (versions (canvas w))
  /\ exists version,
       nth_error (versions (canvas w)) id = Some version
       /\ nth_error items id = Some (Format (Timestamp version))
       /\ let c' := canvas (run uuidNew ops w) in
          onSelected id true c' = Some (restoreVersion version c')
          /\ getCurrentData (fst (restoreVersion version c')) = Data version.
Proof.
  intros Hshow Hid. unfold showVersionHistory in Hshow.
  destruct (List.length (versions (canvas w)) =? 0)%nat; [discriminate|].
  injection Hshow as <-. rewrite items_map in *. cbn [app] in *.
  rewrite length_map in *. split; [reflexivity|].
  destruct (nth_error (versions (canvas w)) id) as [version|] eqn:E.
  2:{ apply nth_error_None in E. lia. }
  exists version. split; [reflexivity|]. split.
  - rewrite nth_error_map, E. reflexivity.
  - cbv zeta. split.
    + unfold onSelected.
      destruct (run_versions_prefix uuidNew ops w) as (added & ->).
      rewrite nth_error_app1 by exact Hid. now rewrite E.
    + apply restoreVersion_frame.
Qed.

Lemma history_selection_stable_witness :
  exists version,
    nth_error (versions (canvas snapshotWorld)) 0 = Some version
    /\ Data version = sampleData "first"
    /\ getCurrentData
         (fst (restoreVersion version
                 (canvas (run HexString.of_nat laterOps snapshotWorld))))
       = sampleData "first".
Proof.
  destruct (history_selection_stable
              (fun t => HexString.of_Z t) HexString.of_nat laterOps
              snapshotWorld
              [HexString.of_Z startOfRun;
               HexString.of_Z (startOfRun + 5 * Minute)] 0)
    as (_ & version & Hv & _ & _ & Hd).
  - vm_compute. reflexivity.
  - simpl. lia.
  - exists version. split; [exact Hv|].
    assert (E : Data version = sampleData "first").
    { vm_compute in Hv. injection Hv as <-. reflexivity. }
    split; [exact E|]. now rewrite Hd.
Defined.

(** X10: [showVersionHistory] shows "No previous versions found", and no
    list, if and only if there is no version. The callback of the
    confirmation does nothing when the user declines, and an index beyond
    the stored versions would be a run-time panic. *)
Theorem history_empty_store (Format : Time -> string) (c : Canvas) :
  (versions c = [] <->
   showVersionHistory Format c
   = inl [ShowInformation "Version History" "No previous versions found"])
  /\ (forall id, (List.length (versions c) <= id)%nat ->
                 onSelected id true c = None)
  /\ (forall id, onSelected id false c = Some (c, [])).
Proof.
  split; [|split].
  - unfold showVersionHistory. destruct (versions c); simpl; split;
      intros H; try reflexivity; discriminate H.
  - intros id H. unfold onSelected.
    apply nth_error_None in H. now rewrite H.
  - reflexivity.
Qed.

(** ** Autosave switched off *)

Lemma step_autoSave (uuidNew : nat -> string) (op : Op) (w : World) :
  autoSave (canvas (step uuidNew op w))
  = match op with
    | OpSetAutoSave checked => checked
    | _ => autoSave (canvas w)
    end.
Proof.
  destruct w as [c n es].
  destruct op; unfold step; cbn [canvas uuidCalls effects].
  - apply (SetText_frame f s c).
  - destruct (undoStack c) as [|x l] eqn:E using rev_ind.
    + now rewrite undo_empty.
    + now destruct (undo_top c l x E) as (_ & _ & _ & _ & -> & _).
  - destruct (redoStack c) as [|x l] eqn:E using rev_ind.
    + now rewrite redo_empty.
    + now destruct (redo_top c l x E) as (_ & _ & _ & _ & -> & _).
  - unfold saveCanvas. destruct choice as [e| |[e|]]; cbn [canvas];
      try reflexivity; now destruct c.
  - unfold loadCanvas. destruct choice as [e| |[data|e]]; cbn [canvas];
      try reflexivity; [|now destruct c].
    destruct (json.Unmarshal data zeroCanvasData) as [d [e|]]; cbn [canvas].
    + now destruct c.
    + destruct (installData_frame d
                  (setUndoStack (undoStack c ++ [getCurrentData c]) c))
        as (_ & _ & _ & -> & _).
      now destruct c.
  - destruct (nth_error (versions c) id) as [v|]; [|reflexivity].
    cbn [canvas]. apply (restoreVersion_frame v c).
  - now destruct c.
  - reflexivity.
  - reflexivity.
  - unfold autoSaveTick.
    destruct (autoSave c && (5 * Minute <=? Since now (lastSaved c))) eqn:E;
      cbn [canvas]; [|reflexivity].
    unfold saveCurrentVersion. now destruct c.
Qed.

(** X11: as long as the autosave box stays unchecked, nothing is recorded:
    whatever else the session does, ticks of the timer included, the
    version list, the time of the last snapshot and the number of
    identifiers drawn stay as they were, and [autoSaveRoutine] leaves the
    session alone however often its ticker fires. *)
Theorem autosave_off_records_nothing (uuidNew : nat -> string)
        (ops : list Op) (w : World) :
  autoSave (canvas w) = false ->
  forallb leavesAutoSaveOff ops = true ->
  versions (canvas (run uuidNew ops w)) = versions (canvas w)
  /\ lastSaved (canvas (run uuidNew ops w)) = lastSaved (canvas w)
  /\ uuidCalls (run uuidNew ops w) = uuidCalls w
  /\ forall firings, autoSaveRoutine firings (canvas w) = canvas w.
Proof.
  intros Hoff Hops. split; [|split; [|split]].
  4:{ intros firings. unfold autoSaveRoutine.
      induction firings as [|f fs IH]; [reflexivity|].
      cbn [fold_left]. unfold autoSaveTick at 2. rewrite Hoff. exact IH. }
  all: revert w Hoff; induction ops as [|op ops IH]; intros w Hoff;
    [reflexivity|]; cbn [forallb] in Hops; apply andb_prop in Hops;
    destruct Hops as (Hop & Hops); cbn [run];
    (rewrite IH;
     [| exact Hops
      | rewrite step_autoSave; destruct op; try exact Hoff;
        cbn [leavesAutoSaveOff] in Hop; now destruct checked ]).
  - destruct (step_versions uuidNew op w) as (-> & _).
    destruct op; cbn [appended]; rewrite ?app_nil_r; try reflexivity.
    unfold autoSaveDue. rewrite Hoff. cbn [andb]. now rewrite app_nil_r.
  - rewrite step_lastSaved. destruct op; try reflexivity.
    unfold autoSaveDue. now rewrite Hoff.
  - destruct (step_versions uuidNew op w) as (_ & ->).
    destruct op; cbn [appended List.length]; try lia.
    unfold autoSaveDue. rewrite Hoff. cbn [andb List.length]. lia.
Qed.

Lemma autosave_off_records_nothing_witness :
  versions (canvas (run HexString.of_nat
                        (OpEdit FChannels "retail" :: regularTicks Minute 60)
                        switchedOff)) = [].
Proof.
  destruct (autosave_off_records_nothing HexString.of_nat
              (OpEdit FChannels "retail" :: regularTicks Minute 60)
              switchedOff) as (H & _).
  - reflexivity.
  - vm_compute. reflexivity.
  - exact H.
Defined.

(** ** The first firing of the ticker *)

(** X12: in a session started by [main], whatever the user does before the
    ticker first fires (short of touching the autosave box), no version
    exists and the time of the last snapshot is still the zero time; so the
    first firing, at any instant five minutes or more after the zero time,
    takes a snapshot: one version, with the first identifier drawn, of the
    live record at that moment. *)
Theorem first_tick_snapshots (uuidNew : nat -> string) (ops : list Op)
        (now stamp saved : Time) :
  forallb beforeFirstTick ops = true ->
  5 * Minute <= now ->
  let w := run uuidNew ops newWorld in
  versions (canvas w) = []
  /\ lastSaved (canvas w) = zeroTime
  /\ versions (canvas (step uuidNew (OpTick now stamp saved) w))
     = [ {| ID := uuidNew 0%nat; Timestamp := stamp;
            Data := getCurrentData (canvas w); Comments := [] |} ]
  /\ lastSaved (canvas (step uuidNew (OpTick now stamp saved) w)) = saved.
Proof.
  intros Hops Hnow w.
  assert (H : versions (canvas w) = [] /\ lastSaved (canvas w) = zeroTime
              /\ autoSave (canvas w) = true /\ uuidCalls w = 0%nat).
  { unfold w. clear w.
    assert (G : forall w0,
               versions (canvas w0) = [] /\ lastSaved (canvas w0) = zeroTime
               /\ autoSave (canvas w0) = true /\ uuidCalls w0 = 0%nat ->
               versions (canvas (run uuidNew ops w0)) = []
               /\ lastSaved (canvas (run uuidNew ops w0)) = zeroTime
               /\ autoSave (canvas (run uuidNew ops w0)) = true
               /\ uuidCalls (run uuidNew ops w0) = 0%nat).
    { induction ops as [|op ops IH]; intros w0 Hw0; [exact Hw0|].
      cbn [forallb] in Hops. apply andb_prop in Hops.
      destruct Hops as (Hop & Hops). cbn [run]. apply (IH Hops).
      destruct Hw0 as (Hv & Hl & Ha & Hu).
      rewrite step_lastSaved, step_autoSave.
      destruct (step_versions uuidNew op w0) as (-> & ->).
      rewrite Hv, Hu.
      destruct op; try discriminate Hop; cbn [appended app List.length];
        auto. }
    apply G. repeat split; reflexivity. }
  destruct H as (Hv & Hl & Ha & Hu).
  split; [exact Hv|]. split; [exact Hl|].
  assert (Hdue : autoSaveDue now (canvas w) = true).
  { unfold autoSaveDue. rewrite Ha, Hl, Since_interval. cbn [andb].
    apply Z.leb_le. unfold zeroTime. lia. }
  rewrite step_lastSaved, Hdue.
  destruct (step_versions uuidNew (OpTick now stamp saved) w) as (-> & _).
  cbn [appended]. rewrite Hdue, Hv, Hu. split; reflexivity.
Qed.

Lemma first_tick_snapshots_witness :
  map Data
      (versions
         (canvas (run HexString.of_nat
                      [OpEdit FKeyPartners "draft"; OpSave (SaveTo None);
                       OpUndo; OpTick startOfRun startOfRun startOfRun]
                      newWorld)))
  = [sampleData "draft"].
Proof.
  destruct (first_tick_snapshots HexString.of_nat
              [OpEdit FKeyPartners "draft"; OpSave (SaveTo None); OpUndo]
              startOfRun startOfRun startOfRun) as (_ & _ & H & _).
  - reflexivity.
  - vm_compute. discriminate.
  - change (run HexString.of_nat
              [OpEdit FKeyPartners "draft"; OpSave (SaveTo None); OpUndo;
               OpTick startOfRun startOfRun startOfRun] newWorld)
      with (step HexString.of_nat (OpTick startOfRun startOfRun startOfRun)
              (run HexString.of_nat
                 [OpEdit FKeyPartners "draft"; OpSave (SaveTo None); OpUndo]
                 newWorld)).
    rewrite H. reflexivity.
Defined.

(** ** What the history records *)

Lemma step_offTheRecord (uuidNew : nat -> string) (op : Op) (w : World) :
  offTheRecord op = true ->
  undoStack (canvas (step uuidNew op w)) = undoStack (canvas w)
  /\ redoStack (canvas (step uuidNew op w)) = redoStack (canvas w).
Proof.
  intros Hop. split.
  - destruct w as [c n es].
    destruct op; try discriminate Hop; unfold step;
      cbn [canvas uuidCalls effects].
    + apply (SetText_frame f s c).
    + destruct choice; try discriminate Hop; reflexivity.
    + destruct choice; try discriminate Hop; reflexivity.
    + now destruct c.
    + reflexivity.
    + reflexivity.
    + unfold autoSaveTick, saveCurrentVersion.
      destruct (autoSave c && (5 * Minute <=? Since now (lastSaved c)));
        now destruct c.
  - apply redoStack_unchanged; intros ->; discriminate Hop.
Qed.

(** X20: typing is never recorded in the history. Edits, the settings,
    validation, export, the ticks of the timer and a save or load whose
    dialog is cancelled or fails leave both stacks as they are; so in a
    session whose undo stack is empty, as the one [main] starts, undo does
    nothing however much was typed, and likewise redo. *)
Theorem edits_are_off_the_record (uuidNew : nat -> string) (ops : list Op)
        (w : World) :
  forallb offTheRecord ops = true ->
  undoStack (canvas (run uuidNew ops w)) = undoStack (canvas w)
  /\ redoStack (canvas (run uuidNew ops w)) = redoStack (canvas w)
  /\ (undoStack (canvas w) = [] ->
      undo (canvas (run uuidNew ops w)) = canvas (run uuidNew ops w))
  /\ (redoStack (canvas w) = [] ->
      redo (canvas (run uuidNew ops w)) = canvas (run uuidNew ops w)).
Proof.
  intros Hops.
  assert (H : undoStack (canvas (run uuidNew ops w)) = undoStack (canvas w)
              /\ redoStack (canvas (run uuidNew ops w)) = redoStack (canvas w)).
  { revert w. induction ops as [|op ops IH]; intros w; [split; reflexivity|].
    cbn [forallb] in Hops. apply andb_prop in Hops.
    destruct Hops as (Hop & Hops). cbn [run].
    destruct (IH Hops (step uuidNew op w)) as (-> & ->).
    now apply step_offTheRecord. }
  destruct H as (Hu & Hr). split; [exact Hu|]. split; [exact Hr|]. split.
  - intros E. apply undo_empty. now rewrite Hu.
  - intros E. apply redo_empty. now rewrite Hr.
Qed.

Lemma edits_are_off_the_record_witness :
  undo (canvas (run HexString.of_nat typing newWorld))
  = canvas (run HexString.of_nat typing newWorld).
Proof.
  destruct (edits_are_off_the_record HexString.of_nat typing newWorld)
    as (_ & _ & H & _).
  - reflexivity.
  - apply H. reflexivity.
Defined.

(** X21: an undo right after a save, whether the write succeeded or not,
    changes no entry: the checkpoint the save pushed is the live record, so
    the undo only moves it to the redo stack and puts the undo stack back
    as it was before the save. It takes a second undo to reach the record
    that one undo would have reached before the save. *)
Theorem undo_after_save (c : Canvas) (w : option error) :
  let c' := fst (saveCanvas (SaveTo w) c) in
  undo c' = setRedoStack (redoStack c ++ [getCurrentData c]) c
  /\ (forall f, entry f (undo c') = entry f c)
  /\ undoStack (undo c') = undoStack c
  /\ getCurrentData (undo (undo c')) = getCurrentData (undo c).
Proof.
  intros c'.
  assert (Hc : c' = setUndoStack (undoStack c ++ [getCurrentData c]) c).
  { unfold c', saveCanvas. cbn [json.MarshalIndent]. now destruct w. }
  assert (Hu : undo c' = setRedoStack (redoStack c ++ [getCurrentData c]) c).
  { rewrite Hc. erewrite undo_pop; [|now destruct c].
    destruct c as [[kp] [ka] [kr] [vp] [cr] [ch] [cs] [co] [rs] a l u r vs].
    reflexivity. }
  rewrite Hu. split; [reflexivity|]. split; [|split].
  - intros f. destruct c, f; reflexivity.
  - now destruct c.
  - destruct (undoStack c) as [|top u] eqn:E using rev_ind.
    + rewrite (undo_empty c E), undo_empty; now destruct c.
    + destruct (undo_top c u top E) as (_ & _ & -> & _).
      destruct (undo_top (setRedoStack (redoStack c ++ [getCurrentData c]) c)
                         u top) as (_ & _ & -> & _); [|reflexivity].
      destruct c. exact E.
Qed.

(** ** The clipboard *)

Lemma SetText_same (f : field) (c : Canvas) (s : string) :
  SetText f (Text (entry f c)) (SetText f s c) = c.
Proof.
  destruct c as [[kp] [ka] [kr] [vp] [cr] [ch] [cs] [co] [rs] a l u r v].
  destruct f; reflexivity.
Qed.

Lemma entry_SetText (f g : field) (s : string) (c : Canvas) :
  entry g (SetText f s c) = if field_eq_dec g f then mkEntry s else entry g c.
Proof.
  destruct c. destruct f, g; reflexivity.
Qed.

(** X13: with an entry in focus, the handler of Ctrl+X empties that entry
    and leaves its text on the clipboard; the handler of Ctrl+V run right
    after it puts the text back, so that the session and the focus are as
    before the cut. A paste after a copy changes nothing. *)
Theorem cut_then_paste_restores (d : Desk) (text : string) :
  focusedText d = Some text ->
  focusedText (cutShortcut d) = Some ""
  /\ clipboard (cutShortcut d) = text
  /\ session (pasteShortcut (cutShortcut d)) = session d
  /\ focused (pasteShortcut (cutShortcut d)) = focused d
  /\ clipboard (pasteShortcut (cutShortcut d)) = text
  /\ pasteShortcut (copyShortcut d) = copyShortcut d.
Proof.
  destruct d as [c fo cl lg]. unfold focusedText, cutShortcut, pasteShortcut,
    copyShortcut. cbn [focused session clipboard errorLog].
  destruct fo as [f|[e]|]; intros H; [| |discriminate H];
    injection H as <-; cbn [focused session clipboard errorLog Text].
  - rewrite SetText_same. rewrite entry_SetText.
    destruct (field_eq_dec f f); [|congruence].
    repeat split; try reflexivity.
    f_equal. destruct c as [[kp] [ka] [kr] [vp] [cr] [ch] [cs] [co] [rs] a l u r v].
    destruct f; reflexivity.
  - repeat split; reflexivity.
Qed.

Lemma cut_then_paste_restores_witness :
  Text (keyPartners (session (cutShortcut typingDesk))) = ""
  /\ clipboard (cutShortcut typingDesk) = "live"
  /\ session (pasteShortcut (cutShortcut typingDesk)) = sampleCanvas.
Proof.
  destruct (cut_then_paste_restores typingDesk "live") as (_ & H1 & H2 & _).
  - reflexivity.
  - split; [reflexivity|]. split; [exact H1|exact H2].
Defined.

(** X14: none of the three clipboard handlers touches the undo stack, the
    redo stack, the versions or the autosave settings (so a cut or a paste
    is no step of the history), nor any entry but the focused one; copy
    leaves the whole session alone; paste replaces the whole text of the
    focused entry by the clipboard content. Without an entry in focus a
    handler changes neither session nor clipboard and logs one error. *)
Theorem clipboard_shortcuts_frame (d : Desk) :
  Forall
    (fun shortcut : Desk -> Desk =>
       undoStack (session (shortcut d)) = undoStack (session d)
       /\ redoStack (session (shortcut d)) = redoStack (session d)
       /\ versions (session (shortcut d)) = versions (session d)
       /\ autoSave (session (shortcut d)) = autoSave (session d)
       /\ lastSaved (session (shortcut d)) = lastSaved (session d)
       /\ (forall g, focused d <> FocusSection g ->
                     entry g (session (shortcut d)) = entry g (session d))
       /\ match focused d with
          | FocusNone =>
            session (shortcut d) = session d
            /\ clipboard (shortcut d) = clipboard d
            /\ List.length (errorLog (shortcut d))
               = S (List.length (errorLog d))
          | _ => errorLog (shortcut d) = errorLog d
          end)
    [copyShortcut; pasteShortcut; cutShortcut]
  /\ session (copyShortcut d) = session d
  /\ focusedText (pasteShortcut d)
     = match focusedText d with
       | Some _ => Some (clipboard d)
       | None => None
       end.
Proof.
  destruct d as [c fo cl lg].
  split; [|split].
  - repeat constructor;
      unfold copyShortcut, pasteShortcut, cutShortcut;
      cbn [focused session clipboard errorLog];
      destruct fo as [f|e|]; cbn [focused session clipboard errorLog];
      try reflexivity; try apply (SetText_frame f _ c);
      try (intros g Hg; try reflexivity; rewrite entry_SetText;
           destruct (field_eq_dec g f); [congruence|reflexivity]);
      try (repeat split; try reflexivity; rewrite length_app; simpl; lia).
  - unfold copyShortcut. cbn [focused]. destruct fo; reflexivity.
  - unfold pasteShortcut, focusedText. cbn [focused session clipboard].
    destruct fo as [f|e|]; cbn [focused session Text]; try reflexivity.
    rewrite entry_SetText. destruct (field_eq_dec f f); [reflexivity|congruence].
Qed.

(** ** The theme *)

(** X15: the toolbar's theme toggle does what choosing the other option in
    the settings does: from "professional" it sets "light" with the light
    theme, from any other value "professional" with the dark theme; so
    after the first toggle, toggles alternate between the two. The selector
    sets "professional" and the dark theme for "Professional (Dark)",
    "light" and the light theme for "Light", and changes nothing for any
    other name. *)
Theorem theme_toggle_alternates (l : Look) :
  themeToggle l
  = (if String.eqb (currentTheme l) "professional"
     then themeSelect "Light" l
     else themeSelect "Professional (Dark)" l)
  /\ themeToggle (themeToggle (themeToggle l)) = themeToggle l
  /\ themeSelect "Professional (Dark)" l = mkLook "professional" (Some DarkTheme)
  /\ themeSelect "Light" l = mkLook "light" (Some LightTheme)
  /\ (forall selected,
         themeSelect selected l
         = if String.eqb "Professional (Dark)" selected
           then mkLook "professional" (Some DarkTheme)
           else if String.eqb "Light" selected
                then mkLook "light" (Some LightTheme)
                else l)
  /\ themeToggle newLook = mkLook "light" (Some LightTheme).
Proof.
  unfold themeToggle, themeSelect. cbn [selectLoop themeOptions currentTheme].
  destruct (String.eqb (currentTheme l) "professional");
    repeat split; reflexivity.
Qed.

(** ** The tooltip *)

Lemma handle_snoc {Position : Type} (events : list (MouseEvent Position))
      (ev : MouseEvent Position) (h : HoverableRect Position) :
  fold_left handle (events ++ [ev]) h = handle (fold_left handle events h) ev.
Proof. now rewrite fold_left_app. Qed.

(** X16: for every sequence of pointer events on the hover area of a
    section, the pop-up exists if and only if the pointer has entered at
    least once; its text is the tooltip the area was made with; it is on
    screen exactly when the pointer has entered and not left since, at the
    position where it last entered (moving inside the area does not move
    it). *)
Theorem tooltip_follows_pointer {Position : Type}
        (events : list (MouseEvent Position)) (text : string) :
  let h := fold_left handle events (NewHoverableRect text) in
  tooltip h = text
  /\ match popup h with
     | None => everEntered events = false
     | Some p =>
       everEntered events = true
       /\ popupText p = text
       /\ visible p = match pointerInside events with
                    | Some _ => true
                    | None => false
                    end
       /\ (visible p = true -> shownAt p = pointerInside events)
     end.
Proof.
  induction events as [|ev events IH] using rev_ind; [simpl; auto|].
  rewrite handle_snoc. cbv zeta in IH.
  destruct IH as (Ht & Hp).
  unfold everEntered, pointerInside in *.
  rewrite existsb_app, fold_left_app. cbn [existsb fold_left].
  destruct (fold_left handle events (NewHoverableRect text)) as [p t].
  cbn [tooltip popup] in *. subst t.
  destruct ev as [e| |e]; unfold handle, MouseIn, MouseOut, MouseMoved;
    cbn [popup tooltip popupText shownAt visible].
  - split; [reflexivity|]. rewrite orb_true_r.
    destruct p as [p|]; cbn [popupText]; [destruct Hp as (_ & -> & _)|]; auto.
  - destruct p as [p|]; cbn [popup tooltip popupText shownAt visible];
      [|now rewrite orb_false_r].
    destruct Hp as (-> & -> & _). split; [reflexivity|].
    repeat split; try reflexivity. discriminate.
  - split; [reflexivity|]. rewrite orb_false_r. exact Hp.
Qed.

(** ** The labels of the export *)

Lemma export_titlePoints (c : Canvas) :
  titlePoints (exportDocument c) = exportTitlePoints.
Proof. vm_compute. reflexivity. Qed.

Lemma export_textColumns (c : Canvas) :
  textColumns (exportDocument c) = exportTextColumns.
Proof. vm_compute. reflexivity. Qed.

(** X17: the export prints nine titles, the names of the nine sections in
    the order of the fields (the names [initialize] validates them under),
    and lays out nine texts, those of the nine entries in the same order.
    In each rectangle the title is printed 5 to the right of and 10 below
    the corner and the text column starts 5 to the right of and 15 below it
    (up to 2^-44 in the vertical, for the rounding of the coordinates),
    both inside the rectangle, and the column is 10 narrower than the
    rectangle, so it ends 5 short of its right edge. *)
Theorem export_sections_labelled (c : Canvas) :
  let doc := exportDocument c in
  titles doc = map sectionName allFields
  /\ bodies doc = map (fun f => Text (entry f c)) allFields
  /\ Forall2 titleInCell (titlePoints doc) (rectangles doc)
  /\ Forall2 columnInCell (textColumns doc) (rectangles doc).
Proof.
  intros doc. unfold doc.
  split; [reflexivity|]. split; [reflexivity|].
  rewrite export_titlePoints, export_textColumns, export_rectangles.
  unfold exportCells, exportTitlePoints, exportTextColumns.
  split; cellwise.
Qed.

(** ** The persisted document for arbitrary bytes *)

Lemma unquoteStep_replacement (k : string -> option (string * string))
      (tail : string) :
  unquoteStep k
    (String json.backslash
       (String "u" (String "f" (String "f" (String "f" (String "d" tail))))))
  = json.prepend (utf8.EncodeRune utf8.RuneError) (k tail).
Proof. vm_compute. reflexivity. Qed.

Lemma illFormedHead (s : string) (r : Z) (n : nat) :
  utf8.DecodeRuneInString s = (r, n) ->
  utf8.wellFormedHead s = false ->
  r = utf8.RuneError /\ n = 1%nat.
Proof.
  intros Hd Hw. unfold utf8.wellFormedHead in Hw. rewrite Hd in Hw.
  apply negb_false_iff, andb_prop in Hw. destruct Hw as (H1 & H2).
  apply Z.eqb_eq in H1. apply Nat.eqb_eq in H2. now split.
Qed.

(** The decoder reads back what the encoder wrote for any text: the text
    with its stray bytes replaced. *)
Lemma unquote_appendStringLoop_any (fuel1 : nat) :
  forall s, (String.length s <= fuel1)%nat ->
  forall fuel2 rest,
    (String.length (json.appendStringLoop fuel1 s) < fuel2)%nat ->
    json.unquoteLoop fuel2
      (json.appendStringLoop fuel1 s ++ String json.dquote rest)
    = Some (replaceInvalidLoop fuel1 s, rest).
Proof.
  induction fuel1 as [|fuel1 IH]; intros s Hlen fuel2 rest Hfuel.
  - destruct s; [|simpl in Hlen; lia]. simpl.
    destruct fuel2; [simpl in Hfuel; lia|]. reflexivity.
  - destruct s as [|c s'].
    { simpl. destruct fuel2; [simpl in Hfuel; lia|]. reflexivity. }
    destruct (utf8.DecodeRuneInString (String c s')) as [r n] eqn:Hd.
    destruct fuel2 as [|fuel2]; [lia|].
    rewrite unquoteLoop_step.
    cbn [json.appendStringLoop replaceInvalidLoop] in *. rewrite Hd in *.
    pose proof (byteZ_range c) as Hb.
    destruct (utf8.wellFormedHead (String c s')) eqn:Hhead.
    + destruct (decode_wellformed _ _ _ Hd Hhead ltac:(discriminate))
        as (Henc & Hpre & Hskip & Hsplit & Hn & Hlt & Hr).
      cbn [headByte] in Hr.
      assert (Hrest : (String.length (skip n (String c s')) <= fuel1)%nat).
      { rewrite <- Hsplit in Hlen. rewrite length_append, Hlt in Hlen. lia. }
      assert (Hne : (r =? utf8.RuneError) && (n =? 1)%nat = false).
      { unfold utf8.wellFormedHead in Hhead. rewrite Hd in Hhead.
        now apply negb_true_iff in Hhead. }
      rewrite Hne in *.
      unfold utf8.RuneSelf in *.
      destruct (Z.ltb_spec (byteZ c) 128) as [Hascii|Hmulti].
      * rewrite decode_ascii in Hd by exact Hascii.
        apply pair_equal_spec in Hd. destruct Hd as [<- <-].
        cbn [skip take append] in *.
        destruct (json.htmlSafeSet (byteZ c)) eqn:Hsafe.
        -- cbn [append String.length] in *.
           unfold json.htmlSafeSet in Hsafe.
           apply andb_prop in Hsafe. destruct Hsafe as (Hsafe & Hnot).
           apply andb_prop in Hsafe. destruct Hsafe as (Hge & _).
           apply Z.leb_le in Hge. apply negb_true_iff in Hnot.
           repeat (apply orb_false_elim in Hnot; destruct Hnot as (Hnot & ?)).
           unfold unquoteStep.
           replace (byteZ c =? 34) with false by (symmetry; assumption).
           replace (byteZ c =? 92) with false by (symmetry; assumption).
           destruct (Z.ltb_spec (byteZ c) 32); [lia|].
           unfold utf8.RuneSelf.
           destruct (Z.ltb_spec (byteZ c) 128); [|lia].
           rewrite IH; [reflexivity|assumption|lia].
        -- rewrite append_assoc, unquoteStep_escape.
           2:{ apply andb_true_intro. split; [apply Z.ltb_lt; lia|].
               now rewrite Hsafe. }
           rewrite IH; [reflexivity|assumption|].
           rewrite length_append in Hfuel. pose proof (length_escape c). lia.
      * specialize (Hr ltac:(lia)).
        destruct ((r =? 8232) || (r =? 8233)) eqn:Hsep.
        -- rewrite append_assoc. cbn [append].
           rewrite unquoteStep_separator.
           2:{ apply orb_prop in Hsep. destruct Hsep as [H|H];
                 apply Z.eqb_eq in H; lia. }
           rewrite IH; [|assumption|].
           ++ rewrite prepend_Some, Henc. reflexivity.
           ++ rewrite length_append in Hfuel. cbn [String.length] in Hfuel. lia.
        -- rewrite append_assoc.
           destruct n as [|n']; [lia|]. cbn [take append] in *.
           unfold unquoteStep.
           destruct (Z.eqb_spec (byteZ c) 34); [lia|].
           destruct (Z.eqb_spec (byteZ c) 92); [lia|].
           destruct (Z.ltb_spec (byteZ c) 32); [lia|].
           unfold utf8.RuneSelf.
           destruct (Z.ltb_spec (byteZ c) 128); [lia|].
           rewrite (Hpre _). rewrite (Hskip _).
           rewrite IH; [|assumption|].
           ++ rewrite prepend_Some, Henc. cbn [append]. reflexivity.
           ++ cbn [String.length] in Hfuel. rewrite length_append in Hfuel. lia.
    + destruct (illFormedHead _ _ _ Hd Hhead) as (-> & ->).
      assert (Hmulti : 128 <= byteZ c).
      { destruct (Z.ltb_spec (byteZ c) 128) as [Hascii|]; [|assumption].
        rewrite decode_ascii in Hd by exact Hascii.
        apply pair_equal_spec in Hd. destruct Hd as [Hd _].
        unfold utf8.RuneError in Hd. lia. }
      unfold utf8.RuneSelf in *.
      destruct (Z.ltb_spec (byteZ c) 128) as [|_]; [lia|].
      change ((utf8.RuneError =? utf8.RuneError) && (1 =? 1)%nat) with true in *.
      cbv iota in *. cbn [skip] in *.
      rewrite append_assoc. cbn [append].
      rewrite unquoteStep_replacement.
      rewrite IH; [reflexivity|cbn [String.length] in Hlen; lia|].
      rewrite length_append in Hfuel. cbn [String.length] in Hfuel. lia.
Qed.

Lemma scanString_appendString_any (s rest : string) :
  json.scanString (json.appendStringLoop (String.length s) s
                     ++ String json.dquote rest)
  = Some (replaceInvalid s, rest).
Proof.
  unfold json.scanString, replaceInvalid.
  apply unquote_appendStringLoop_any; [lia|].
  rewrite length_append. simpl. lia.
Qed.

Lemma parseMembers_indent_any (ms : list (string * string)) :
  ms <> [] ->
  forall fuel depth tail,
    (List.length ms < fuel)%nat ->
    json.parseMembers fuel depth
      (json.skipSpace
         (json.indentMembers "" "    " ms
          ++ String (ascii_of_nat 10) (String "}" tail)))
    = Some (readBack ms, tail).
Proof.
  induction ms as [|[k v] ms IH]; intros Hne fuel depth tail Hfuel;
    [congruence|].
  rewrite indentMembers_cons, skipSpace_indent.
  destruct fuel as [|[|fuel]]; cbn [List.length] in Hfuel; try lia.
  rewrite parseMembers_quote.
  rewrite scanString_appendString_any.
  change (json.skipSpace (String ":" ?x)) with (String ":" x).
  cbv beta iota.
  change (byteZ ":" =? 58) with true. cbv iota.
  match goal with
  | |- context [json.skipSpace (String " " (String json.dquote ?x))] =>
    change (json.skipSpace (String " " (String json.dquote x)))
      with (String json.dquote x)
  end.
  rewrite parseValue_quote.
  rewrite scanString_appendString_any.
  destruct ms as [|kv' ms'].
  - reflexivity.
  - change (json.skipSpace (String "," ?x)) with (String "," x).
    cbv beta iota. change (byteZ "," =? 44) with true. cbv iota.
    rewrite IH; [reflexivity|discriminate|].
    cbn [List.length] in *. lia.
Qed.

Lemma parse_indentObject_any (ms : list (string * string)) :
  ms <> [] ->
  json.parse (json.indentObject "" "    " ms)
  = Some (json.Object (readBack ms)).
Proof.
  intros Hne. unfold json.parse, json.indentObject.
  destruct ms as [|[k v] ms]; [congruence|].
  set (members := (k, v) :: ms) in *.
  unfold json.newline. cbn [append].
  change (json.skipSpace (String "{" ?x)) with (String "{" x).
  pose proof (length_indentMembers members) as Hlen.
  match goal with
  | |- context [json.parseValue (2 * ?len + 2)%nat] =>
    assert (Hfuel : exists f, (2 * len + 2)%nat = S f
                              /\ (List.length members < f)%nat)
      by (exists (2 * len + 1)%nat; split; [lia|];
          cbn [String.length]; rewrite length_append; lia)
  end.
  destruct Hfuel as (f & -> & Hf).
  rewrite parseValue_brace.
  rewrite (parseMembers_indent_any members Hne f 1 "" Hf).
  unfold members at 1. rewrite indentMembers_cons, skipSpace_indent.
  change (byteZ json.dquote =? 125) with false. cbv iota.
  reflexivity.
Qed.

Lemma Unmarshal_MarshalIndent_any (d : CanvasData) :
  json.Unmarshal (fst (json.MarshalIndent d "" "    ")) zeroCanvasData
  = (replaceInvalidFields d, None).
Proof.
  unfold json.Unmarshal, json.MarshalIndent. cbn [fst].
  rewrite parse_indentObject_any by discriminate.
  destruct d. reflexivity.
Qed.

(** Well-formed text has no stray byte to replace. *)
Lemma replaceInvalidLoop_WellFormed (fuel : nat) :
  forall s, (String.length s <= fuel)%nat -> WellFormed s ->
            replaceInvalidLoop fuel s = s.
Proof.
  induction fuel as [|fuel IH]; intros s Hlen Hwf.
  - destruct s; [reflexivity|simpl in Hlen; lia].
  - destruct s as [|c s']; [reflexivity|].
    inversion Hwf as [|s0 _ Hhead Htail E]; subst s0.
    cbn [replaceInvalidLoop].
    destruct (utf8.DecodeRuneInString (String c s')) as [r n] eqn:Hd.
    cbn [snd] in Htail.
    destruct (decode_wellformed _ _ _ Hd Hhead ltac:(discriminate))
      as (_ & _ & _ & Hsplit & Hn & Hlt & _).
    unfold utf8.wellFormedHead in Hhead. rewrite Hd in Hhead.
    apply negb_true_iff in Hhead. rewrite Hhead.
    rewrite IH; [exact Hsplit| |exact Htail].
    rewrite <- Hsplit in Hlen. rewrite length_append, Hlt in Hlen. lia.
Qed.

Lemma replaceInvalid_valid (s : string) :
  utf8.ValidString s = true -> replaceInvalid s = s.
Proof.
  intros H. apply replaceInvalidLoop_WellFormed; [lia|].
  now apply ValidString_WellFormed.
Qed.

Lemma WellFormed_validLoop (s : string) :
  WellFormed s ->
  forall fuel, (String.length s <= fuel)%nat -> utf8.validLoop fuel s = true.
Proof.
  induction 1 as [|s Hne Hhead Htail IH]; intros fuel Hlen;
    [now destruct fuel|].
  destruct s as [|c s']; [congruence|].
  destruct fuel as [|fuel]; [simpl in Hlen; lia|].
  cbn [utf8.validLoop]. rewrite Hhead. cbn [andb].
  apply IH.
  pose proof (decode_size_pos c s') as Hpos.
  destruct (snd (utf8.DecodeRuneInString (String c s'))) as [|n]; [lia|].
  pose proof (length_skip_cons n c s'). simpl in Hlen. lia.
Qed.

Lemma WellFormed_replacement (t : string) :
  WellFormed t -> WellFormed (utf8.EncodeRune utf8.RuneError ++ t).
Proof.
  intros H. apply WF_rune; [discriminate|reflexivity|exact H].
Qed.

Lemma WellFormed_take (s t : string) (r : Z) (n : nat) :
  utf8.DecodeRuneInString s = (r, n) ->
  utf8.wellFormedHead s = true -> s <> EmptyString ->
  WellFormed t -> WellFormed (take n s ++ t).
Proof.
  intros Hd Hhead Hne Ht.
  destruct (decode_wellformed _ _ _ Hd Hhead Hne)
    as (_ & Hpre & Hskip & _ & Hn & Hlt & _).
  apply WF_rune.
  - destruct s as [|c s']; [congruence|]. destruct n; [lia|]. discriminate.
  - unfold utf8.wellFormedHead. rewrite Hpre.
    unfold utf8.wellFormedHead in Hhead. now rewrite Hd in Hhead.
  - rewrite Hpre. cbn [snd]. now rewrite Hskip.
Qed.

Lemma replaceInvalidLoop_WF (fuel : nat) :
  forall s, (String.length s <= fuel)%nat ->
            WellFormed (replaceInvalidLoop fuel s).
Proof.
  induction fuel as [|fuel IH]; intros s Hlen.
  - destruct s; [constructor|simpl in Hlen; lia].
  - destruct s as [|c s']; [constructor|].
    cbn [replaceInvalidLoop].
    pose proof (decode_size_pos c s') as Hpos.
    destruct (utf8.DecodeRuneInString (String c s')) as [r n] eqn:Hd.
    cbn [snd] in Hpos. destruct n as [|n]; [lia|].
    pose proof (length_skip_cons n c s') as Hskip. cbn [String.length] in Hlen.
    destruct ((r =? utf8.RuneError) && (S n =? 1)%nat) eqn:Hbad.
    + apply WellFormed_replacement, IH. lia.
    + apply (WellFormed_take (String c s') _ r (S n) Hd);
        [|discriminate|apply IH; lia].
      unfold utf8.wellFormedHead. rewrite Hd. now rewrite Hbad.
Qed.

Lemma replaceInvalid_ValidString (s : string) :
  utf8.ValidString (replaceInvalid s) = true.
Proof.
  unfold utf8.ValidString. apply WellFormed_validLoop; [|lia].
  apply replaceInvalidLoop_WF. lia.
Qed.

(** X18: whatever bytes the nine entries hold, what a successful save
    writes is a document that a load accepts: the load shows "Canvas loaded
    successfully" and installs, for each entry, the saved text with each
    byte that starts no well-formed UTF-8 sequence replaced by U+FFFD. What
    it installs is well-formed UTF-8 throughout, and an entry whose saved
    text was well-formed comes back as it was. *)
Theorem saved_file_always_loads (c1 c2 : Canvas) :
  exists data,
    snd (saveCanvas (SaveTo None) c1)
    = [FileWrite data; ShowInformation "Success" "Canvas saved successfully"]
    /\ snd (loadCanvas (OpenFrom (ReadOK data)) c2)
       = [ShowInformation "Success" "Canvas loaded successfully"]
    /\ (forall f,
           Text (entry f (fst (loadCanvas (OpenFrom (ReadOK data)) c2)))
           = replaceInvalid (Text (entry f c1)))
    /\ (forall f,
           utf8.ValidString
             (Text (entry f (fst (loadCanvas (OpenFrom (ReadOK data)) c2))))
           = true)
    /\ (forall f, utf8.ValidString (Text (entry f c1)) = true ->
           entry f (fst (loadCanvas (OpenFrom (ReadOK data)) c2))
           = entry f c1).
Proof.
  exists (fst (json.MarshalIndent (getCurrentData c1) "" "    ")).
  destruct (checkpoint_frame c1) as (_ & _ & Hlive & _).
  assert (Hload : loadCanvas
                    (OpenFrom (ReadOK (fst (json.MarshalIndent
                                              (getCurrentData c1) "" "    "))))
                    c2
                  = (installData (replaceInvalidFields (getCurrentData c1))
                       (setUndoStack (undoStack c2 ++ [getCurrentData c2]) c2),
                     [ShowInformation "Success" "Canvas loaded successfully"])).
  { unfold loadCanvas. now rewrite Unmarshal_MarshalIndent_any. }
  rewrite Hload. cbn [fst snd].
  assert (Hentry : forall f,
             Text (entry f (installData (replaceInvalidFields (getCurrentData c1))
                       (setUndoStack (undoStack c2 ++ [getCurrentData c2]) c2)))
             = replaceInvalid (Text (entry f c1))).
  { intros f. rewrite <- getCurrentData_fields, getCurrentData_installData.
    destruct f; reflexivity. }
  split; [|split; [reflexivity|split; [exact Hentry|split]]].
  - unfold saveCanvas. cbv zeta. rewrite Hlive. reflexivity.
  - intros f. rewrite Hentry. apply replaceInvalid_ValidString.
  - intros f Hvalid.
    specialize (Hentry f). rewrite (replaceInvalid_valid _ Hvalid) in Hentry.
    destruct (entry f c1) as [t1]. cbn [Text] in Hentry.
    destruct (entry f _) as [t2]. cbn [Text] in Hentry. now subst.
Qed.

Lemma saved_file_always_loads_witness :
  exists data,
    snd (saveCanvas (SaveTo None) strayCanvas)
    = [FileWrite data; ShowInformation "Success" "Canvas saved successfully"]
    /\ Text (keyPartners (fst (loadCanvas (OpenFrom (ReadOK data)) newCanvas)))
       = ("caf" ++ utf8.EncodeRune utf8.RuneError ++ " au lait")%string
    /\ keyActivities (fst (loadCanvas (OpenFrom (ReadOK data)) newCanvas))
       = keyActivities strayCanvas.
Proof.
  destruct (saved_file_always_loads strayCanvas newCanvas)
    as (data & Hs & _ & He & _ & Hv).
  exists data. split; [exact Hs|]. split.
  - pose proof (He FKeyPartners) as H. cbn [entry] in H. rewrite H.
    vm_compute. reflexivity.
  - apply (Hv FKeyActivities). vm_compute. reflexivity.
Defined.

(** X19: a load that parses installs the decoded record in all nine
    entries, whatever they held: an entry whose key the document does not
    name becomes empty (it does not keep its text), and the document [null]
    empties all nine. One undo right after the load gives back the session
    as it was before, with the loaded record on top of the redo stack. *)
Theorem load_replaces_every_entry (c : Canvas) (data : string) (d : CanvasData) :
  json.Unmarshal data zeroCanvasData = (d, None) ->
  let c' := fst (loadCanvas (OpenFrom (ReadOK data)) c) in
  snd (loadCanvas (OpenFrom (ReadOK data)) c)
  = [ShowInformation "Success" "Canvas loaded successfully"]
  /\ getCurrentData c' = d
  /\ (forall ms f,
         json.parse data = Some (json.Object ms) ->
         (forall key v, In (key, v) ms -> json.findField key <> Some f) ->
         Text (entry f c') = EmptyString)
  /\ (json.parse data = Some json.Null -> getCurrentData c' = zeroCanvasData)
  /\ undo c' = setRedoStack (redoStack c ++ [d]) c.
Proof.
  intros Hd c'.
  assert (Hc : loadCanvas (OpenFrom (ReadOK data)) c
               = (installData d
                    (setUndoStack (undoStack c ++ [getCurrentData c]) c),
                  [ShowInformation "Success" "Canvas loaded successfully"])).
  { unfold loadCanvas. now rewrite Hd. }
  unfold c'. rewrite Hc. cbn [fst snd].
  split; [reflexivity|]. split; [apply getCurrentData_installData|].
  split; [|split].
  - intros ms f Hparse Hms.
    rewrite <- getCurrentData_fields, getCurrentData_installData.
    unfold json.Unmarshal in Hd. rewrite Hparse in Hd. cbn [json.decodeValue] in Hd.
    pose proof (decodeMembers_missing ms f (zeroCanvasData, None) Hms) as H.
    rewrite Hd in H. cbn [fst] in H. rewrite H. now destruct f.
  - intros Hparse. rewrite getCurrentData_installData.
    unfold json.Unmarshal in Hd. rewrite Hparse in Hd.
    cbn [json.decodeValue] in Hd. congruence.
  - erewrite undo_pop.
    2:{ destruct (installData_frame d
                    (setUndoStack (undoStack c ++ [getCurrentData c]) c))
          as (-> & _).
        destruct c; reflexivity. }
    destruct c as [[kp] [ka] [kr] [vp] [cr] [ch] [cs] [co] [rs] a l u r vs].
    destruct d. reflexivity.
Qed.

Lemma load_replaces_every_entry_witness :
  getCurrentData (fst (loadCanvas (OpenFrom (ReadOK "{}")) sampleCanvas))
  = zeroCanvasData
  /\ getCurrentData
       (undo (fst (loadCanvas (OpenFrom (ReadOK "{}")) sampleCanvas)))
     = sampleData "live".
Proof.
  destruct (load_replaces_every_entry sampleCanvas "{}" zeroCanvasData)
    as (_ & H1 & _ & _ & H2).
  - vm_compute. reflexivity.
  - split; [exact H1|]. rewrite H2. reflexivity.
Defined.
